(** * VertexTweaker: a shallow embedding of the mesh-editing core

    The development follows [Plugin/VertexTweaker/VertexTweaker.cpp].

    Conventions of the embedding.
    - A C [float] is a rational number ([Q]) and arithmetic is exact:
      rounding, infinities and NaN are outside the model, with four
      exceptions.  Where the source truncates a float to an integer index
      ([GetBrushSampleIndex]) every operation goes through the rounding
      [fround].  Where it divides by the clip-space [w] ([screen_pos])
      the quotient by zero is [None].  Where it divides by [width - 1] or
      [height - 1] ([terrain_vertices]) a grid of one column or one row
      has no vertex buffer ([None]).  Where it tests for NaN
      ([std::isnan] on the angle of [to_axis_angle]) the angle is an
      [option Q], [None] standing for NaN.  Elsewhere division by zero
      follows [Q] ([x / 0 == 0]) and the theorems that depend on a
      quotient assume its divisor is not zero.
    - A buffer is a list; [l !!! i] reads it (a default value out of
      range, where the source has undefined behaviour) and [<[i:=v]> l]
      writes it (no effect out of range).  A nullable buffer is an
      [option].
    - [parallel_for] bodies write only the slot of their own vertex, so
      they are run in ascending index order; [std::atomic_int] counters
      become ordinary counters.  The one loop whose outcome depends on
      the schedule is the gathering of pick candidates, which fills its
      slots in arrival order: it is run in the order [schedule], a
      parameter.
    - Helpers of the math and mesh libraries included through [pch.h]
      are not part of the file: the purely arithmetical ones are defined
      in [Module mu], the others are fields of [Class muExternals]. *)

From Stdlib Require Import QArith Qabs ZArith List Lia Lqa Bool.
From stdpp Require Import base list.

Set Default Proof Using "Type".

(** ** Comparisons of the host language on [Q] *)

Definition fltb (a b : Q) : bool := if Qlt_le_dec a b then true else false.
Definition fleb (a b : Q) : bool := if Qlt_le_dec b a then false else true.
Definition fgeb (a b : Q) : bool := fleb b a.
Definition fgtb (a b : Q) : bool := fltb b a.
Definition feqb (a b : Q) : bool := Qeq_bool a b.

(** ** Vector, quaternion and matrix types *)

Record float2 := mkfloat2 { x2 : Q; y2 : Q }.
Record float3 := mkfloat3 { x3 : Q; y3 : Q; z3 : Q }.
Record float4 := mkfloat4 { x4 : Q; y4 : Q; z4 : Q; w4 : Q }.
Record quatf := mkquatf { qx : Q; qy : Q; qz : Q; qw : Q }.

(** [float4x4] is [float4 m[4]]: four rows. *)
Record float4x4 := mkfloat4x4 { m0 : float4; m1 : float4; m2 : float4; m3 : float4 }.

#[global] Instance Q_inhabited : Inhabited Q := populate 0%Q.
#[global] Instance float2_inhabited : Inhabited float2 := populate (mkfloat2 0 0).
#[global] Instance float3_inhabited : Inhabited float3 := populate (mkfloat3 0 0 0).
#[global] Instance float4_inhabited : Inhabited float4 := populate (mkfloat4 0 0 0 0).

(** Equality of vectors up to the equality of rationals. *)
Definition float3_eq (a b : float3) : Prop :=
  (x3 a == x3 b /\ y3 a == y3 b /\ z3 a == z3 b)%Q.

Declare Scope v3_scope.
Delimit Scope v3_scope with v3.
Bind Scope v3_scope with float3.

(** Modelled from the spec: the vector, matrix and plane helpers of the
    math library ([muMath.h], reached through [pch.h], is not under src).
    Vectors are rows: a point [p] is transformed as [p * M], with the
    translation in the last row, and [a * b] applies [a] first. *)
Module mu.
Local Open Scope Q_scope.

Definition fmax (a b : Q) : Q := if fltb a b then b else a.
Definition fmin (a b : Q) : Q := if fltb b a then b else a.
Definition clamp (v vmin vmax : Q) : Q := fmin (fmax v vmin) vmax.
Definition clamp01 (v : Q) : Q := clamp v 0 1.
Definition abs (v : Q) : Q := Qabs v.

(** [int(v)]: conversion of a float to an integer, towards zero. *)
Definition to_int (v : Q) : Z := Z.quot (Qnum v) (Z.pos (Qden v)).

Definition zero2 : float2 := mkfloat2 0 0.
Definition add2 (a b : float2) : float2 := mkfloat2 (x2 a + x2 b) (y2 a + y2 b).
Definition sub2 (a b : float2) : float2 := mkfloat2 (x2 a - x2 b) (y2 a - y2 b).
Definition scale2 (a : float2) (s : Q) : float2 := mkfloat2 (x2 a * s) (y2 a * s).
Definition div2 (a : float2) (s : Q) : float2 := mkfloat2 (x2 a / s) (y2 a / s).

Definition zero3 : float3 := mkfloat3 0 0 0.
Definition add3 (a b : float3) : float3 :=
  mkfloat3 (x3 a + x3 b) (y3 a + y3 b) (z3 a + z3 b).
Definition sub3 (a b : float3) : float3 :=
  mkfloat3 (x3 a - x3 b) (y3 a - y3 b) (z3 a - z3 b).
Definition neg3 (a : float3) : float3 := mkfloat3 (- x3 a) (- y3 a) (- z3 a).
Definition scale3 (a : float3) (s : Q) : float3 :=
  mkfloat3 (x3 a * s) (y3 a * s) (z3 a * s).
Definition div3 (a : float3) (s : Q) : float3 :=
  mkfloat3 (x3 a / s) (y3 a / s) (z3 a / s).

Definition zero4 : float4 := mkfloat4 0 0 0 0.
Definition add4 (a b : float4) : float4 :=
  mkfloat4 (x4 a + x4 b) (y4 a + y4 b) (z4 a + z4 b) (w4 a + w4 b).
Definition scale4 (a : float4) (s : Q) : float4 :=
  mkfloat4 (x4 a * s) (y4 a * s) (z4 a * s) (w4 a * s).
(** [(float3&)t]: the first three components of a [float4]. *)
Definition xyz (a : float4) : float3 := mkfloat3 (x4 a) (y4 a) (z4 a).
Definition set_xyz (a : float4) (v : float3) : float4 :=
  mkfloat4 (x3 v) (y3 v) (z3 v) (w4 a).

Definition dot2 (a b : float2) : Q := x2 a * x2 b + y2 a * y2 b.
Definition dot (a b : float3) : Q := x3 a * x3 b + y3 a * y3 b + z3 a * z3 b.
Definition dot4 (a b : float4) : Q :=
  x4 a * x4 b + y4 a * y4 b + z4 a * z4 b + w4 a * w4 b.
Definition length_sq (a : float3) : Q := dot a a.

(** [lerp(a, b, t) = a * (1 - t) + b * t]. *)
Definition lerp (a b : float3) (t : Q) : float3 :=
  add3 (scale3 a (1 - t)) (scale3 b t).

(** Signed distance of [p] to the plane through the origin with normal
    [n], and the mirror image of [p] across that plane. *)
Definition plane_distance (p n : float3) : Q := dot p n.
Definition plane_mirror (p n : float3) : float3 :=
  sub3 p (scale3 n (plane_distance p n * 2)).

Definition identity44 : float4x4 :=
  mkfloat4x4 (mkfloat4 1 0 0 0) (mkfloat4 0 1 0 0)
             (mkfloat4 0 0 1 0) (mkfloat4 0 0 0 1).

Definition col0 (m : float4x4) := mkfloat4 (x4 (m0 m)) (x4 (m1 m)) (x4 (m2 m)) (x4 (m3 m)).
Definition col1 (m : float4x4) := mkfloat4 (y4 (m0 m)) (y4 (m1 m)) (y4 (m2 m)) (y4 (m3 m)).
Definition col2 (m : float4x4) := mkfloat4 (z4 (m0 m)) (z4 (m1 m)) (z4 (m2 m)) (z4 (m3 m)).
Definition col3 (m : float4x4) := mkfloat4 (w4 (m0 m)) (w4 (m1 m)) (w4 (m2 m)) (w4 (m3 m)).

(** [a * b] on matrices. *)
Definition mul44 (a b : float4x4) : float4x4 :=
  let row r := mkfloat4 (dot4 r (col0 b)) (dot4 r (col1 b))
                        (dot4 r (col2 b)) (dot4 r (col3 b)) in
  mkfloat4x4 (row (m0 a)) (row (m1 a)) (row (m2 a)) (row (m3 a)).

(** [mul_v]: a direction through the upper 3x3 block; [mul_p]: a point,
    with the translation row added; [mul4]: a point to clip space. *)
Definition mul_v (m : float4x4) (v : float3) : float3 :=
  mkfloat3 (x4 (m0 m) * x3 v + x4 (m1 m) * y3 v + x4 (m2 m) * z3 v)
           (y4 (m0 m) * x3 v + y4 (m1 m) * y3 v + y4 (m2 m) * z3 v)
           (z4 (m0 m) * x3 v + z4 (m1 m) * y3 v + z4 (m2 m) * z3 v).
Definition mul_p (m : float4x4) (v : float3) : float3 :=
  mkfloat3 (x4 (m0 m) * x3 v + x4 (m1 m) * y3 v + x4 (m2 m) * z3 v + x4 (m3 m))
           (y4 (m0 m) * x3 v + y4 (m1 m) * y3 v + y4 (m2 m) * z3 v + y4 (m3 m))
           (z4 (m0 m) * x3 v + z4 (m1 m) * y3 v + z4 (m2 m) * z3 v + z4 (m3 m)).
Definition mul4 (m : float4x4) (v : float3) : float4 :=
  mkfloat4 (x4 (m0 m) * x3 v + x4 (m1 m) * y3 v + x4 (m2 m) * z3 v + x4 (m3 m))
           (y4 (m0 m) * x3 v + y4 (m1 m) * y3 v + y4 (m2 m) * z3 v + y4 (m3 m))
           (z4 (m0 m) * x3 v + z4 (m1 m) * y3 v + z4 (m2 m) * z3 v + z4 (m3 m))
           (w4 (m0 m) * x3 v + w4 (m1 m) * y3 v + w4 (m2 m) * z3 v + w4 (m3 m)).
(** [mul_v] on a [float4]: the direction part is transformed, [w] kept. *)
Definition mul_v4 (m : float4x4) (v : float4) : float4 :=
  set_xyz v (mul_v m (xyz v)).
End mu.

Notation "a + b" := (mu.add3 a b) : v3_scope.
Notation "a - b" := (mu.sub3 a b) : v3_scope.
Notation "a * s" := (mu.scale3 a s) : v3_scope.
Notation "a / s" := (mu.div3 a s) : v3_scope.
Notation "- a" := (mu.neg3 a) : v3_scope.

(** Modelled from the spec: [invert] on a [float4x4] is the matrix
    inverse ([muMath.h] is not under src), written by cofactors; a
    singular matrix is divided by a zero determinant. *)
Module inv.
Local Open Scope Q_scope.

Definition row (m : float4x4) (r : nat) : float4 :=
  match r with O => m0 m | 1%nat => m1 m | 2%nat => m2 m | _ => m3 m end.
Definition comp (v : float4) (c : nat) : Q :=
  match c with O => x4 v | 1%nat => y4 v | 2%nat => z4 v | _ => w4 v end.
Definition entry (m : float4x4) (r c : nat) : Q := comp (row m r) c.

(** The [i]-th index among those different from [k]. *)
Definition skip (k i : nat) : nat := if (i <? k)%nat then i else S i.

Definition det3 (a b c d e f g h i : Q) : Q :=
  a * (e * i - f * h) - b * (d * i - f * g) + c * (d * h - e * g).

(** The entry [(i, j)] of the 3x3 matrix left when row [r] and column
    [c] are removed. *)
Definition sub_entry (m : float4x4) (r c i j : nat) : Q :=
  entry m (skip r i) (skip c j).

Definition minor (m : float4x4) (r c : nat) : Q :=
  det3 (sub_entry m r c 0 0) (sub_entry m r c 0 1) (sub_entry m r c 0 2)
       (sub_entry m r c 1 0) (sub_entry m r c 1 1) (sub_entry m r c 1 2)
       (sub_entry m r c 2 0) (sub_entry m r c 2 1) (sub_entry m r c 2 2).

Definition cofactor (m : float4x4) (r c : nat) : Q :=
  (if Nat.even (r + c) then 1 else -1) * minor m r c.

Definition det (m : float4x4) : Q :=
  entry m 0 0 * cofactor m 0 0 + entry m 0 1 * cofactor m 0 1
  + entry m 0 2 * cofactor m 0 2 + entry m 0 3 * cofactor m 0 3.

(** The entry [(r, c)] of the inverse: the transposed cofactor over the
    determinant. *)
Definition inv_entry (m : float4x4) (r c : nat) : Q := cofactor m c r / det m.
Definition inv_row (m : float4x4) (r : nat) : float4 :=
  mkfloat4 (inv_entry m r 0) (inv_entry m r 1) (inv_entry m r 2) (inv_entry m r 3).

Definition invert (m : float4x4) : float4x4 :=
  mkfloat4x4 (inv_row m 0) (inv_row m 1) (inv_row m 2) (inv_row m 3).
End inv.

(** ** Constants *)

(** [#define npEpsilon 0.0000001f] and [#define npVertexBlockSize 1024]. *)
Definition npEpsilon : Q := 1 # 10000000.
Definition npVertexBlockSize : nat := 1024.

(** [FLT_MIN] is the least positive normalised [float], [2^-126];
    [FLT_MAX] is the greatest finite one, [(2^24 - 1) * 2^104]. *)
Definition FLT_MIN : Q := 1 # (2 ^ 126).
Definition FLT_MAX : Q := inject_Z ((2 ^ 24 - 1) * 2 ^ 104).

(** ** Library routines taken as parameters

    These helpers are declared in headers that are not under src.  The
    development is parametric in them; nothing is assumed of them beyond
    what a theorem states as a hypothesis.
    - [sqrtf] is [std::sqrt]; [muEpsilon] is the default tolerance of
      [near_equal]; [angle_between] and [Rad2Deg] serve the weld test.
    - [to_axis_angle] returns the axis and the angle, [None] for NaN.
    - A ray query returns the number of hits, the index of the nearest
      triangle hit and its distance.
    - [SelectEdge], [SelectHole] and [SelectConnected] return the
      vertices they hand to their callback, in call order.

    Two parameters belong to the platform rather than to a library.
    - [fround] rounds a real number to a [float]: the result of a float
      operation is [fround] of the exact result, and so is the conversion
      of an [int] to [float].
    - [schedule n] is the order in which the bodies [0 .. n) of a
      [parallel_for] reach a counter they share. *)
Class muExternals := {
  sqrtf : Q -> Q;
  muEpsilon : Q;
  Rad2Deg : Q;
  angle_between : float3 -> float3 -> Q;
  to_axis_angle : quatf -> float3 * option Q;
  quat_invert : quatf -> quatf;
  to_mat4x4 : quatf -> float4x4;
  translate : float3 -> float4x4;
  RayTrianglesIntersectionIndexed :
    float3 -> float3 -> list float3 -> list nat -> nat -> Z * nat * Q;
  RayTrianglesIntersectionSoA :
    float3 -> float3 -> list (list Q) -> nat -> Z * nat * Q;
  triangle_interpolation :
    float3 -> float3 -> float3 -> float3 -> float3 -> float3 -> float3 -> float3;
  triangle_interpolation4 :
    float3 -> float3 -> float3 -> float3 -> float4 -> float4 -> float4 -> float4;
  MinMax : list float2 -> nat -> float2 * float2;
  PolyInside : list Q -> list Q -> nat -> float2 -> float2 -> float2 -> bool;
  SelectEdge : list nat -> list float3 -> list nat -> list nat;
  SelectHole : list nat -> list float3 -> list nat -> list nat;
  SelectConnected : list nat -> list float3 -> list nat -> list nat;
  fround : Q -> Q;
  schedule : nat -> list nat
}.

(** ** Mesh and skin descriptors *)

Record npMeshData := mknpMeshData {
  indices : list nat;
  vertices : list float3;
  normals : option (list float3);
  tangents : option (list float4);
  uv : option (list float2);
  selection : list Q;
  num_vertices : nat;
  num_triangles : nat;
  transform : float4x4
}.

(** [Weights4]: four bone weights and four bone indices. *)
Record Weights := mkWeights { weights : list Q; bone_indices : list nat }.

Record npSkinData := mknpSkinData {
  skin_weights : list Weights;
  bones : list float4x4;
  bindposes : list float4x4;
  skin_num_vertices : nat;
  num_bones : nat;
  root : float4x4
}.

#[global] Instance float4x4_inhabited : Inhabited float4x4 :=
  populate (mkfloat4x4 mu.zero4 mu.zero4 mu.zero4 mu.zero4).
#[global] Instance Weights_inhabited : Inhabited Weights := populate (mkWeights [] []).

Definition set_selection (m : npMeshData) (s : list Q) : npMeshData :=
  mknpMeshData (indices m) (vertices m) (normals m) (tangents m) (uv m) s
               (num_vertices m) (num_triangles m) (transform m).
Definition set_vertices (m : npMeshData) (v : list float3) : npMeshData :=
  mknpMeshData (indices m) v (normals m) (tangents m) (uv m) (selection m)
               (num_vertices m) (num_triangles m) (transform m).
Definition set_normals (m : npMeshData) (n : option (list float3)) : npMeshData :=
  mknpMeshData (indices m) (vertices m) n (tangents m) (uv m) (selection m)
               (num_vertices m) (num_triangles m) (transform m).
Definition set_tangents (m : npMeshData) (t : option (list float4)) : npMeshData :=
  mknpMeshData (indices m) (vertices m) (normals m) t (uv m) (selection m)
               (num_vertices m) (num_triangles m) (transform m).

(** The normals of a mesh whose normal buffer the source reads without a
    null test. *)
Definition normals_of (m : npMeshData) : list float3 := default [] (normals m).

Section Core.
Context {E : muExternals}.
Local Open Scope Q_scope.

(** Modelled from the spec: [length], [normalize] and [near_equal] of the
    math library, on top of [sqrtf] and the default tolerance. *)
Definition length3 (v : float3) : Q := sqrtf (mu.length_sq v).
Definition length2 (v : float2) : Q := sqrtf (mu.dot2 v v).
Definition normalize (v : float3) : float3 := (v / length3 v)%v3.
Definition near_equal_eps (a b eps : Q) : bool := fltb (mu.abs (a - b)) eps.
Definition near_equal (a b : Q) : bool := near_equal_eps a b muEpsilon.

(** ** Ray casts *)

Definition Raycast (model : npMeshData) (pos dir : float3) : Z * nat * Q :=
  let itrans := inv.invert (transform model) in
  let rpos := mu.mul_p itrans pos in
  let rdir := normalize (mu.mul_v itrans dir) in
  let '(hit, tindex, d) :=
    RayTrianglesIntersectionIndexed rpos rdir (vertices model) (indices model)
                                    (num_triangles model) in
  if (hit =? 0)%Z then (hit, tindex, 0)
  else
    let hpos := (rpos + rdir * d)%v3 in
    (hit, tindex, length3 (mu.mul_p (transform model) hpos - pos)%v3).

Definition RaycastWithoutTransform (model : npMeshData) (pos dir : float3)
  : Z * nat * Q :=
  let '(hit, tindex, d) :=
    RayTrianglesIntersectionIndexed pos dir (vertices model) (indices model)
                                    (num_triangles model) in
  if (hit =? 0)%Z then (hit, tindex, 0)
  else
    let hpos := (pos + dir * d)%v3 in
    (hit, tindex, length3 (hpos - pos)%v3).

(** ** [SelectInside]

    The visitor [body] of the source mutates the buffers it captured; here
    it transforms a state [S].  The count of visited vertices is returned
    with the final state.  With [parallel] the source splits the range in
    blocks of [npVertexBlockSize]; every vertex is still visited once. *)
Definition SelectInside {S : Type} (model : npMeshData) (pos : float3)
    (radius : Q) (body : nat -> Q -> float3 -> S -> S) (parallel : bool)
    (s0 : S) : S * Z :=
  let rq := radius * radius in
  let do_select '(s, ret) vi :=
    let p := mu.mul_p (transform model) (vertices model !!! vi) in
    let dsq := mu.length_sq (p - pos)%v3 in
    if fleb dsq rq then (body vi (sqrtf dsq) p s, (ret + 1)%Z)
    else (s, ret) in
  fold_left do_select (seq 0 (num_vertices model)) (s0, 0%Z).

(** ** [GetFurthestDistance]

    [Some (vidx, dist)] is the [true] return with both outputs written;
    [None] is [false].  [furthest_vi] is uninitialised in the source and
    is read only after it has been assigned. *)
Definition furthest_step (model : npMeshData) (lpos : float3) (mask : bool)
    (st : Q * nat) (vi : nat) : Q * nat :=
  let '(furthest_sq, furthest_vi) := st in
  if negb mask || fgtb (selection model !!! vi) 0 then
    let dsq := mu.length_sq (vertices model !!! vi - lpos)%v3 in
    if fgtb dsq furthest_sq then (dsq, vi) else (furthest_sq, furthest_vi)
  else (furthest_sq, furthest_vi).

Definition GetFurthestDistance (model : npMeshData) (pos : float3) (mask : bool)
  : option (nat * Q) :=
  let lpos := mu.mul_p (inv.invert (transform model)) pos in
  let '(furthest_sq, furthest_vi) :=
    fold_left (furthest_step model lpos mask) (seq 0 (num_vertices model))
              (FLT_MIN, 0%nat) in
  if fgtb furthest_sq FLT_MIN then
    Some (furthest_vi,
          length3 (mu.mul_p (transform model) (vertices model !!! furthest_vi)
                   - pos)%v3)
  else None.

(** ** Brush falloff *)

(** [int(clamp01(1.0f - distance / bradius) * (num_bsamples - 1))]: the
    quotient, the difference and the product are float operations and
    [num_bsamples - 1] is converted to [float]; each is rounded. *)
Definition GetBrushSampleIndex (distance bradius : Q) (num_bsamples : Z) : Z :=
  mu.to_int
    (fround (mu.clamp01 (fround (1 - fround (distance / bradius)))
             * fround (inject_Z (num_bsamples - 1)))).

Definition GetBrushSample (distance bradius : Q) (bsamples : list Q)
    (num_bsamples : Z) : Q :=
  bsamples !!! Z.to_nat (GetBrushSampleIndex distance bradius num_bsamples).

(** ** Nearest-vertex pick *)

Definition max_inside : nat := 64.

(** The screen-space position of a vertex and its clip-space [z].  When
    the clip-space [w] is zero the quotient [{vp.x, vp.y} / vp.w] of the
    source is made of infinities or NaN, which are not numbers of the
    model: the position is [None]. *)
Definition screen_pos (mvp : float4x4) (v : float3) : option (float2 * Q) :=
  let vp := mu.mul4 mvp v in
  if feqb (w4 vp) 0 then None
  else Some (mu.div2 (mkfloat2 (x4 vp) (y4 vp)) (w4 vp), z4 vp).

Definition in_rect (sp rmin rmax : float2) : bool :=
  fgeb (x2 sp) (x2 rmin) && fleb (x2 sp) (x2 rmax) &&
  fgeb (y2 sp) (y2 rmin) && fleb (y2 sp) (y2 rmax).

(** The front-face filter, written out in [npSelectNearestImpl],
    [npSelectRect] and [npSelectLasso]: a ray from the camera towards the
    vertex must hit the mesh within 0.01 of the vertex. *)
Definition front_face (model : npMeshData) (lcampos : float3)
    (frontface_only : bool) (vi : nat) : bool :=
  if frontface_only then
    let vpos := vertices model !!! vi in
    let dir := normalize (vpos - lcampos)%v3 in
    let '(hit, _, distance) := RaycastWithoutTransform model lcampos dir in
    if (hit =? 0)%Z then false
    else
      let hitpos := (lcampos + dir * distance)%v3 in
      fltb (length3 (vpos - hitpos)%v3) (1 # 100)
  else true.

(** Gathering: [insider] holds the candidates kept so far, in slot order,
    and [num_inside_a] counts every candidate, kept or not.  A position
    made of infinities or NaN fails the test of the rectangle, whose
    bounds are numbers: [x >= rmin.x && x <= rmax.x] is false of either
    infinity and of NaN. *)
Definition gather_step (model : npMeshData) (mvp : float4x4)
    (rmin rmax : float2) (lcampos : float3) (frontface_only : bool)
    (st : list (nat * Q) * nat) (vi : nat) : list (nat * Q) * nat :=
  let '(insider, num_inside_a) := st in
  let rcenter := mu.scale2 (mu.add2 rmin rmax) (1 # 2) in
  match screen_pos mvp (vertices model !!! vi) with
  | Some (sp, z) =>
      if in_rect sp rmin rmax && fgtb z 0 then
        if front_face model lcampos frontface_only vi then
          let ii := num_inside_a in
          ((if (ii <? max_inside)%nat
            then insider ++ [(vi, length2 (mu.sub2 sp rcenter))]
            else insider), S num_inside_a)
        else st
      else st
  | None => st
  end.

Definition gather_inside (model : npMeshData) (mvp : float4x4)
    (rmin rmax : float2) (lcampos : float3) (frontface_only : bool)
  : list (nat * Q) * nat :=
  fold_left (gather_step model mvp rmin rmax lcampos frontface_only)
            (schedule (num_vertices model)) ([], 0%nat).

(** Search among the kept candidates: the state is [nearest_index],
    [nearest_distance] and [nearest_facing]. *)
Definition nearest_step (model : npMeshData) (lcampos : float3)
    (st : nat * Q * Q) (c : nat * Q) : nat * Q * Q :=
  let '(nearest_index, nearest_distance, nearest_facing) := st in
  let '(vi, distance) := c in
  let dir := normalize (vertices model !!! vi - lcampos)%v3 in
  if near_equal_eps distance nearest_distance npEpsilon then
    let facing := mu.dot (normals_of model !!! vi) dir in
    if fltb facing nearest_facing then (vi, distance, facing) else st
  else if fltb distance nearest_distance then
    (vi, distance, mu.dot (normals_of model !!! vi) dir)
  else st.

Definition search_nearest (model : npMeshData) (lcampos : float3)
    (insider : list (nat * Q)) : nat * Q * Q :=
  fold_left (nearest_step model lcampos) insider (0%nat, FLT_MAX, 1).

Definition npSelectNearestImpl (model : npMeshData) (mvp : float4x4)
    (rmin rmax : float2) (campos : float3) (frontface_only : bool)
  : option nat :=
  let lcampos := mu.mul_p (inv.invert (transform model)) campos in
  let '(insider, num_inside_a) :=
    gather_inside model mvp rmin rmax lcampos frontface_only in
  let num_inside := Nat.min num_inside_a max_inside in
  if (0 <? num_inside)%nat then
    let '(nearest_index, _, _) :=
      search_nearest model lcampos (take num_inside insider) in
    Some nearest_index
  else None.


(** ** Selection *)

(** [selection[vi] = clamp01(selection[vi] + delta)]. *)
Definition add_selection (sel : list Q) (vi : nat) (delta : Q) : list Q :=
  <[vi := mu.clamp01 (sel !!! vi + delta)]> sel.

(** [memset(selection, 0, num_vertices * 4)]. *)
Definition clear_selection (sel : list Q) (n : nat) : list Q :=
  replicate (Nat.min n (length sel)) 0 ++ drop n sel.

Definition npSelectSingle (model : npMeshData) (mvp : float4x4)
    (rmin rmax : float2) (campos : float3) (strength : Q)
    (frontface_only : bool) : npMeshData * Z :=
  match npSelectNearestImpl model mvp rmin rmax campos frontface_only with
  | Some pick_index =>
      (set_selection model (add_selection (selection model) pick_index strength),
       1%Z)
  | None => (model, 0%Z)
  end.

Definition npSelectTriangle (model : npMeshData) (pos dir : float3)
    (strength : Q) : npMeshData * Z :=
  let '(hit, ti, _) := Raycast model pos dir in
  if (hit =? 0)%Z then (model, 0%Z)
  else
    let sel :=
      fold_left (fun sel i =>
                   add_selection sel (indices model !!! (ti * 3 + i)%nat) strength)
                (seq 0 3) (selection model) in
    (set_selection model sel, 1%Z).

(** The vertices with a positive weight, in index order. *)
Definition selected_targets (model : npMeshData) : list nat :=
  filter (fun vi => fgtb (selection model !!! vi) 0 = true)
         (seq 0 (num_vertices model)).

Definition select_targets (model : npMeshData) (mask : bool) : list nat :=
  if mask then selected_targets model else seq 0 (num_vertices model).

(** The part shared by [npSelectEdge], [npSelectHole] and
    [npSelectConnected]: optional clear, then the callback on every
    vertex the topology routine reports. *)
Definition select_visited (model : npMeshData) (strength : Q) (clear : bool)
    (visited : list nat) : npMeshData * Z :=
  let sel0 := if clear then clear_selection (selection model) (num_vertices model)
              else selection model in
  let '(sel, ret) :=
    fold_left (fun '(sel, ret) vi => (add_selection sel vi strength, (ret + 1)%Z))
              visited (sel0, 0%Z) in
  (set_selection model sel, ret).

Definition npSelectEdge (model : npMeshData) (strength : Q) (clear mask : bool)
  : npMeshData * Z :=
  let idx := take (num_triangles model * 3) (indices model) in
  let vtx := take (num_vertices model) (vertices model) in
  select_visited model strength clear
                 (SelectEdge idx vtx (select_targets model mask)).

Definition npSelectHole (model : npMeshData) (strength : Q) (clear mask : bool)
  : npMeshData * Z :=
  let idx := take (num_triangles model * 3) (indices model) in
  let vtx := take (num_vertices model) (vertices model) in
  select_visited model strength clear
                 (SelectHole idx vtx (select_targets model mask)).

Definition npSelectConnected (model : npMeshData) (strength : Q) (clear : bool)
  : npMeshData * Z :=
  let idx := take (num_triangles model * 3) (indices model) in
  let vtx := take (num_vertices model) (vertices model) in
  select_visited model strength clear
                 (SelectConnected idx vtx (selected_targets model)).

(** The per-vertex loop of [npSelectRect] and [npSelectLasso]: [inside]
    is the screen-space test of the entry point.  A position made of
    infinities or NaN fails the test of the rectangle; what [PolyInside]
    answers on one is not known, the loop takes it as outside and the
    theorem on [npSelectLasso] assumes no vertex has a zero [w]. *)
Definition select_screen (model : npMeshData) (mvp : float4x4)
    (inside : float2 -> Q -> bool) (campos : float3) (strength : Q)
    (frontface_only : bool) : npMeshData * Z :=
  let lcampos := mu.mul_p (inv.invert (transform model)) campos in
  let step '(sel, ret) vi :=
    match screen_pos mvp (vertices model !!! vi) with
    | Some (sp, z) =>
        if inside sp z then
          if front_face model lcampos frontface_only vi
          then (add_selection sel vi strength, (ret + 1)%Z)
          else (sel, ret)
        else (sel, ret)
    | None => (sel, ret)
    end in
  let '(sel, ret) :=
    fold_left step (seq 0 (num_vertices model)) (selection model, 0%Z) in
  (set_selection model sel, ret).

Definition npSelectRect (model : npMeshData) (mvp : float4x4)
    (rmin rmax : float2) (campos : float3) (strength : Q)
    (frontface_only : bool) : npMeshData * Z :=
  select_screen model mvp (fun sp z => in_rect sp rmin rmax && fgtb z 0)
                campos strength frontface_only.

Definition npSelectLasso (model : npMeshData) (mvp : float4x4)
    (lasso : list float2) (num_lasso_points : Z) (campos : float3)
    (strength : Q) (frontface_only : bool) : npMeshData * Z :=
  if (num_lasso_points <? 3)%Z then (model, 0%Z)
  else
    let n := Z.to_nat num_lasso_points in
    let '(minp, maxp) := MinMax lasso n in
    let polyx := map x2 (take n lasso) in
    let polyy := map y2 (take n lasso) in
    select_screen model mvp
                  (fun sp _ => PolyInside polyx polyy n minp maxp sp)
                  campos strength frontface_only.

Definition npSelectBrush (model : npMeshData) (pos : float3)
    (radius strength : Q) (num_bsamples : Z) (bsamples : list Q)
  : npMeshData * Z :=
  let body vi d (p : float3) sel :=
    let s := GetBrushSample d radius bsamples num_bsamples * strength in
    add_selection sel vi s in
  let '(sel, ret) := SelectInside model pos radius body true (selection model) in
  (set_selection model sel, ret).

(** ** Rotation about a pivot *)

(** The weight of a vertex under [mask]: [mask ? selection[vi] : 1.0f]. *)
Definition mask_weight (model : npMeshData) (mask : bool) (vi : nat) : Q :=
  if mask then selection model !!! vi else 1.

Definition angle_is_negligible (angle : option Q) : bool :=
  match angle with
  | Some a => near_equal a 0      (* a number: [near_equal(angle, 0.0f)] *)
  | None => true                  (* NaN: [std::isnan(angle)] *)
  end.

Definition npRotatePivotVertices (model : npMeshData) (value : quatf)
    (pivot_pos : float3) (pivot_rot : quatf) (mask : bool) : npMeshData :=
  let '(axis, angle) := to_axis_angle value in
  if angle_is_negligible angle then model
  else
    let ptrans := mu.mul44 (to_mat4x4 (quat_invert pivot_rot)) (translate pivot_pos) in
    let iptrans := inv.invert ptrans in
    let trans := transform model in
    let itrans := inv.invert trans in
    let to_pivot_space := mu.mul44 trans iptrans in
    let to_local_space := mu.mul44 ptrans itrans in
    let rotation :=
      mu.mul44 (mu.mul44 to_pivot_space (to_mat4x4 value)) to_local_space in
    let step vtx vi :=
      let s := mask_weight model mask vi in
      if feqb s 0 then vtx
      else <[vi := mu.lerp (vtx !!! vi) (mu.mul_p rotation (vtx !!! vi)) s]> vtx in
    set_vertices model (fold_left step (seq 0 (num_vertices model)) (vertices model)).

(** ** Weld *)

(** The state of the outer loop of [npWeld]: the normal buffer, the
    [checked] flags and the number of groups. *)
Record weld_state := mkweld_state {
  w_normals : list float3;
  w_checked : list bool;
  w_ret : Z
}.

(** The inner loop for the seed [vi]: the running normal [n], the
    vertices gathered in [shared] and the flags. *)
Definition weld_gather_step (model : npMeshData) (nrm : list float3)
    (smoothing : bool) (weld_angle : Q) (vi : nat) (p : float3)
    (st : float3 * list nat * list bool) (i : nat)
  : float3 * list nat * list bool :=
  let '(n, shared, checked) := st in
  if negb (vi =? i)%nat && negb (checked !!! i)
     && fltb (length3 (vertices model !!! i - p)%v3) npEpsilon
     && fleb (angle_between n (nrm !!! i) * Rad2Deg) weld_angle
  then ((if smoothing then (n + nrm !!! i)%v3 else n), shared ++ [i],
        <[i := true]> checked)
  else st.

Definition weld_gather (model : npMeshData) (nrm : list float3)
    (smoothing : bool) (weld_angle : Q) (vi : nat) (checked : list bool)
  : float3 * list nat * list bool :=
  fold_left (weld_gather_step model nrm smoothing weld_angle vi
                              (vertices model !!! vi))
            (seq 0 (num_vertices model)) (nrm !!! vi, [], checked).

(** Whether the outer loop takes [vi] as a seed. *)
Definition weld_is_seed (model : npMeshData) (mask : bool) (st : weld_state)
    (vi : nat) : bool :=
  negb (w_checked st !!! vi) && negb (feqb (mask_weight model mask vi) 0).

Definition weld_step (model : npMeshData) (smoothing : bool) (weld_angle : Q)
    (mask : bool) (st : weld_state) (vi : nat) : weld_state :=
  if weld_is_seed model mask st vi then
    let '(n, shared, checked) :=
      weld_gather model (w_normals st) smoothing weld_angle vi (w_checked st) in
    match shared with
    | [] => mkweld_state (w_normals st) checked (w_ret st)
    | _ :: _ =>
        let n := normalize n in
        let nrm := <[vi := n]> (w_normals st) in
        let nrm := fold_left (fun nrm si => <[si := n]> nrm) shared nrm in
        mkweld_state nrm checked (w_ret st + 1)
    end
  else st.

(** The state after the first [k] iterations of the outer loop. *)
Definition weld_loop (model : npMeshData) (smoothing : bool) (weld_angle : Q)
    (mask : bool) (k : nat) : weld_state :=
  fold_left (weld_step model smoothing weld_angle mask) (seq 0 k)
            (mkweld_state (normals_of model)
                          (replicate (num_vertices model) false) 0).

Definition npWeld (model : npMeshData) (smoothing : bool) (weld_angle : Q)
    (mask : bool) : npMeshData * Z :=
  let st := weld_loop model smoothing weld_angle mask (num_vertices model) in
  (set_normals model (option_map (fun _ => w_normals st) (normals model)),
   w_ret st).

(** ** Mirroring relation *)

(** The test of the inner loop of [npBuildMirroringRelation]. *)
Definition mirror_partner (model : npMeshData) (mirror_plane : float3)
    (epsilon : Q) (distances : list Q) (vi i : nat) : bool :=
  let d2 := distances !!! i in
  if fgtb d2 0 &&
     fltb (length3 (vertices model !!! vi
                    - (vertices model !!! i - mirror_plane * (d2 * 2)))%v3)
          epsilon
  then
    let n1 := normals_of model !!! vi in
    let n2 := mu.plane_mirror (normals_of model !!! i) mirror_plane in
    fgeb (mu.dot n1 n2) (99 # 100)
  else false.

(** The value stored in [relation[vi]], with whether a partner was found. *)
Definition mirror_relation_of (model : npMeshData) (mirror_plane : float3)
    (epsilon : Q) (distances : list Q) (vi : nat) : Z * bool :=
  let d1 := distances !!! vi in
  if fltb d1 0 then
    match find (mirror_partner model mirror_plane epsilon distances vi)
               (seq 0 (num_vertices model)) with
    | Some i => (Z.of_nat i, true)
    | None => ((-1)%Z, false)
    end
  else if near_equal d1 0 then ((-2)%Z, false)   (* -2: on mirror plane *)
  else ((-1)%Z, false).

Definition npBuildMirroringRelation (model : npMeshData) (mirror_plane : float3)
    (epsilon : Q) (relation : option (list Z)) : option (list Z) * Z :=
  match relation with
  | None => (None, 0%Z)
  | Some relation =>
      let distances :=
        map (fun vi => mu.plane_distance (vertices model !!! vi) mirror_plane)
            (seq 0 (num_vertices model)) in
      let step '(relation, ret) vi :=
        let '(rel, found) :=
          mirror_relation_of model mirror_plane epsilon distances vi in
        (<[vi := rel]> relation, if found then (ret + 1)%Z else ret) in
      let '(relation, ret) :=
        fold_left step (seq 0 (num_vertices model)) (relation, 0%Z) in
      (Some relation, ret)
  end.

(** ** Projection onto a target mesh *)

Inductive npProjectVerticesMode := Forward | Backward | ForwardAndBackward.

(** The template parameter [RayDirs]: [ray_dirs[vi]], evaluated on the
    buffers of the model as they are when vertex [vi] is processed. *)
Definition RayDirs := npMeshData -> nat -> float3.

(** [soa[i * 3 + k][ti]]: coordinate [k] of corner [i] of triangle [ti] of
    the target, in the space of the model. *)
Definition soa_build (target : npMeshData) (to_local : float4x4) : list (list Q) :=
  let corner i ti :=
    mu.mul_p to_local (vertices target !!! (indices target !!! (ti * 3 + i)%nat)) in
  let tris := seq 0 (num_triangles target) in
  flat_map (fun i => [map (fun ti => x3 (corner i ti)) tris;
                      map (fun ti => y3 (corner i ti)) tris;
                      map (fun ti => z3 (corner i ti)) tris])
           (seq 0 3).

Definition soa_corner (soa : list (list Q)) (i ti : nat) : float3 :=
  mkfloat3 ((soa !!! (i * 3)%nat) !!! ti) ((soa !!! (i * 3 + 1)%nat) !!! ti)
           ((soa !!! (i * 3 + 2)%nat) !!! ti).

Definition gen_normal (target : npMeshData) (to_local : float4x4)
    (soa : list (list Q)) (pos : float3) (ti : nat) : float3 :=
  match normals target with
  | Some pnormals =>
      let ret :=
        triangle_interpolation pos
          (soa_corner soa 0 ti) (soa_corner soa 1 ti) (soa_corner soa 2 ti)
          (pnormals !!! (indices target !!! (ti * 3 + 0)%nat))
          (pnormals !!! (indices target !!! (ti * 3 + 1)%nat))
          (pnormals !!! (indices target !!! (ti * 3 + 2)%nat)) in
      normalize (mu.mul_v to_local ret)
  | None => mu.zero3
  end.

Definition gen_tangent (target : npMeshData) (to_local : float4x4)
    (soa : list (list Q)) (pos : float3) (ti : nat) : float4 :=
  match tangents target with
  | Some ptangents =>
      let ret :=
        triangle_interpolation4 pos
          (soa_corner soa 0 ti) (soa_corner soa 1 ti) (soa_corner soa 2 ti)
          (ptangents !!! (indices target !!! (ti * 3 + 0)%nat))
          (ptangents !!! (indices target !!! (ti * 3 + 1)%nat))
          (ptangents !!! (indices target !!! (ti * 3 + 2)%nat)) in
      mu.set_xyz ret (normalize (mu.mul_v to_local (mu.xyz ret)))
  | None => mu.zero4
  end.

(** What a successful cast leaves in [min_distance], [rvertex], [rnormal]
    and [rtangents]. *)
Record projection_hit := mkprojection_hit {
  min_distance : Q;
  rvertex : float3;
  rnormal : float3;
  rtangents : float4
}.

Definition uses_forward (mode : npProjectVerticesMode) : bool :=
  match mode with Forward | ForwardAndBackward => true | Backward => false end.
Definition uses_backward (mode : npProjectVerticesMode) : bool :=
  match mode with Backward | ForwardAndBackward => true | Forward => false end.

(** One cast from [rpos] along [dir], accepted when it hits closer than
    [max_distance] and, if [hit] is already set, closer than it. *)
Definition project_cast (target : npMeshData) (to_local : float4x4)
    (soa : list (list Q)) (max_distance : Q) (rpos dir : float3)
    (hit : option projection_hit) : option projection_hit :=
  let '(num_hit, ti, distance) :=
    RayTrianglesIntersectionSoA rpos dir soa (num_triangles target) in
  if (0 <? num_hit)%Z && fltb distance max_distance &&
     match hit with None => true | Some h => fltb distance (min_distance h) end
  then
    let at_hit := (rpos + dir * distance)%v3 in
    Some (mkprojection_hit distance at_hit
            (gen_normal target to_local soa at_hit ti)
            (gen_tangent target to_local soa at_hit ti))
  else hit.

(** The two casts of one vertex: [None] when no direction is accepted. *)
Definition project_find (target : npMeshData) (to_local : float4x4)
    (soa : list (list Q)) (mode : npProjectVerticesMode) (max_distance : Q)
    (rpos rdir : float3) : option projection_hit :=
  let hit := None in
  let hit := if uses_forward mode
             then project_cast target to_local soa max_distance rpos rdir hit
             else hit in
  let hit := if uses_backward mode
             then project_cast target to_local soa max_distance rpos (- rdir)%v3 hit
             else hit in
  hit.

Definition pnt_bit (PNT : Z) (bit : Z) : bool := negb (Z.land PNT bit =? 0)%Z.

(** The writes of one vertex once a hit is known. *)
Definition project_write (model : npMeshData) (vi : nat) (s : Q) (PNT : Z)
    (h : projection_hit) : npMeshData :=
  let model :=
    if pnt_bit PNT 1
    then set_vertices model
           (<[vi := mu.lerp (vertices model !!! vi) (rvertex h) s]> (vertices model))
    else model in
  let model :=
    match normals model with
    | Some nrm =>
        if pnt_bit PNT 2
        then set_normals model
               (Some (<[vi := normalize (mu.lerp (nrm !!! vi) (rnormal h) s)]> nrm))
        else model
    | None => model
    end in
  match tangents model with
  | Some tng =>
      if pnt_bit PNT 4
      then set_tangents model
             (Some (<[vi := mu.set_xyz (tng !!! vi)
                              (normalize (mu.lerp (mu.xyz (tng !!! vi))
                                                  (mu.xyz (rtangents h)) s))]> tng))
      else model
  | None => model
  end.

(** The body of the [parallel_for] of [npProjectVerticesImpl]. *)
Definition project_vertex (target : npMeshData) (to_local : float4x4)
    (soa : list (list Q)) (ray_dirs : RayDirs) (mode : npProjectVerticesMode)
    (max_distance : Q) (PNT : Z) (mask : bool) (model : npMeshData) (vi : nat)
  : npMeshData :=
  let s := mask_weight model mask vi in
  if feqb s 0 then model
  else
    let rpos := vertices model !!! vi in
    let rdir := ray_dirs model vi in
    match project_find target to_local soa mode max_distance rpos rdir with
    | Some h => project_write model vi s PNT h
    | None => model
    end.

Definition npProjectVerticesImpl (model target : npMeshData) (ray_dirs : RayDirs)
    (mode : npProjectVerticesMode) (max_distance : Q) (PNT : Z) (mask : bool)
  : npMeshData :=
  let to_local := mu.mul44 (transform target) (inv.invert (transform model)) in
  let soa := soa_build target to_local in
  fold_left (project_vertex target to_local soa ray_dirs mode max_distance PNT mask)
            (seq 0 (num_vertices model)) model.

Definition npProjectVertices (model target : npMeshData) (ray_dirs : list float3)
    (mode : npProjectVerticesMode) (max_distance : Q) (PNT : Z) (mask : bool)
  : npMeshData :=
  npProjectVerticesImpl model target (fun _ vi => ray_dirs !!! vi)
                        mode max_distance PNT mask.

(** The ray direction of [npProjectVerticesRadial]: from the centre
    through the vertex, turned to the side of the vertex normal. *)
Definition radial_dir (center : float3) : RayDirs := fun model vi =>
  let ray_dir := normalize (vertices model !!! vi - center)%v3 in
  let n := normals_of model !!! vi in
  if fgtb (mu.dot ray_dir n) 0 then ray_dir else (- ray_dir)%v3.

Definition npProjectVerticesRadial (model target : npMeshData) (center : float3)
    (mode : npProjectVerticesMode) (max_distance : Q) (PNT : Z) (mask : bool)
  : npMeshData :=
  let to_local := inv.invert (transform model) in
  npProjectVerticesImpl model target (radial_dir (mu.mul_p to_local center))
                        mode max_distance PNT mask.

(** The ray direction of [npProjectVerticesDirectional]. *)
Definition directional_dir (ray_dir : float3) : RayDirs := fun model vi =>
  let n := normals_of model !!! vi in
  if fgtb (mu.dot ray_dir n) 0 then ray_dir else (- ray_dir)%v3.

Definition npProjectVerticesDirectional (model target : npMeshData)
    (ray_dir : float3) (mode : npProjectVerticesMode) (max_distance : Q)
    (PNT : Z) (mask : bool) : npMeshData :=
  let to_local := inv.invert (transform model) in
  npProjectVerticesImpl model target
                        (directional_dir (normalize (mu.mul_v to_local ray_dir)))
                        mode max_distance PNT mask.

(** ** Skinning *)

(** The blend of one vertex over its [NumInfluence] influences. *)
Definition skin_point (NumInfluence : nat) (poses : list float4x4) (w : Weights)
    (p : float3) : float3 :=
  fold_left (fun rp bi =>
               (rp + mu.mul_p (poses !!! (bone_indices w !!! bi)) p
                     * (weights w !!! bi))%v3)
            (seq 0 NumInfluence) mu.zero3.

Definition skin_normal (NumInfluence : nat) (poses : list float4x4) (w : Weights)
    (n : float3) : float3 :=
  normalize
    (fold_left (fun rn bi =>
                  (rn + mu.mul_v (poses !!! (bone_indices w !!! bi)) n
                        * (weights w !!! bi))%v3)
               (seq 0 NumInfluence) mu.zero3).

Definition skin_tangent (NumInfluence : nat) (poses : list float4x4) (w : Weights)
    (t : float4) : float4 :=
  fold_left (fun rt bi =>
               mu.add4 rt (mu.scale4 (mu.mul_v4 (poses !!! (bone_indices w !!! bi)) t)
                                     (weights w !!! bi)))
            (seq 0 NumInfluence) mu.zero4.

(** One of the three streams of [SkinningImpl]: nothing is written when
    the input or the output buffer is null. *)
Definition skin_stream {A : Type} `{Inhabited A} (num_vertices : nat)
    (wts : list Weights) (blend : Weights -> A -> A)
    (input output : option (list A)) : option (list A) :=
  match input, output with
  | Some ibuf, Some obuf =>
      Some (fold_left (fun obuf vi => <[vi := blend (wts !!! vi) (ibuf !!! vi)]> obuf)
                      (seq 0 num_vertices) obuf)
  | _, _ => output
  end.

Definition SkinningImpl (NumInfluence num_vertices : nat) (poses : list float4x4)
    (wts : list Weights)
    (ipoints inormals : option (list float3)) (itangents : option (list float4))
    (opoints onormals : option (list float3)) (otangents : option (list float4))
  : option (list float3) * option (list float3) * option (list float4) :=
  (skin_stream num_vertices wts (skin_point NumInfluence poses) ipoints opoints,
   skin_stream num_vertices wts (skin_normal NumInfluence poses) inormals onormals,
   skin_stream num_vertices wts (skin_tangent NumInfluence poses) itangents otangents).

(** [poses[bi] = bindposes[bi] * bones[bi] * iroot]. *)
Definition skin_pose (skin : npSkinData) (bi : nat) : float4x4 :=
  mu.mul44 (mu.mul44 (bindposes skin !!! bi) (bones skin !!! bi))
           (inv.invert (root skin)).

Definition npApplySkinning (skin : npSkinData)
    (ipoints inormals : option (list float3)) (itangents : option (list float4))
    (opoints onormals : option (list float3)) (otangents : option (list float4)) :=
  let poses := map (skin_pose skin) (seq 0 (num_bones skin)) in
  SkinningImpl 4 (skin_num_vertices skin) poses (skin_weights skin)
               ipoints inormals itangents opoints onormals otangents.

Definition npApplyReverseSkinning (skin : npSkinData)
    (ipoints inormals : option (list float3)) (itangents : option (list float4))
    (opoints onormals : option (list float3)) (otangents : option (list float4)) :=
  let poses := map (fun bi => inv.invert (skin_pose skin bi))
                   (seq 0 (num_bones skin)) in
  SkinningImpl 4 (skin_num_vertices skin) poses (skin_weights skin)
               ipoints inormals itangents opoints onormals otangents.

End Core.

(** ** Vocabulary of the falloff *)

(** What the theorems on the falloff ask of the rounding: it keeps the
    order of the numbers it rounds, and it leaves alone the integers up
    to [2^24], which a [float] holds exactly.  Rounding to nearest has
    both properties. *)
Definition rounds_to_float (fl : Q -> Q) : Prop :=
  (forall x y : Q, x <= y -> fl x <= fl y)%Q /\
  (forall k : Z, (Z.abs k <= 2 ^ 24)%Z -> (fl (inject_Z k) == inject_Z k)%Q).

(** ** The selection entry points as one type

    A call of one of the eight entry points that write selection weights,
    with its arguments, and its effect on a mesh. *)
Inductive selection_call :=
| CallSelectSingle (mvp : float4x4) (rmin rmax : float2) (campos : float3)
                   (strength : Q) (frontface_only : bool)
| CallSelectTriangle (pos dir : float3) (strength : Q)
| CallSelectEdge (strength : Q) (clear mask : bool)
| CallSelectHole (strength : Q) (clear mask : bool)
| CallSelectConnected (strength : Q) (clear : bool)
| CallSelectRect (mvp : float4x4) (rmin rmax : float2) (campos : float3)
                 (strength : Q) (frontface_only : bool)
| CallSelectLasso (mvp : float4x4) (lasso : list float2) (num_lasso_points : Z)
                  (campos : float3) (strength : Q) (frontface_only : bool)
| CallSelectBrush (pos : float3) (radius strength : Q) (num_bsamples : Z)
                  (bsamples : list Q).

Definition run_selection_call {E : muExternals} (c : selection_call)
    (model : npMeshData) : npMeshData * Z :=
  match c with
  | CallSelectSingle mvp rmin rmax campos strength ff =>
      npSelectSingle model mvp rmin rmax campos strength ff
  | CallSelectTriangle pos dir strength => npSelectTriangle model pos dir strength
  | CallSelectEdge strength clear mask => npSelectEdge model strength clear mask
  | CallSelectHole strength clear mask => npSelectHole model strength clear mask
  | CallSelectConnected strength clear => npSelectConnected model strength clear
  | CallSelectRect mvp rmin rmax campos strength ff =>
      npSelectRect model mvp rmin rmax campos strength ff
  | CallSelectLasso mvp lasso n campos strength ff =>
      npSelectLasso model mvp lasso n campos strength ff
  | CallSelectBrush pos radius strength num_bsamples bsamples =>
      npSelectBrush model pos radius strength num_bsamples bsamples
  end.

(** Whether the call zeroes the weights before it writes. *)
Definition clears_first (c : selection_call) : bool :=
  match c with
  | CallSelectEdge _ clear _ | CallSelectHole _ clear _
  | CallSelectConnected _ clear => clear
  | _ => false
  end.

(** The weights a call starts writing from. *)
Definition initial_weights (c : selection_call) (model : npMeshData) : list Q :=
  if clears_first c then clear_selection (selection model) (num_vertices model)
  else selection model.

(** The weight a call adds at a vertex it writes: [strength], scaled by
    the sample of the falloff curve in the case of the brush. *)
Definition contribution {E : muExternals} (c : selection_call) (delta : Q)
  : Prop :=
  match c with
  | CallSelectBrush _ radius strength num_bsamples bsamples =>
      exists d, delta = (GetBrushSample d radius bsamples num_bsamples * strength)%Q
  | CallSelectSingle _ _ _ _ strength _ | CallSelectTriangle _ _ strength
  | CallSelectEdge strength _ _ | CallSelectHole strength _ _
  | CallSelectConnected strength _ | CallSelectRect _ _ _ _ strength _
  | CallSelectLasso _ _ _ _ strength _ => delta = strength
  end.

(** [clamp_writes P sel sel']: [sel'] is reached from [sel] by writes of
    the form [selection[vi] = clamp01(selection[vi] + delta)] alone, every
    [delta] satisfying [P]. *)
Inductive clamp_writes (P : Q -> Prop) : list Q -> list Q -> Prop :=
| clamp_writes_none sel : clamp_writes P sel sel
| clamp_writes_more sel sel' vi delta :
    P delta -> clamp_writes P sel sel' ->
    clamp_writes P sel (add_selection sel' vi delta).

(** Every weight lies in [[0, 1]]. *)
Definition weights_in_range (sel : list Q) : Prop :=
  Forall (fun w => 0 <= w <= 1)%Q sel.

(** ** Vocabulary of the furthest-point query *)

(** Vertex [vi] takes part in the query: the mask is off or its weight is
    positive. *)
Definition passes_mask (model : npMeshData) (mask : bool) (vi : nat) : Prop :=
  mask = false \/ (0 < selection model !!! vi)%Q.

(** The squared distance the query compares: from the vertex to the point
    brought into the space of the mesh. *)
Definition local_dsq (model : npMeshData) (pos : float3) (vi : nat) : Q :=
  mu.length_sq (vertices model !!! vi
                - mu.mul_p (inv.invert (transform model)) pos)%v3.

(** The distance the query reports: from the vertex brought into world
    space to the point. *)
Definition world_distance {E : muExternals} (model : npMeshData) (pos : float3)
    (vi : nat) : Q :=
  length3 (mu.mul_p (transform model) (vertices model !!! vi) - pos)%v3.

(** ** Vocabulary of the weld *)

(** The running normal of a group: the normal [n0] of the seed, to which
    smoothing adds the normals of the members gathered so far. *)
Definition group_normal (smoothing : bool) (nrm : list float3) (n0 : float3)
    (members : list nat) : float3 :=
  if smoothing then fold_left (fun n i => (n + nrm !!! i)%v3) members n0
  else n0.

(** The members of a group gathered before the inner loop reaches [i]. *)
Definition members_before (i : nat) (members : list nat) : list nat :=
  List.filter (fun s => (s <? i)%nat) members.

(** ** Vocabulary of the mirroring relation *)

(** Vertex [i] is a mirror partner of vertex [vi]: it lies on the positive
    side of the plane, its mirror image is closer than [epsilon] to [vi],
    and its mirrored normal agrees with the normal of [vi]. *)
Definition is_mirror_partner {E : muExternals} (model : npMeshData)
    (mirror_plane : float3) (epsilon : Q) (vi i : nat) : Prop :=
  (0 < mu.plane_distance (vertices model !!! i) mirror_plane /\
   length3 (vertices model !!! vi
            - mu.plane_mirror (vertices model !!! i) mirror_plane)%v3 < epsilon /\
   99 # 100 <= mu.dot (normals_of model !!! vi)
                      (mu.plane_mirror (normals_of model !!! i) mirror_plane))%Q.

(** ** Vocabulary of the nearest-vertex pick *)

Section PickVocabulary.
Context {E : muExternals}.





End PickVocabulary.

(** ** Vocabulary of the projection *)

(** The normal and the tangent of vertex [vi], when the buffer exists and
    holds the slot. *)
Definition normal_at (m : npMeshData) (vi : nat) : option float3 :=
  match normals m with Some nrm => nrm !! vi | None => None end.
Definition tangent_at (m : npMeshData) (vi : nat) : option float4 :=
  match tangents m with Some tng => tng !! vi | None => None end.

(** The mesh as the loop of [npProjectVerticesImpl] finds it when it
    reaches vertex [k]. *)
Definition project_reach {E : muExternals} (model target : npMeshData)
    (ray_dirs : RayDirs) (mode : npProjectVerticesMode) (max_distance : Q)
    (PNT : Z) (mask : bool) (k : nat) : npMeshData :=
  let to_local := mu.mul44 (transform target) (inv.invert (transform model)) in
  let soa := soa_build target to_local in
  fold_left (project_vertex target to_local soa ray_dirs mode max_distance PNT mask)
            (seq 0 k) model.

(** A cast hits the target closer than [max_distance]. *)
Definition hits_within (max_distance : Q) (r : Z * nat * Q) : Prop :=
  (0 < fst (fst r))%Z /\ (snd r < max_distance)%Q.

(** ** Vocabulary of skinning *)

(** The sum of the four weights of a vertex. *)
Definition weight_sum (w : Weights) : Q :=
  (weights w !!! 0%nat + weights w !!! 1%nat + weights w !!! 2%nat
   + weights w !!! 3%nat)%Q.

(** A matrix that maps points to points: its last column is that of the
    identity. *)
Definition affine (m : float4x4) : Prop :=
  (w4 (m0 m) == 0 /\ w4 (m1 m) == 0 /\ w4 (m2 m) == 0 /\ w4 (m3 m) == 1)%Q.

(** The positions [npApplySkinning] and [npApplyReverseSkinning] write
    into [opoints], the other streams being switched off. *)
Definition skinned_points {E : muExternals} (skin : npSkinData)
    (ipoints opoints : list float3) : option (list float3) :=
  fst (fst (npApplySkinning skin (Some ipoints) None None (Some opoints) None None)).
Definition unskinned_points {E : muExternals} (skin : npSkinData)
    (ipoints opoints : list float3) : option (list float3) :=
  fst (fst (npApplyReverseSkinning skin (Some ipoints) None None (Some opoints)
                                   None None)).

(** ** A concrete library for examples

    The theorems below hold for every [muExternals].  To evaluate the
    entry points on concrete meshes a small library is fixed here:
    [sqrtf] rounds the square root down to a multiple of [2^-40] over the
    denominator (it is exact on squares of rationals), the arc cosine is
    the chord through [acos 1 = 0], [acos 0 = pi/2] and [acos (-1) = pi]
    with [pi = 355/113], rays are intersected triangle by triangle, and
    the topology routines work on the undirected edges of the index
    buffer. *)
Module Ref.
Local Open Scope Q_scope.

Definition sqrtf (q : Q) : Q :=
  if fleb q 0 then 0
  else
    let s := (2 ^ 40)%Z in
    Qred (Z.sqrt (Qnum q * Z.pos (Qden q) * (s * s)) # Pos.mul (Qden q) (Z.to_pos s)).

Definition pi : Q := 355 # 113.
Definition Rad2Deg : Q := 180 / pi.
Definition acosf (v : Q) : Q := Qred ((pi / 2) * (1 - mu.clamp v (-1) 1)).
Definition angle_between (a b : float3) : Q := acosf (mu.dot a b).

Definition to_axis_angle (q : quatf) : float3 * option Q :=
  let s := sqrtf (1 - qw q * qw q) in
  (mkfloat3 (qx q / s) (qy q / s) (qz q / s),
   if fltb 1 (mu.abs (qw q)) then None else Some (2 * acosf (qw q))).

Definition quat_invert (q : quatf) : quatf :=
  mkquatf (- qx q) (- qy q) (- qz q) (qw q).

Definition to_mat4x4 (q : quatf) : float4x4 :=
  let '(x, y, z, w) := (qx q, qy q, qz q, qw q) in
  mkfloat4x4
    (mkfloat4 (1 - 2 * y * y - 2 * z * z) (2 * x * y + 2 * z * w) (2 * x * z - 2 * y * w) 0)
    (mkfloat4 (2 * x * y - 2 * z * w) (1 - 2 * x * x - 2 * z * z) (2 * y * z + 2 * x * w) 0)
    (mkfloat4 (2 * x * z + 2 * y * w) (2 * y * z - 2 * x * w) (1 - 2 * x * x - 2 * y * y) 0)
    (mkfloat4 0 0 0 1).

Definition translate (t : float3) : float4x4 :=
  mkfloat4x4 (mkfloat4 1 0 0 0) (mkfloat4 0 1 0 0) (mkfloat4 0 0 1 0)
             (mkfloat4 (x3 t) (y3 t) (z3 t) 1).

Definition cross (a b : float3) : float3 :=
  mkfloat3 (y3 a * z3 b - z3 a * y3 b) (z3 a * x3 b - x3 a * z3 b)
           (x3 a * y3 b - y3 a * x3 b).

(** The distance along the ray to one triangle, when it is hit in front
    of the origin. *)
Definition ray_triangle (pos dir p1 p2 p3 : float3) : option Q :=
  let e1 := mu.sub3 p2 p1 in
  let e2 := mu.sub3 p3 p1 in
  let pvec := cross dir e2 in
  let det := mu.dot e1 pvec in
  if feqb det 0 then None
  else
    let tvec := mu.sub3 pos p1 in
    let u := mu.dot tvec pvec / det in
    let qvec := cross tvec e1 in
    let v := mu.dot dir qvec / det in
    let t := mu.dot e2 qvec / det in
    if fleb 0 u && fleb 0 v && fleb (u + v) 1 && fltb 0 t then Some (Qred t)
    else None.

(** Nearest hit over [num_triangles] triangles given by [corners]. *)
Definition nearest_hit (pos dir : float3) (corners : nat -> float3 * float3 * float3)
    (num_triangles : nat) : Z * nat * Q :=
  fold_left
    (fun '(hits, ti, d) i =>
       let '(p1, p2, p3) := corners i in
       match ray_triangle pos dir p1 p2 p3 with
       | Some t =>
           if (hits =? 0)%Z || fltb t d then ((hits + 1)%Z, i, t)
           else ((hits + 1)%Z, ti, d)
       | None => (hits, ti, d)
       end)
    (seq 0 num_triangles) (0%Z, 0%nat, 0).

Definition RayTrianglesIntersectionIndexed (pos dir : float3)
    (vtx : list float3) (idx : list nat) (num_triangles : nat) : Z * nat * Q :=
  nearest_hit pos dir
    (fun i => (vtx !!! (idx !!! (i * 3)%nat), vtx !!! (idx !!! (i * 3 + 1)%nat),
               vtx !!! (idx !!! (i * 3 + 2)%nat)))
    num_triangles.

Definition RayTrianglesIntersectionSoA (pos dir : float3) (soa : list (list Q))
    (num_triangles : nat) : Z * nat * Q :=
  nearest_hit pos dir
    (fun i => (soa_corner soa 0 i, soa_corner soa 1 i, soa_corner soa 2 i))
    num_triangles.

(** Barycentric weights from the areas of the three sub-triangles. *)
Definition bary (pos p1 p2 p3 : float3) : Q * Q * Q :=
  let len v := sqrtf (mu.length_sq v) in
  let a := len (cross (mu.sub3 p1 p2) (mu.sub3 p1 p3)) in
  let f1 := mu.sub3 p1 pos in
  let f2 := mu.sub3 p2 pos in
  let f3 := mu.sub3 p3 pos in
  (len (cross f2 f3) / a, len (cross f3 f1) / a, len (cross f1 f2) / a).

Definition triangle_interpolation (pos p1 p2 p3 v1 v2 v3 : float3) : float3 :=
  let '(a1, a2, a3) := bary pos p1 p2 p3 in
  mu.add3 (mu.add3 (mu.scale3 v1 a1) (mu.scale3 v2 a2)) (mu.scale3 v3 a3).

Definition triangle_interpolation4 (pos p1 p2 p3 : float3) (v1 v2 v3 : float4)
  : float4 :=
  let '(a1, a2, a3) := bary pos p1 p2 p3 in
  mu.add4 (mu.add4 (mu.scale4 v1 a1) (mu.scale4 v2 a2)) (mu.scale4 v3 a3).

Definition MinMax (pts : list float2) (n : nat) : float2 * float2 :=
  match take n pts with
  | [] => (mu.zero2, mu.zero2)
  | p :: rest =>
      fold_left (fun '(lo, hi) q =>
                   (mkfloat2 (mu.fmin (x2 lo) (x2 q)) (mu.fmin (y2 lo) (y2 q)),
                    mkfloat2 (mu.fmax (x2 hi) (x2 q)) (mu.fmax (y2 hi) (y2 q))))
                rest (p, p)
  end.

(** Even-odd inclusion in the polygon, after the bounding-box test. *)
Definition PolyInside (px py : list Q) (n : nat) (minp maxp pos : float2) : bool :=
  if fltb (x2 pos) (x2 minp) || fltb (x2 maxp) (x2 pos)
     || fltb (y2 pos) (y2 minp) || fltb (y2 maxp) (y2 pos)
  then false
  else
    fold_left
      (fun c i =>
         let j := (if (i =? 0)%nat then n - 1 else i - 1)%nat in
         let '(xi, yi, xj, yj) := (px !!! i, py !!! i, px !!! j, py !!! j) in
         if negb (Bool.eqb (fltb (y2 pos) yi) (fltb (y2 pos) yj))
            && fltb (x2 pos) ((xj - xi) * (y2 pos - yi) / (yj - yi) + xi)
         then negb c else c)
      (seq 0 n) false.

(** The undirected edges of the triangles of an index buffer. *)
Definition edges (idx : list nat) : list (nat * nat) :=
  flat_map (fun t =>
              let '(a, b, c) := (idx !!! (t * 3), idx !!! (t * 3 + 1),
                                 idx !!! (t * 3 + 2))%nat in
              [(a, b); (b, c); (c, a)])
           (seq 0 (length idx / 3)).

Definition same_edge (e f : nat * nat) : bool :=
  ((fst e =? fst f) && (snd e =? snd f) || (fst e =? snd f) && (snd e =? fst f))%nat.

Definition boundary_edges (idx : list nat) : list (nat * nat) :=
  let es := edges idx in
  filter (fun e => (length (filter (fun f => same_edge e f = true) es) =? 1)%nat = true) es.

Definition on_edge (es : list (nat * nat)) (v : nat) : bool :=
  existsb (fun e => (fst e =? v) || (snd e =? v))%nat es.

Definition SelectEdge (idx : list nat) (vtx : list float3) (targets : list nat)
  : list nat :=
  filter (fun v => on_edge (boundary_edges idx) v = true) targets.

(** The reference library reports every boundary vertex as bounding a
    hole. *)
Definition SelectHole := SelectEdge.

(** Flood fill from [targets] along the edges, one ring per round. *)
Definition grow (es : list (nat * nat)) (n : nat) (reached : list nat) : list nat :=
  filter (fun v => existsb (Nat.eqb v) reached
                   || existsb (fun e => ((fst e =? v) && existsb (Nat.eqb (snd e)) reached)
                                        || ((snd e =? v) && existsb (Nat.eqb (fst e)) reached))%nat
                              es = true)
         (seq 0 n).

Definition SelectConnected (idx : list nat) (vtx : list float3) (targets : list nat)
  : list nat :=
  let n := length vtx in
  Nat.iter n (grow (edges idx) n) targets.

(** The concrete library computes exactly and runs a [parallel_for] in
    index order: the samples are made of dyadic numbers, which the float
    operations of the examples do not round. *)
Definition fround (q : Q) : Q := q.
Definition schedule (n : nat) : list nat := seq 0 n.

Definition externals : muExternals :=
  Build_muExternals sqrtf (1 # 10000) Rad2Deg angle_between to_axis_angle
    quat_invert to_mat4x4 translate
    RayTrianglesIntersectionIndexed RayTrianglesIntersectionSoA
    triangle_interpolation triangle_interpolation4 MinMax PolyInside
    SelectEdge SelectHole SelectConnected fround schedule.
End Ref.

(** ** Sample meshes *)
Module Sample.
Local Open Scope Q_scope.

Definition scale44 (sx sy sz : Q) : float4x4 :=
  mkfloat4x4 (mkfloat4 sx 0 0 0) (mkfloat4 0 sy 0 0) (mkfloat4 0 0 sz 0)
             (mkfloat4 0 0 0 1).

(** A quad of two triangles in the plane [z = 1], facing the origin. *)
Definition quad : npMeshData :=
  mknpMeshData [0; 1; 2; 0; 2; 3]%nat
    [mkfloat3 (-(1#2)) (-(1#2)) 1; mkfloat3 (1#2) (-(1#2)) 1;
     mkfloat3 (1#2) (1#2) 1; mkfloat3 (-(1#2)) (1#2) 1]
    (Some [mkfloat3 0 0 (-1); mkfloat3 0 0 (-1); mkfloat3 0 0 (-1); mkfloat3 0 0 (-1)])
    None None [0; 1#2; 1; 1#4] 4 2 mu.identity44.

(** Two vertices under a transform that stretches the [y] axis by 8. *)
Definition stretched : npMeshData :=
  mknpMeshData [] [mkfloat3 2 0 0; mkfloat3 0 1 0]
    (Some [mkfloat3 1 0 0; mkfloat3 0 1 0]) None None [1; 1] 2 0
    (scale44 1 8 1).


(** Three vertices on a line, [2^-24] apart; [npEpsilon] lies between
    [2^-24] and [2^-23].  The first has its own normal, the other two
    share one. *)
Definition weld_chain : npMeshData :=
  mknpMeshData []
    [mkfloat3 0 0 0; mkfloat3 (1 # 2^24) 0 0; mkfloat3 (1 # 2^23) 0 0]
    (Some [mkfloat3 0 1 0; mkfloat3 0 0 1; mkfloat3 0 0 1]) None None
    [1; 1; 1] 3 0 mu.identity44.

(** A vertex with a neighbour [2^-24] away on either side; the three
    normals are pairwise orthogonal. *)
Definition weld_star : npMeshData :=
  mknpMeshData []
    [mkfloat3 0 0 0; mkfloat3 (1 # 2^24) 0 0; mkfloat3 (- (1 # 2^24)) 0 0]
    (Some [mkfloat3 0 0 1; mkfloat3 0 1 0; mkfloat3 1 0 0]) None None
    [1; 1; 1] 3 0 mu.identity44.

(** Two vertices mirrored in the plane [x = 0], [2^-30] away from it. *)
Definition near_plane : npMeshData :=
  mknpMeshData []
    [mkfloat3 (- (1 # 2^30)) 0 0; mkfloat3 (1 # 2^30) 0 0]
    (Some [mkfloat3 0 1 0; mkfloat3 0 1 0]) None None [1; 1] 2 0 mu.identity44.

(** A large triangle in the plane [z = 2], facing the origin. *)
Definition wall : npMeshData :=
  mknpMeshData [0; 1; 2]%nat
    [mkfloat3 (-4) (-4) 2; mkfloat3 4 (-4) 2; mkfloat3 0 4 2]
    (Some [mkfloat3 0 0 (-1); mkfloat3 0 0 (-1); mkfloat3 0 0 (-1)])
    None None [0; 0; 0] 3 1 mu.identity44.

(** A single vertex at the origin. *)
Definition point : npMeshData :=
  mknpMeshData [] [mkfloat3 0 0 0] (Some [mkfloat3 0 0 1]) None None [1] 1 0
               mu.identity44.

(** One vertex bound to one bone with half its weight; every transform
    is the identity. *)
Definition half_bound : npSkinData :=
  mknpSkinData [mkWeights [1#2; 0; 0; 0] [0; 0; 0; 0]%nat]
               [mu.identity44] [mu.identity44] 1 1 mu.identity44.

(** One vertex bound in equal parts to a bone that doubles and a bone
    that halves. *)
Definition two_bones : npSkinData :=
  mknpSkinData [mkWeights [1#2; 1#2; 0; 0] [0; 1; 0; 0]%nat]
               [scale44 2 2 2; scale44 (1#2) (1#2) (1#2)]
               [mu.identity44; mu.identity44] 1 2 mu.identity44.

(** One vertex bound to one bone that doubles and shifts. *)
Definition one_bone : npSkinData :=
  mknpSkinData [mkWeights [1; 0; 0; 0] [0; 0; 0; 0]%nat]
               [mkfloat4x4 (mkfloat4 2 0 0 0) (mkfloat4 0 2 0 0)
                           (mkfloat4 0 0 2 0) (mkfloat4 1 0 0 1)]
               [mu.identity44] 1 1 mu.identity44.
End Sample.

(** * The other entry points

    The entry points that edit positions, normals and the selection
    summary, the application of a mirroring relation and the terrain
    generator.  Left out: [npSmooth], whose parallel loop reads the
    normals of other vertices while it writes them, so that its outcome
    depends on the schedule; [npWeld2]; [npRaycast], [npPickNormal],
    [npGenerateNormals] and [npGenerateTangents], which hand their
    arguments to one library routine; and the pen input. *)

(** Modelled from the spec: [scale44] of the math library ([muMath.h] is
    not under src), the matrix that scales each axis. *)
Definition scale44 (v : float3) : float4x4 :=
  mkfloat4x4 (mkfloat4 (x3 v) 0 0 0) (mkfloat4 0 (y3 v) 0 0)
             (mkfloat4 0 0 (z3 v) 0) (mkfloat4 0 0 0 1).

Section Mutation.
Context {E : muExternals}.
Local Open Scope Q_scope.

(** ** [npUpdateSelection]

    The loop accumulates the total weight [st], the count, the weighted
    position and the weighted normal.  The source also computes a rotation
    [srot] from the normal and never returns it; it is left out. *)
Definition update_selection_step (model : npMeshData)
    (acc : Q * Z * float3 * float3) (vi : nat) : Q * Z * float3 * float3 :=
  let '(st, num_selected, spos, snormal) := acc in
  let s := selection model !!! vi in
  if fgtb s 0 then
    (st + s, (num_selected + 1)%Z, (spos + vertices model !!! vi * s)%v3,
     (snormal + normals_of model !!! vi * s)%v3)
  else acc.

Definition npUpdateSelection (model : npMeshData) : float3 * float3 * Z :=
  let '(st, num_selected, spos, snormal) :=
    fold_left (update_selection_step model) (seq 0 (num_vertices model))
              (0, 0%Z, mu.zero3, mu.zero3) in
  if (0 <? num_selected)%Z then
    let trans := transform model in
    let spos := (spos / st)%v3 in
    let spos := mu.mul_p trans spos in
    let snormal := normalize (mu.mul_v trans snormal) in
    (spos, snormal, num_selected)
  else (spos, snormal, num_selected).

(** ** Assign, move and scale

    The loop of the four vertex edits: a vertex of weight zero is skipped,
    another one is rewritten from its weight and its position. *)
Definition edit_vertices (model : npMeshData) (mask : bool)
    (f : Q -> float3 -> float3) : npMeshData :=
  let step vtx vi :=
    let s := mask_weight model mask vi in
    if feqb s 0 then vtx else <[vi := f s (vtx !!! vi)]> vtx in
  set_vertices model (fold_left step (seq 0 (num_vertices model)) (vertices model)).

(** [v2]: [v1] with the coordinates chosen by the bits of [xyz] taken from
    [value]. *)
Definition assign_axes (value v1 : float3) (xyz : Z) : float3 :=
  mkfloat3 (if pnt_bit xyz 1 then x3 value else x3 v1)
           (if pnt_bit xyz 2 then y3 value else y3 v1)
           (if pnt_bit xyz 4 then z3 value else z3 v1).

Definition npAssignVertices (model : npMeshData) (value : float3)
    (trans : float4x4) (xyz : Z) (mask : bool) : npMeshData :=
  let itrans := inv.invert trans in
  edit_vertices model mask
    (fun s v =>
       let v1 := mu.mul_p trans v in
       let v2 := assign_axes value v1 xyz in
       mu.mul_p itrans (mu.lerp v1 v2 s)).

Definition npMoveVertices (model : npMeshData) (value : float3) (mask : bool)
  : npMeshData :=
  let value := mu.mul_v (inv.invert (transform model)) value in
  edit_vertices model mask (fun s v => (v + value * s)%v3).

Definition npScaleVertices (model : npMeshData) (value pivot_pos : float3)
    (pivot_rot : quatf) (mask : bool) : npMeshData :=
  let ptrans := mu.mul44 (to_mat4x4 (quat_invert pivot_rot)) (translate pivot_pos) in
  let iptrans := inv.invert ptrans in
  let trans := transform model in
  let itrans := inv.invert trans in
  let to_pivot_space := mu.mul44 trans iptrans in
  let to_local_space := mu.mul44 ptrans itrans in
  let scale := mu.mul44 (mu.mul44 to_pivot_space (scale44 value)) to_local_space in
  edit_vertices model mask (fun s v => mu.lerp v (mu.mul_p scale v) s).

(** ** Brush edits of the normals *)

(** The mesh with its normal buffer, when there is one, replaced. *)
Definition with_normals (model : npMeshData) (nrm : list float3) : npMeshData :=
  set_normals model (option_map (fun _ => nrm) (normals model)).

(** [strength < 0.0f ? -1.0f : 1.0f]. *)
Definition strength_sign (strength : Q) : Q := if fltb strength 0 then -1 else 1.

(** The strength of a brush at distance [d], scaled by the weight of the
    vertex under [mask]. *)
Definition brush_strength (model : npMeshData) (radius strength : Q)
    (num_bsamples : Z) (bsamples : list Q) (mask : bool) (vi : nat) (d : Q) : Q :=
  let s := GetBrushSample d radius bsamples num_bsamples * mu.abs strength in
  if mask then s * selection model !!! vi else s.

Definition npBrushReplace (model : npMeshData) (pos : float3)
    (radius strength : Q) (num_bsamples : Z) (bsamples : list Q)
    (value : float3) (mask : bool) : npMeshData * Z :=
  let sign := strength_sign strength in
  let body vi d (p : float3) nrm :=
    let s := brush_strength model radius strength num_bsamples bsamples mask vi d in
    <[vi := normalize (nrm !!! vi + value * (s * sign))%v3]> nrm in
  let '(nrm, ret) := SelectInside model pos radius body true (normals_of model) in
  (with_normals model nrm, ret).

Definition npBrushLerp (model : npMeshData) (pos : float3)
    (radius strength : Q) (num_bsamples : Z) (bsamples : list Q)
    (n0 n1 : list float3) (mask : bool) : npMeshData * Z :=
  let sign := strength_sign strength in
  let body vi d (p : float3) nrm :=
    let s := brush_strength model radius strength num_bsamples bsamples mask vi d in
    <[vi := normalize (mu.lerp (n1 !!! vi) (n0 !!! vi * sign)%v3 s)]> nrm in
  let '(nrm, ret) := SelectInside model pos radius body true (normals_of model) in
  (with_normals model nrm, ret).

Definition npBrushSmooth (model : npMeshData) (pos : float3)
    (radius strength : Q) (num_bsamples : Z) (bsamples : list Q) (mask : bool)
  : npMeshData * Z :=
  let normals := normals_of model in
  let inside :=
    fst (SelectInside model pos radius
                      (fun vi d (p : float3) acc => acc ++ [(vi, d)]) false []) in
  let average :=
    normalize (fold_left (fun a (p : nat * Q) => (a + normals !!! fst p)%v3)
                         inside mu.zero3) in
  let nrm :=
    fold_left
      (fun nrm (p : nat * Q) =>
         let s := brush_strength model radius strength num_bsamples bsamples mask
                                 (fst p) (snd p) in
         <[fst p := normalize (nrm !!! fst p + average * s)%v3]> nrm)
      inside normals in
  (with_normals model nrm, Z.of_nat (length inside)).

Section Paint.
(** [saturate] of the math library is a parameter. *)
Variable saturate : Q -> Q.

(** The slope of the falloff curve at bucket [bsi]: a one-sided difference
    at either end, a centred one in between. *)
Definition brush_slope (bsamples : list Q) (num_bsamples bsi : Z) : Q :=
  let sample i := bsamples !!! Z.to_nat i in
  let h := 1 / inject_Z (num_bsamples - 1) in
  if (bsi =? 0)%Z then (sample (bsi + 1)%Z - sample bsi) / h
  else if (bsi =? num_bsamples - 1)%Z then (sample bsi - sample (bsi - 1)%Z) / h
  else (sample (bsi + 1)%Z - sample (bsi - 1)%Z) / (h * 2).

Definition npBrushPaint (model : npMeshData) (pos : float3)
    (radius strength : Q) (num_bsamples : Z) (bsamples : list Q)
    (n : float3) (blend_mode : Z) (mask : bool) : npMeshData * Z :=
  let sign := strength_sign strength in
  let n := normalize (mu.mul_v (transform model) n) in
  let itrans := inv.invert (transform model) in
  let body vi d (p : float3) nrm :=
    let bsi := GetBrushSampleIndex d radius num_bsamples in
    let s := saturate (bsamples !!! Z.to_nat bsi * mu.abs strength * 2) in
    let s := if mask then s * selection model !!! vi else s in
    let slope := brush_slope bsamples num_bsamples bsi in
    let p1 := (pos - n * mu.plane_distance pos n)%v3 in
    let p2 := (p - n * mu.plane_distance p n)%v3 in
    let t := normalize (p2 - p1)%v3 in
    let '(t, slope) := if fltb slope 0 then ((t * (-1))%v3, slope * (-1))
                       else (t, slope) in
    let vn := nrm !!! vi in
    let r := mu.lerp n (t * sign)%v3 (mu.clamp01 (slope * (1 # 2))) in
    let r := normalize (mu.mul_v itrans r) in
    let r := mu.lerp vn r s in
    <[vi := normalize (vn + r * s)%v3]> nrm in
  let '(nrm, ret) := SelectInside model pos radius body true (normals_of model) in
  (with_normals model nrm, ret).
End Paint.

(** [BrushProjectionImpl]: the normal source is brought into the space of
    the model once; every vertex under the brush casts its ray at it.

    [brush_projection_hit] is the ray cast of vertex [vi] and, on a hit,
    the normal of the source interpolated at the hit point and brought
    into the space of the model. *)
Definition brush_projection_hit (model normal_source : npMeshData)
    (ray_dirs : nat -> float3) (vi : nat) : option float3 :=
  let pnormals := normals_of normal_source in
  let pindices := indices normal_source in
  let to_local :=
    mu.mul44 (transform normal_source) (inv.invert (transform model)) in
  let pvertices :=
    map (fun vi => mu.mul_p to_local (vertices normal_source !!! vi))
        (seq 0 (num_vertices normal_source)) in
  let rpos := vertices model !!! vi in
  let rdir := ray_dirs vi in
  let '(num_hit, ti, distance) :=
    RayTrianglesIntersectionIndexed rpos rdir pvertices pindices
                                    (num_triangles normal_source) in
  if (0 <? num_hit)%Z then
    let result :=
      triangle_interpolation (rpos + rdir * distance)%v3
        (pvertices !!! (pindices !!! (ti * 3 + 0)%nat))
        (pvertices !!! (pindices !!! (ti * 3 + 1)%nat))
        (pvertices !!! (pindices !!! (ti * 3 + 2)%nat))
        (pnormals !!! (pindices !!! (ti * 3 + 0)%nat))
        (pnormals !!! (pindices !!! (ti * 3 + 1)%nat))
        (pnormals !!! (pindices !!! (ti * 3 + 2)%nat)) in
    Some (normalize (mu.mul_v to_local result))
  else None.

Definition BrushProjectionImpl (model : npMeshData) (pos : float3)
    (radius strength : Q) (num_bsamples : Z) (bsamples : list Q) (mask : bool)
    (normal_source : npMeshData) (ray_dirs : nat -> float3) : npMeshData * Z :=
  let sign := strength_sign strength in
  let body vi d (p : float3) nrm :=
    let s := brush_strength model radius strength num_bsamples bsamples mask vi d in
    match brush_projection_hit model normal_source ray_dirs vi with
    | Some result =>
        <[vi := normalize (mu.lerp (nrm !!! vi) (result * sign)%v3 s)]> nrm
    | None => nrm
    end in
  let '(nrm, ret) := SelectInside model pos radius body true (normals_of model) in
  (with_normals model nrm, ret).

Definition npBrushProjection (model : npMeshData) (pos : float3)
    (radius strength : Q) (num_bsamples : Z) (bsamples : list Q) (mask : bool)
    (normal_source : npMeshData) (ray_dirs : list float3) : npMeshData * Z :=
  BrushProjectionImpl model pos radius strength num_bsamples bsamples mask
                      normal_source (fun vi => ray_dirs !!! vi).

Definition npBrushProjection2 (model : npMeshData) (pos : float3)
    (radius strength : Q) (num_bsamples : Z) (bsamples : list Q) (mask : bool)
    (normal_source : npMeshData) (ray_dir : float3) : npMeshData * Z :=
  BrushProjectionImpl model pos radius strength num_bsamples bsamples mask
                      normal_source (fun _ => ray_dir).

(** ** Mirroring applied

    The three buffers are arguments of their own; the mesh gives the
    vertex count only.  All three loops read and write in place. *)
Definition mirror_vertices_step (relation : list Z) (mirror_plane : float3)
    (vtx : list float3) (vi : nat) : list float3 :=
  let ri := relation !!! vi in
  if (0 <=? ri)%Z then
    <[Z.to_nat ri := mu.plane_mirror (vtx !!! vi) mirror_plane]> vtx
  else if (ri =? -2)%Z then
    let v := vtx !!! vi in
    let d := mu.plane_distance v mirror_plane in
    <[vi := (v - mirror_plane * d)%v3]> vtx
  else vtx.

Definition mirror_normals_step (relation : list Z) (mirror_plane : float3)
    (nrm : list float3) (vi : nat) : list float3 :=
  let ri := relation !!! vi in
  if (0 <=? ri)%Z then
    <[Z.to_nat ri := mu.plane_mirror (nrm !!! vi) mirror_plane]> nrm
  else nrm.

Definition mirror_tangents_step (relation : list Z) (mirror_plane : float3)
    (tng : list float4) (vi : nat) : list float4 :=
  let ri := relation !!! vi in
  if (0 <=? ri)%Z then
    <[Z.to_nat ri := mu.set_xyz (tng !!! Z.to_nat ri)
                       (mu.plane_mirror (mu.xyz (tng !!! vi)) mirror_plane)]> tng
  else tng.

Definition npApplyMirroring (model : npMeshData) (relation : option (list Z))
    (mirror_plane : float3) (vtx nrm : option (list float3))
    (tng : option (list float4))
  : option (list float3) * option (list float3) * option (list float4) :=
  match relation with
  | None => (vtx, nrm, tng)
  | Some relation =>
      let range := seq 0 (num_vertices model) in
      (option_map (fun vtx => fold_left (mirror_vertices_step relation mirror_plane)
                                        range vtx) vtx,
       option_map (fun nrm => fold_left (mirror_normals_step relation mirror_plane)
                                        range nrm) nrm,
       option_map (fun tng => fold_left (mirror_tangents_step relation mirror_plane)
                                        range tng) tng)
  end.

(** ** Projection of normals *)

(** The ray cast of vertex [vi] at the target and, on a hit, the normal
    of the target interpolated at the hit point and brought into the
    space of the model. *)
Definition project_normal_hit (target : npMeshData) (to_local : float4x4)
    (soa : list (list Q)) (ray_dirs : nat -> float3) (vtx : list float3)
    (vi : nat) : option float3 :=
  let rpos := vtx !!! vi in
  let rdir := ray_dirs vi in
  let '(num_hit, ti, distance) :=
    RayTrianglesIntersectionSoA rpos rdir soa (num_triangles target) in
  if (0 <? num_hit)%Z then
    let pnormals := normals_of target in
    let result :=
      triangle_interpolation (rpos + rdir * distance)%v3
        (soa_corner soa 0 ti) (soa_corner soa 1 ti) (soa_corner soa 2 ti)
        (pnormals !!! (indices target !!! (ti * 3 + 0)%nat))
        (pnormals !!! (indices target !!! (ti * 3 + 1)%nat))
        (pnormals !!! (indices target !!! (ti * 3 + 2)%nat)) in
    Some (normalize (mu.mul_v to_local result))
  else None.

(** The body of the [parallel_for] of [ProjectNormalsImpl]. *)
Definition project_normal_vertex (target : npMeshData) (to_local : float4x4)
    (soa : list (list Q)) (ray_dirs : nat -> float3) (mask : bool)
    (vtx : list float3) (model : npMeshData) (nrm : list float3) (vi : nat)
  : list float3 :=
  let s := mask_weight model mask vi in
  if feqb s 0 then nrm
  else
    match project_normal_hit target to_local soa ray_dirs vtx vi with
    | Some result => <[vi := normalize (mu.lerp (nrm !!! vi) result s)]> nrm
    | None => nrm
    end.

Definition ProjectNormalsImpl (model target : npMeshData)
    (ray_dirs : nat -> float3) (mask : bool) : npMeshData :=
  let to_local := mu.mul44 (transform target) (inv.invert (transform model)) in
  let soa := soa_build target to_local in
  with_normals model
    (fold_left (project_normal_vertex target to_local soa ray_dirs mask
                                      (vertices model) model)
               (seq 0 (num_vertices model)) (normals_of model)).

Definition npProjectNormals (model target : npMeshData) (ray_dirs : list float3)
    (mask : bool) : npMeshData :=
  ProjectNormalsImpl model target (fun vi => ray_dirs !!! vi) mask.

Definition npProjectNormals2 (model target : npMeshData) (ray_dir : float3)
    (mask : bool) : npMeshData :=
  ProjectNormalsImpl model target (fun _ => ray_dir) mask.

End Mutation.

(** ** Terrain mesh *)

Section Terrain.
Local Open Scope Q_scope.

(** [GenerateNormalsTriangleIndexed] of the mesh library is a parameter:
    from the destination buffer, the positions, the indices and the two
    counts it gives the normals. *)
Variable GenerateNormalsTriangleIndexed :
  list float3 -> list float3 -> list nat -> Z -> Z -> list float3.

(** The six indices of the grid cell [(ix, iy)]. *)
Definition terrain_cell (width ix iy : nat) : list nat :=
  [ width * iy + ix; width * (iy + 1) + ix; width * (iy + 1) + (ix + 1);
    width * iy + ix; width * (iy + 1) + (ix + 1); width * iy + (ix + 1) ]%nat.

(** The index loop: the cell [(ix, iy)] is written at [(iy * width + ix) * 6]. *)
Definition terrain_indices (width height : Z) (dst_indices : list nat) : list nat :=
  fold_left
    (fun dst iy =>
       fold_left
         (fun dst ix =>
            let i6 := ((iy * Z.to_nat width + ix) * 6)%nat in
            list_inserts i6 (terrain_cell (Z.to_nat width) ix iy) dst)
         (seq 0 (Z.to_nat (width - 1))) dst)
    (seq 0 (Z.to_nat (height - 1))) dst_indices.

(** The vertex loop: positions and texture coordinates of the grid.  With
    a width or a height of 1 the unit [1.0f / (width - 1)] or
    [1.0f / (height - 1)] is an infinity, and every vertex the loop writes
    multiplies it by the index 0, which is no number: the rationals hold
    no such value, and the loop yields [None] as soon as it writes a
    vertex with such a unit.  With a width or height of 0 or less the
    body does not run. *)
Definition terrain_vertices (heightmap : list Q) (width height : Z) (size : float3)
    (dst_vertices : list float3) (dst_uv : list float2)
  : option (list float3 * list float2) :=
  let size_unit :=
    mkfloat3 (1 / inject_Z (width - 1) * x3 size) (1 * y3 size)
             (1 / inject_Z (height - 1) * z3 size) in
  let uv_unit := mkfloat2 (1 / inject_Z (width - 1)) (1 / inject_Z (height - 1)) in
  if (0 <? width)%Z && (0 <? height)%Z && ((width =? 1)%Z || (height =? 1)%Z)
  then None
  else Some (fold_left
    (fun acc iy =>
       fold_left
         (fun '(vtx, uvs) ix =>
            let i := (iy * Z.to_nat width + ix)%nat in
            let fx := inject_Z (Z.of_nat ix) in
            let fy := inject_Z (Z.of_nat iy) in
            (<[i := mkfloat3 (fx * x3 size_unit) (heightmap !!! i * y3 size_unit)
                             (fy * z3 size_unit)]> vtx,
             <[i := mkfloat2 (fx * x2 uv_unit) (fy * y2 uv_unit)]> uvs))
         (seq 0 (Z.to_nat width)) acc)
    (seq 0 (Z.to_nat height)) (dst_vertices, dst_uv)).

Definition npGenerateTerrainMesh (heightmap : list Q) (width height : Z)
    (size : float3) (dst_vertices dst_normals : list float3) (dst_uv : list float2)
    (dst_indices : list nat)
  : option (list float3 * list float3 * list float2) * list nat :=
  let num_vertices := (width * height)%Z in
  let num_triangles := ((width - 1) * (height - 1) * 2)%Z in
  let idx := terrain_indices width height dst_indices in
  (match terrain_vertices heightmap width height size dst_vertices dst_uv with
   | Some (vtx, uvs) =>
       Some (vtx,
             GenerateNormalsTriangleIndexed dst_normals vtx idx num_triangles
                                            num_vertices,
             uvs)
   | None => None
   end, idx).

End Terrain.

(** ** Vocabulary of the other entry points *)

Section MoreVocabulary.
Context {E : muExternals}.
Local Open Scope Q_scope.

(** The position of vertex [vi] in world space, whether it lies in the
    ball of [radius] around [pos], and its distance to [pos] as
    [SelectInside] hands it to its visitor. *)
Definition world_pos (model : npMeshData) (vi : nat) : float3 :=
  mu.mul_p (transform model) (vertices model !!! vi).
Definition in_brush (model : npMeshData) (pos : float3) (radius : Q) (vi : nat)
  : bool :=
  fleb (mu.length_sq (world_pos model vi - pos)%v3) (radius * radius).
Definition brush_distance (model : npMeshData) (pos : float3) (vi : nat) : Q :=
  sqrtf (mu.length_sq (world_pos model vi - pos)%v3).

(** The vertices of the mesh inside the ball, in index order. *)
Definition brush_vertices (model : npMeshData) (pos : float3) (radius : Q)
  : list nat :=
  List.filter (in_brush model pos radius) (seq 0 (num_vertices model)).

(** A call of one of the four entry points that edit positions under the
    selection mask. *)
Inductive edit_call :=
| CallAssignVertices (value : float3) (trans : float4x4) (xyz : Z)
| CallMoveVertices (value : float3)
| CallRotatePivotVertices (value : quatf) (pivot_pos : float3) (pivot_rot : quatf)
| CallScaleVertices (value pivot_pos : float3) (pivot_rot : quatf).

Definition run_edit_call (c : edit_call) (model : npMeshData) (mask : bool)
  : npMeshData :=
  match c with
  | CallAssignVertices value trans xyz => npAssignVertices model value trans xyz mask
  | CallMoveVertices value => npMoveVertices model value mask
  | CallRotatePivotVertices value pivot_pos pivot_rot =>
      npRotatePivotVertices model value pivot_pos pivot_rot mask
  | CallScaleVertices value pivot_pos pivot_rot =>
      npScaleVertices model value pivot_pos pivot_rot mask
  end.

(** A call of one of the six brushes that edit the normals. *)
Inductive brush_call :=
| CallBrushReplace (value : float3)
| CallBrushPaint (saturate : Q -> Q) (n : float3) (blend_mode : Z)
| CallBrushLerp (n0 n1 : list float3)
| CallBrushSmooth
| CallBrushProjection (normal_source : npMeshData) (ray_dirs : list float3)
| CallBrushProjection2 (normal_source : npMeshData) (ray_dir : float3).

Definition run_brush_call (c : brush_call) (model : npMeshData) (pos : float3)
    (radius strength : Q) (num_bsamples : Z) (bsamples : list Q) (mask : bool)
  : npMeshData * Z :=
  match c with
  | CallBrushReplace value =>
      npBrushReplace model pos radius strength num_bsamples bsamples value mask
  | CallBrushPaint saturate n blend_mode =>
      npBrushPaint saturate model pos radius strength num_bsamples bsamples n
                   blend_mode mask
  | CallBrushLerp n0 n1 =>
      npBrushLerp model pos radius strength num_bsamples bsamples n0 n1 mask
  | CallBrushSmooth =>
      npBrushSmooth model pos radius strength num_bsamples bsamples mask
  | CallBrushProjection normal_source ray_dirs =>
      npBrushProjection model pos radius strength num_bsamples bsamples mask
                        normal_source ray_dirs
  | CallBrushProjection2 normal_source ray_dir =>
      npBrushProjection2 model pos radius strength num_bsamples bsamples mask
                         normal_source ray_dir
  end.

(** The sum of the normals of the vertices under the brush, normalised:
    the direction [npBrushSmooth] pulls them to. *)
Definition brush_average (model : npMeshData) (pos : float3) (radius : Q)
  : float3 :=
  normalize (fold_left (fun a vi => (a + normals_of model !!! vi)%v3)
                       (brush_vertices model pos radius) mu.zero3).

(** What [npBrushSmooth] writes for the pair [p] of a vertex under the
    brush and its distance, from the normal [old] of that vertex. *)
Definition smooth_write (model : npMeshData) (pos : float3)
    (radius strength : Q) (num_bsamples : Z) (bsamples : list Q) (mask : bool)
    (p : nat * Q) (old : float3) : float3 :=
  normalize (old + brush_average model pos radius
                   * brush_strength model radius strength num_bsamples bsamples
                                    mask (fst p) (snd p))%v3.

(** Whether the loop of [npSelectRect] and [npSelectLasso] selects vertex
    [vi]: its screen position passes the test [inside] of the entry point
    and the vertex passes the front-face filter. *)
Definition screen_selected (model : npMeshData) (mvp : float4x4)
    (inside : float2 -> Q -> bool) (campos : float3) (frontface_only : bool)
    (vi : nat) : bool :=
  match screen_pos mvp (vertices model !!! vi) with
  | Some (sp, z) =>
      inside sp z
      && front_face model (mu.mul_p (inv.invert (transform model)) campos)
                    frontface_only vi
  | None => false
  end.

(** The screen test of [npSelectRect]: inside the rectangle and in front
    of the camera. *)
Definition rect_test (rmin rmax : float2) (sp : float2) (z : Q) : bool :=
  in_rect sp rmin rmax && fgtb z 0.

(** The screen test of [npSelectLasso]: inside the polygon of the first
    [num_lasso_points] points; the depth is not looked at. *)
Definition lasso_test (lasso : list float2) (num_lasso_points : Z)
    (sp : float2) (z : Q) : bool :=
  let n := Z.to_nat num_lasso_points in
  let '(minp, maxp) := MinMax lasso n in
  PolyInside (map x2 (take n lasso)) (map y2 (take n lasso)) n minp maxp sp.

(** The vertices the topology routine of [npSelectEdge], [npSelectHole]
    or [npSelectConnected] reports, in the order it reports them. *)
Definition reported_vertices (c : selection_call) (model : npMeshData)
  : list nat :=
  let idx := take (num_triangles model * 3) (indices model) in
  let vtx := take (num_vertices model) (vertices model) in
  match c with
  | CallSelectEdge _ _ mask => SelectEdge idx vtx (select_targets model mask)
  | CallSelectHole _ _ mask => SelectHole idx vtx (select_targets model mask)
  | CallSelectConnected _ _ => SelectConnected idx vtx (selected_targets model)
  | _ => []
  end.

Definition topology_call (c : selection_call) : bool :=
  match c with
  | CallSelectEdge _ _ _ | CallSelectHole _ _ _ | CallSelectConnected _ _ => true
  | _ => false
  end.

(** The slot that step [vi] of the position loop of [npApplyMirroring]
    writes, if any, and the value it writes there; the slot that step [vi]
    of the normal loop writes. *)
Definition mirror_vertex_target (relation : list Z) (vi : nat) : option nat :=
  let ri := relation !!! vi in
  if (0 <=? ri)%Z then Some (Z.to_nat ri)
  else if (ri =? -2)%Z then Some vi else None.

Definition mirror_vertex_value (relation : list Z) (mirror_plane : float3)
    (vi : nat) (vtx : list float3) : float3 :=
  if (0 <=? relation !!! vi)%Z
  then mu.plane_mirror (vtx !!! vi) mirror_plane
  else (vtx !!! vi
        - mirror_plane * mu.plane_distance (vtx !!! vi) mirror_plane)%v3.

Definition mirror_normal_target (relation : list Z) (vi : nat) : option nat :=
  let ri := relation !!! vi in
  if (0 <=? ri)%Z then Some (Z.to_nat ri) else None.

Definition mirror_normal_value (mirror_plane : float3) (vi : nat)
    (nrm : list float3) : float3 :=
  mu.plane_mirror (nrm !!! vi) mirror_plane.

End MoreVocabulary.

(** * Properties *)

(** ** Arithmetic of the model *)

Lemma fltb_true a b : fltb a b = true <-> (a < b)%Q.
Proof. unfold fltb. destruct (Qlt_le_dec a b); split; intros; try easy; try lra; exfalso; lra. Qed.

Lemma fltb_false a b : fltb a b = false <-> (b <= a)%Q.
Proof. unfold fltb. destruct (Qlt_le_dec a b); split; intros; try easy; try lra; exfalso; lra. Qed.

Lemma fleb_true a b : fleb a b = true <-> (a <= b)%Q.
Proof. unfold fleb. destruct (Qlt_le_dec b a); split; intros; try easy; try lra; exfalso; lra. Qed.

Lemma fleb_false a b : fleb a b = false <-> (b < a)%Q.
Proof. unfold fleb. destruct (Qlt_le_dec b a); split; intros; try easy; try lra; exfalso; lra. Qed.

Lemma feqb_true a b : feqb a b = true <-> (a == b)%Q.
Proof. apply Qeq_bool_iff. Qed.

Lemma feqb_false a b : feqb a b = false <-> ~ (a == b)%Q.
Proof.
  unfold feqb. split.
  - intros H E. apply Qeq_bool_iff in E. congruence.
  - intros H. destruct (Qeq_bool a b) eqn:E; [|reflexivity].
    apply Qeq_bool_iff in E. contradiction.
Qed.

Lemma clamp01_range (v : Q) : (0 <= mu.clamp01 v <= 1)%Q.
Proof.
  unfold mu.clamp01, mu.clamp, mu.fmin, mu.fmax.
  destruct (fltb v 0) eqn:E0.
  - destruct (fltb 1 0) eqn:E1; [apply fltb_true in E1; lra | lra].
  - apply fltb_false in E0.
    destruct (fltb 1 v) eqn:E1; [lra | apply fltb_false in E1; lra].
Qed.

Lemma clamp01_id (v : Q) : (0 <= v <= 1)%Q -> mu.clamp01 v = v.
Proof.
  intros [H0 H1]. unfold mu.clamp01, mu.clamp, mu.fmin, mu.fmax.
  destruct (fltb v 0) eqn:E0; [apply fltb_true in E0; lra |].
  destruct (fltb 1 v) eqn:E1; [apply fltb_true in E1; lra | reflexivity].
Qed.

Lemma to_int_inject (v : Q) (k : Z) : (v == inject_Z k)%Q -> mu.to_int v = k.
Proof.
  unfold mu.to_int, Qeq, inject_Z. cbn. intros H.
  rewrite Z.mul_1_r in H. rewrite H. apply Z.quot_mul. discriminate.
Qed.

Lemma to_int_floor (v : Q) :
  (0 <= v)%Q -> (inject_Z (mu.to_int v) <= v < inject_Z (mu.to_int v) + 1)%Q.
Proof.
  intros Hv. unfold mu.to_int.
  assert (Hn : (0 <= Qnum v)%Z).
  { unfold Qle in Hv. cbn in Hv. lia. }
  rewrite Z.quot_div_nonneg by lia.
  destruct v as [n d]. cbn in *. unfold Qle, Qlt, Qplus, inject_Z. cbn.
  pose proof (Z.mul_div_le n (Z.pos d) ltac:(lia)).
  pose proof (Z.mod_pos_bound n (Z.pos d) ltac:(lia)).
  pose proof (Z.div_mod n (Z.pos d) ltac:(lia)).
  split; nia.
Qed.

Lemma ratio_unit (d r : Q) : (0 < r -> 0 <= d <= r -> 0 <= 1 - d / r <= 1)%Q.
Proof.
  intros Hr [H0 H1].
  assert (A : (0 <= d / r)%Q) by (apply Qle_shift_div_l; lra).
  assert (B : (d / r <= 1)%Q) by (apply Qle_shift_div_r; lra).
  generalize dependent (d / r)%Q. intros q A B. lra.
Qed.

Section Properties.
Context {E : muExternals}.
Local Open Scope Q_scope.

(** ** Brush falloff: which sample a distance selects *)

Lemma clamp01_mono (x y : Q) : x <= y -> mu.clamp01 x <= mu.clamp01 y.
Proof.
  intros Hxy. unfold mu.clamp01, mu.clamp, mu.fmin, mu.fmax.
  destruct (fltb x 0) eqn:Ex; destruct (fltb y 0) eqn:Ey;
    try apply fltb_true in Ex; try apply fltb_false in Ex;
    try apply fltb_true in Ey; try apply fltb_false in Ey.
  all: repeat match goal with
              | |- context [fltb ?a ?b] =>
                  let Ec := fresh "Ec" in
                  destruct (fltb a b) eqn:Ec;
                  [apply fltb_true in Ec | apply fltb_false in Ec]
              end.
  all: lra.
Qed.

Lemma clamp01_Qeq (x y : Q) : x == y -> mu.clamp01 x == mu.clamp01 y.
Proof.
  intros Hxy. apply Qle_antisym; apply clamp01_mono; rewrite Hxy; apply Qle_refl.
Qed.

Lemma to_int_Qeq (x y : Q) : x == y -> mu.to_int x = mu.to_int y.
Proof.
  intros Hxy. unfold mu.to_int.
  destruct x as [nx dx], y as [ny dy]. unfold Qeq in Hxy. cbn in *.
  rewrite <- (Z.quot_mul_cancel_r nx (Z.pos dx) (Z.pos dy)) by discriminate.
  rewrite Hxy. rewrite (Z.mul_comm (Z.pos dx)).
  apply Z.quot_mul_cancel_r; discriminate.
Qed.

Lemma to_int_mono (x y : Q) : 0 <= x -> x <= y -> (mu.to_int x <= mu.to_int y)%Z.
Proof.
  intros Hx Hxy.
  destruct (to_int_floor x Hx) as [Hfx _].
  destruct (to_int_floor y ltac:(lra)) as [_ Hfy].
  assert (H : inject_Z (mu.to_int x) < inject_Z (mu.to_int y + 1)).
  { rewrite inject_Z_plus. change (inject_Z 1) with 1. lra. }
  rewrite <- Zlt_Qlt in H. lia.
Qed.

Section Rounding.
(** The rounding keeps the order and leaves small integers alone. *)
Hypothesis Hround : rounds_to_float fround.

Lemma fround_mono (x y : Q) : x <= y -> fround x <= fround y.
Proof using Hround. apply (proj1 Hround). Qed.

Lemma fround_Qeq (x y : Q) : x == y -> fround x == fround y.
Proof using Hround.
  intros Hxy. apply Qle_antisym; apply fround_mono; rewrite Hxy; apply Qle_refl.
Qed.

Lemma fround_int (k : Z) (x : Q) :
  (Z.abs k <= 2 ^ 24)%Z -> x == inject_Z k -> fround x == inject_Z k.
Proof using Hround.
  intros Hk Hx. rewrite (fround_Qeq _ _ Hx). now apply (proj2 Hround).
Qed.

(** The product of which [GetBrushSampleIndex] takes the integer part. *)
Lemma GetBrushSampleIndex_product (distance bradius : Q) (num_bsamples : Z) :
  (1 <= num_bsamples <= 2 ^ 24 + 1)%Z ->
  let t := fround (mu.clamp01 (fround (1 - fround (distance / bradius)))
                   * fround (inject_Z (num_bsamples - 1))) in
  0 <= t <= inject_Z (num_bsamples - 1).
Proof using Hround.
  intros Hn t. subst t.
  pose proof (clamp01_range (fround (1 - fround (distance / bradius))))
    as [Hc0 Hc1].
  set (c := mu.clamp01 _) in *.
  assert (Hm : fround (inject_Z (num_bsamples - 1)) == inject_Z (num_bsamples - 1)).
  { apply (proj2 Hround). lia. }
  assert (Hm0 : 0 <= inject_Z (num_bsamples - 1)).
  { change 0 with (inject_Z 0). rewrite <- Zle_Qle. lia. }
  split.
  - rewrite <- (fround_int 0 0) by (try reflexivity; cbn; lia).
    apply fround_mono. rewrite Hm. now apply Qmult_le_0_compat.
  - rewrite <- Hm at 2. apply fround_mono. rewrite Hm.
    rewrite <- (Qmult_1_l (inject_Z (num_bsamples - 1))) at 2.
    now apply Qmult_le_compat_r.
Qed.

(** Whatever the distance, the bucket [GetBrushSampleIndex] computes lies
    between 0 and [num_bsamples - 1]. *)
Lemma GetBrushSampleIndex_bounds (distance bradius : Q) (num_bsamples : Z) :
  (1 <= num_bsamples <= 2 ^ 24 + 1)%Z ->
  (0 <= GetBrushSampleIndex distance bradius num_bsamples <= num_bsamples - 1)%Z.
Proof using Hround.
  intros Hn. unfold GetBrushSampleIndex.
  destruct (GetBrushSampleIndex_product distance bradius num_bsamples Hn)
    as [Ht0 Ht1].
  set (t := fround _) in *.
  destruct (to_int_floor t Ht0) as [Hf0 Hf1].
  split.
  - assert (Hi : inject_Z (-1) < inject_Z (mu.to_int t)).
    { change (inject_Z (-1)) with (-(1)). lra. }
    rewrite <- Zlt_Qlt in Hi. lia.
  - rewrite Zle_Qle. lra.
Qed.

(** The bucket does not grow with the distance. *)
Lemma GetBrushSampleIndex_mono (d d' bradius : Q) (num_bsamples : Z) :
  0 < bradius -> (1 <= num_bsamples <= 2 ^ 24 + 1)%Z -> d <= d' ->
  (GetBrushSampleIndex d' bradius num_bsamples
   <= GetBrushSampleIndex d bradius num_bsamples)%Z.
Proof using Hround.
  intros Hr Hn Hd. unfold GetBrushSampleIndex.
  destruct (GetBrushSampleIndex_product d' bradius num_bsamples Hn) as [Ht0 _].
  apply to_int_mono; [exact Ht0 |].
  assert (Hm : 0 <= fround (inject_Z (num_bsamples - 1))).
  { rewrite (proj2 Hround) by lia. change 0 with (inject_Z 0).
    rewrite <- Zle_Qle. lia. }
  apply fround_mono. apply Qmult_le_compat_r; [| exact Hm].
  apply clamp01_mono, fround_mono.
  assert (Hq : fround (d / bradius) <= fround (d' / bradius)).
  { apply fround_mono. unfold Qdiv. apply Qmult_le_compat_r; [exact Hd |].
    apply Qlt_le_weak, Qinv_lt_0_compat, Hr. }
  lra.
Qed.

Lemma GetBrushSampleIndex_boundary (bradius : Q) (num_bsamples : Z) :
  0 < bradius -> (1 <= num_bsamples <= 2 ^ 24 + 1)%Z ->
  GetBrushSampleIndex bradius bradius num_bsamples = 0%Z.
Proof using Hround.
  intros Hr Hn. unfold GetBrushSampleIndex. apply to_int_inject.
  assert (H1 : fround (bradius / bradius) == 1).
  { apply (fround_int 1); [cbn; lia | field; lra]. }
  assert (H2 : fround (1 - fround (bradius / bradius)) == 0).
  { apply (fround_int 0); [cbn; lia | rewrite H1; reflexivity]. }
  assert (H3 : mu.clamp01 (fround (1 - fround (bradius / bradius))) == 0).
  { rewrite (clamp01_Qeq _ _ H2). now rewrite clamp01_id by lra. }
  apply (fround_int 0); [cbn; lia |]. rewrite H3. ring.
Qed.

Lemma GetBrushSampleIndex_center (bradius : Q) (num_bsamples : Z) :
  0 < bradius -> (1 <= num_bsamples <= 2 ^ 24 + 1)%Z ->
  GetBrushSampleIndex 0 bradius num_bsamples = (num_bsamples - 1)%Z.
Proof using Hround.
  intros Hr Hn. unfold GetBrushSampleIndex. apply to_int_inject.
  assert (H1 : fround (0 / bradius) == 0).
  { apply (fround_int 0); [cbn; lia | field; lra]. }
  assert (H2 : fround (1 - fround (0 / bradius)) == 1).
  { apply (fround_int 1); [cbn; lia | rewrite H1; reflexivity]. }
  assert (H3 : mu.clamp01 (fround (1 - fround (0 / bradius))) == 1).
  { rewrite (clamp01_Qeq _ _ H2). now rewrite clamp01_id by lra. }
  apply (fround_int (num_bsamples - 1)); [lia |].
  rewrite H3, (proj2 Hround) by lia. ring.
Qed.

(** C2 (as amended).  The curve is indexed from the rim: a vertex at
    distance [bradius] reads sample 0 and a vertex at the centre reads
    sample [num_bsamples - 1], for every number of samples that a [float]
    holds exactly.  At any distance the strength is a single sample,
    neighbouring samples are not blended: its index lies between 0 and
    [num_bsamples - 1], it is the integer part of the float product
    [clamp01(1 - distance / bradius) * (num_bsamples - 1)] (truncation, not
    rounding to the nearest bucket), and it does not grow with the
    distance. *)
Theorem GetBrushSample_lookup (bradius : Q) (num_bsamples : Z) (bsamples : list Q) :
  0 < bradius -> (1 <= num_bsamples <= 2 ^ 24 + 1)%Z ->
  GetBrushSample bradius bradius bsamples num_bsamples = bsamples !!! 0%nat /\
  GetBrushSample 0 bradius bsamples num_bsamples
    = bsamples !!! Z.to_nat (num_bsamples - 1) /\
  forall distance,
    let i := GetBrushSampleIndex distance bradius num_bsamples in
    let t := fround (mu.clamp01 (fround (1 - fround (distance / bradius)))
                     * fround (inject_Z (num_bsamples - 1))) in
    GetBrushSample distance bradius bsamples num_bsamples = bsamples !!! Z.to_nat i /\
    (0 <= i <= num_bsamples - 1)%Z /\
    inject_Z i <= t < inject_Z i + 1 /\
    forall distance', distance <= distance' ->
      (GetBrushSampleIndex distance' bradius num_bsamples <= i)%Z.
Proof using Hround.
  intros Hr Hn. unfold GetBrushSample.
  rewrite GetBrushSampleIndex_boundary, GetBrushSampleIndex_center by assumption.
  split; [reflexivity | split; [reflexivity |]].
  intros distance.
  split; [reflexivity | split; [now apply GetBrushSampleIndex_bounds | split]].
  - unfold GetBrushSampleIndex. apply to_int_floor.
    now apply (GetBrushSampleIndex_product distance bradius num_bsamples).
  - intros distance' Hd. now apply GetBrushSampleIndex_mono.
Qed.

End Rounding.

(** ** Lasso with fewer than three points *)

(** C10.  With fewer than three lasso points [npSelectLasso] returns 0
    and the mesh, selection weights included, is left as it was. *)
Theorem npSelectLasso_few_points (model : npMeshData) (mvp : float4x4)
    (lasso : list float2) (num_lasso_points : Z) (campos : float3)
    (strength : Q) (frontface_only : bool) :
  (num_lasso_points < 3)%Z ->
  npSelectLasso model mvp lasso num_lasso_points campos strength frontface_only
    = (model, 0%Z) /\
  forall vi,
    selection (fst (npSelectLasso model mvp lasso num_lasso_points campos
                                  strength frontface_only)) !! vi
    = selection model !! vi.
Proof.
  intros H. unfold npSelectLasso.
  destruct (Z.ltb_spec num_lasso_points 3); [|lia].
  split; [reflexivity | intros; reflexivity].
Qed.

(** ** Rotation by a negligible or undefined angle *)

(** C8.  When the angle of the axis-angle form of [value] is NaN, or is
    within the tolerance of [near_equal] of zero, [npRotatePivotVertices]
    returns at once: the mesh is unchanged, so every vertex keeps its
    position. *)
Theorem npRotatePivotVertices_negligible (model : npMeshData) (value : quatf)
    (pivot_pos : float3) (pivot_rot : quatf) (mask : bool) :
  (snd (to_axis_angle value) = None \/
   exists angle, snd (to_axis_angle value) = Some angle /\
                 near_equal angle 0 = true) ->
  npRotatePivotVertices model value pivot_pos pivot_rot mask = model /\
  forall vi,
    vertices (npRotatePivotVertices model value pivot_pos pivot_rot mask) !! vi
    = vertices model !! vi.
Proof.
  intros H.
  assert (Hm : npRotatePivotVertices model value pivot_pos pivot_rot mask = model).
  { unfold npRotatePivotVertices.
    destruct (to_axis_angle value) as [axis angle]. cbn in H.
    destruct H as [-> | (a & -> & Ha)]; cbn; [reflexivity | now rewrite Ha]. }
  split; [exact Hm | intros; now rewrite Hm].
Qed.

End Properties.

(** ** Selection weights stay in range *)

Lemma add_selection_in_range (sel : list Q) (vi : nat) (delta : Q) :
  weights_in_range sel -> weights_in_range (add_selection sel vi delta).
Proof.
  intros H. unfold add_selection, weights_in_range.
  apply Forall_insert; [exact H | apply clamp01_range].
Qed.

Lemma clear_selection_in_range (sel : list Q) (n : nat) :
  weights_in_range sel -> weights_in_range (clear_selection sel n).
Proof.
  intros H. unfold clear_selection, weights_in_range.
  apply Forall_app. split.
  - apply Forall_replicate. lra.
  - now apply Forall_drop.
Qed.

Lemma clamp_writes_in_range (P : Q -> Prop) (sel sel' : list Q) :
  clamp_writes P sel sel' -> weights_in_range sel -> weights_in_range sel'.
Proof.
  induction 1; intros Hs; [exact Hs |].
  apply add_selection_in_range; auto.
Qed.

(** Seen from one vertex, clamped writes combine its weight with a
    sequence of contributions, one clamped sum after the other. *)
Lemma clamp_writes_slot (P : Q -> Prop) (sel sel' : list Q) (vi : nat) :
  clamp_writes P sel sel' ->
  exists deltas,
    Forall P deltas /\
    sel' !!! vi = fold_left (fun w delta => mu.clamp01 (w + delta)) deltas (sel !!! vi).
Proof.
  induction 1 as [sel | sel sel' vj delta Hd Hw (deltas & Hall & Heq)].
  - exists []. split; [constructor | reflexivity].
  - unfold add_selection.
    destruct (decide (vj = vi /\ (vi < length sel')%nat)) as [[-> Hlt] | Hno].
    + exists (deltas ++ [delta]). split.
      * apply Forall_app. split; [exact Hall | now constructor].
      * rewrite list_lookup_total_insert_eq by exact Hlt.
        rewrite fold_left_app. cbn. now rewrite Heq.
    + exists deltas. split; [exact Hall |]. rewrite <- Heq.
      destruct (decide (vj = vi)) as [-> | Hne].
      * rewrite list_insert_ge by lia. reflexivity.
      * now apply list_lookup_total_insert_ne.
Qed.

(** A loop whose steps either keep the weights or do one clamped write
    does clamped writes only. *)
Lemma fold_clamp_writes {S A : Type} (P : Q -> Prop) (proj : S -> list Q)
    (step : S -> A -> S) (l : list A) (s0 : S) :
  (forall s a, proj (step s a) = proj s \/
               exists vi delta, P delta /\
                 proj (step s a) = add_selection (proj s) vi delta) ->
  clamp_writes P (proj s0) (proj (fold_left step l s0)).
Proof.
  intros Hstep. induction l as [|a l IH] using rev_ind; cbn.
  - constructor.
  - rewrite fold_left_app. cbn.
    destruct (Hstep (fold_left step l s0) a) as [-> | (vi & d & Hd & ->)].
    + exact IH.
    + constructor; assumption.
Qed.

Section SelectionRange.
Context {E : muExternals}.
Local Open Scope Q_scope.

Lemma select_visited_writes (model : npMeshData) (strength : Q) (clear : bool)
    (visited : list nat) :
  clamp_writes (eq strength)
    (if clear then clear_selection (selection model) (num_vertices model)
     else selection model)
    (selection (fst (select_visited model strength clear visited))).
Proof.
  unfold select_visited.
  set (sel0 := if clear then _ else _).
  set (step := fun '(sel, ret) vi => (add_selection sel vi strength, (ret + 1)%Z)).
  pose proof (fold_clamp_writes (eq strength) fst step visited (sel0, 0%Z)) as H.
  destruct (fold_left step visited (sel0, 0%Z)) as [sel ret] eqn:Ef.
  try rewrite Ef in H. cbn [fst selection set_selection] in *.
  apply H. intros [s r] a. right. cbn [fst]. eauto.
Qed.

Lemma select_screen_writes (model : npMeshData) (mvp : float4x4)
    (inside : float2 -> Q -> bool) (campos : float3) (strength : Q)
    (frontface_only : bool) :
  clamp_writes (eq strength) (selection model)
    (selection (fst (select_screen model mvp inside campos strength frontface_only))).
Proof.
  unfold select_screen.
  match goal with
  | |- context [fold_left ?f ?l ?s0] =>
      pose proof (fold_clamp_writes (eq strength) fst f l s0) as H;
      destruct (fold_left f l s0) as [sel ret] eqn:Ef
  end.
  try rewrite Ef in H. cbn [fst selection set_selection] in *.
  apply H. intros [s r] vi.
  destruct (screen_pos mvp (vertices model !!! vi)) as [[sp z]|]; [|now left].
  destruct (inside sp z); [|now left].
  destruct (front_face _ _ _ _); [right; cbn [fst]; eauto | now left].
Qed.

Lemma npSelectBrush_writes (model : npMeshData) (pos : float3)
    (radius strength : Q) (num_bsamples : Z) (bsamples : list Q) :
  clamp_writes
    (fun delta => exists d,
         delta = GetBrushSample d radius bsamples num_bsamples * strength)
    (selection model)
    (selection (fst (npSelectBrush model pos radius strength num_bsamples bsamples))).
Proof.
  unfold npSelectBrush, SelectInside.
  match goal with
  | |- clamp_writes ?P _ _ =>
      match goal with
      | |- context [fold_left ?f ?l ?s0] =>
          pose proof (fold_clamp_writes P fst f l s0) as H;
          destruct (fold_left f l s0) as [sel ret] eqn:Ef
      end
  end.
  try rewrite Ef in H. cbn [fst selection set_selection] in *.
  apply H. intros [s r] vi.
  destruct (fleb _ _); [right; cbn [fst]; eauto | now left].
Qed.

Lemma npSelectTriangle_writes (model : npMeshData) (pos dir : float3) (strength : Q) :
  clamp_writes (eq strength) (selection model)
    (selection (fst (npSelectTriangle model pos dir strength))).
Proof.
  unfold npSelectTriangle.
  destruct (Raycast model pos dir) as [[hit ti] d].
  destruct (hit =? 0)%Z; cbn; [constructor |].
  repeat constructor.
Qed.

Lemma npSelectSingle_writes (model : npMeshData) (mvp : float4x4)
    (rmin rmax : float2) (campos : float3) (strength : Q) (frontface_only : bool) :
  clamp_writes (eq strength) (selection model)
    (selection (fst (npSelectSingle model mvp rmin rmax campos strength
                                    frontface_only))).
Proof.
  unfold npSelectSingle.
  destruct (npSelectNearestImpl _ _ _ _ _ _); cbn; repeat constructor.
Qed.

Lemma npSelectLasso_writes (model : npMeshData) (mvp : float4x4)
    (lasso : list float2) (n : Z) (campos : float3) (strength : Q)
    (frontface_only : bool) :
  clamp_writes (eq strength) (selection model)
    (selection (fst (npSelectLasso model mvp lasso n campos strength
                                   frontface_only))).
Proof.
  unfold npSelectLasso.
  destruct (n <? 3)%Z; [constructor |].
  destruct (MinMax lasso (Z.to_nat n)) as [minp maxp].
  apply select_screen_writes.
Qed.

Lemma clamp_writes_eq_sym (strength : Q) (a b : list Q) :
  clamp_writes (eq strength) a b -> clamp_writes (fun delta => delta = strength) a b.
Proof. induction 1; constructor; auto. Qed.

(** C1.  Whatever selection entry point is called, the weights after the
    call are reached from the weights it starts from (the weights of the
    mesh, zeroed beforehand when the call asks for a clear) by writes
    [selection[vi] = clamp01(selection[vi] + delta)] and by nothing else,
    [delta] being the contribution of the call.  So the weight of every
    vertex after the call is its starting weight combined with the
    contributions it received, each as [clamp01(old + delta)]; and when
    every weight lay in [[0, 1]] before the call, every weight lies in
    [[0, 1]] after it. *)
Theorem selection_call_in_range (c : selection_call) (model : npMeshData) :
  weights_in_range (selection model) ->
  let model' := fst (run_selection_call c model) in
  clamp_writes (contribution c) (initial_weights c model) (selection model') /\
  weights_in_range (selection model') /\
  (forall vi, exists deltas,
     Forall (contribution c) deltas /\
     selection model' !!! vi
     = fold_left (fun old delta => mu.clamp01 (old + delta)) deltas
                 (initial_weights c model !!! vi)).
Proof.
  intros Hr model'.
  assert (Hw : clamp_writes (contribution c) (initial_weights c model)
                            (selection model')).
  { subst model'. unfold initial_weights.
    destruct c; cbn [run_selection_call clears_first contribution];
      try apply clamp_writes_eq_sym.
    - apply npSelectSingle_writes.
    - apply npSelectTriangle_writes.
    - apply select_visited_writes.
    - apply select_visited_writes.
    - apply select_visited_writes.
    - apply select_screen_writes.
    - apply npSelectLasso_writes.
    - apply npSelectBrush_writes. }
  split; [exact Hw | split].
  - apply (clamp_writes_in_range _ _ _ Hw).
    unfold initial_weights. destruct (clears_first c); [|exact Hr].
    now apply clear_selection_in_range.
  - intros vi. now apply clamp_writes_slot.
Qed.

End SelectionRange.

(** ** The furthest-point query *)

Lemma fold_left_seq_S {S : Type} (f : S -> nat -> S) (k : nat) (s0 : S) :
  fold_left f (seq 0 (Datatypes.S k)) s0 = f (fold_left f (seq 0 k) s0) k.
Proof. rewrite seq_S, fold_left_app. reflexivity. Qed.

Section Furthest.
Context {E : muExternals}.
Local Open Scope Q_scope.

Lemma passes_mask_true (model : npMeshData) (mask : bool) (vi : nat) :
  negb mask || fgtb (selection model !!! vi) 0 = true <-> passes_mask model mask vi.
Proof.
  unfold passes_mask, fgtb. rewrite orb_true_iff, negb_true_iff, fltb_true.
  reflexivity.
Qed.

(** The loop invariant: after the first [k] vertices, [furthest_sq] bounds
    the squared distance of every vertex seen that passes the mask, and it
    is either still [FLT_MIN] or the squared distance of [furthest_vi], the
    first vertex to reach it. *)
Lemma furthest_invariant (model : npMeshData) (pos : float3) (mask : bool) (k : nat) :
  let lpos := mu.mul_p (inv.invert (transform model)) pos in
  let st := fold_left (furthest_step model lpos mask) (seq 0 k) (FLT_MIN, 0%nat) in
  (forall j, (j < k)%nat -> passes_mask model mask j ->
             local_dsq model pos j <= fst st) /\
  (fst st = FLT_MIN \/
   (FLT_MIN < fst st /\ (snd st < k)%nat /\ passes_mask model mask (snd st) /\
    fst st = local_dsq model pos (snd st) /\
    forall j, (j < snd st)%nat -> passes_mask model mask j ->
              local_dsq model pos j < fst st)) /\
  FLT_MIN <= fst st.
Proof.
  intros lpos. induction k as [|k IH]; intros st.
  - cbn. split; [intros; lia | split; [now left | lra]].
  - subst st. rewrite fold_left_seq_S.
    destruct (fold_left _ (seq 0 k) _) as [fsq fvi] eqn:Ef.
    cbn [fst snd] in IH. destruct IH as (Hle & Hst & Hmin).
    unfold furthest_step.
    destruct (negb mask || fgtb (selection model !!! k) 0) eqn:Ep.
    + apply passes_mask_true in Ep.
      change (mu.length_sq (vertices model !!! k - lpos)%v3)
        with (local_dsq model pos k).
      unfold fgtb. destruct (fltb fsq (local_dsq model pos k)) eqn:Ec.
      * apply fltb_true in Ec. cbn [fst snd]. split; [|split].
        -- intros j Hj Hp. destruct (decide (j = k)) as [-> | Hne]; [lra |].
           assert (local_dsq model pos j <= fsq) by (apply Hle; [lia | exact Hp]).
           lra.
        -- right. repeat split; try lra; try lia; try exact Ep.
           intros j Hj Hp. specialize (Hle j Hj Hp). lra.
        -- lra.
      * apply fltb_false in Ec. cbn [fst snd]. split; [|split].
        -- intros j Hj Hp. destruct (decide (j = k)) as [-> | Hne]; [lra |].
           apply Hle; [lia | exact Hp].
        -- destruct Hst as [-> | (H1 & H2 & H3 & H4 & H5)]; [now left |].
           right. repeat split; auto; lia.
        -- exact Hmin.
    + cbn [fst snd]. split; [|split].
      * intros j Hj Hp. destruct (decide (j = k)) as [-> | Hne].
        -- apply passes_mask_true in Hp. congruence.
        -- apply Hle; [lia | exact Hp].
      * destruct Hst as [-> | (H1 & H2 & H3 & H4 & H5)]; [now left |].
        right. repeat split; auto; lia.
      * exact Hmin.
Qed.

(** C9 (as amended).  When some vertex passes the mask and its squared
    distance, measured in the space of the mesh, exceeds [FLT_MIN], the
    query succeeds: it yields a vertex that passes the mask and maximises
    the distance measured in the space of the mesh (the first such vertex
    in index order), and with it the distance of that vertex measured in
    world space. *)
Theorem GetFurthestDistance_local_maximum (model : npMeshData) (pos : float3)
    (mask : bool) (v0 : nat) :
  (v0 < num_vertices model)%nat -> passes_mask model mask v0 ->
  FLT_MIN < local_dsq model pos v0 ->
  exists vidx,
    GetFurthestDistance model pos mask = Some (vidx, world_distance model pos vidx) /\
    (vidx < num_vertices model)%nat /\ passes_mask model mask vidx /\
    (forall vj, (vj < num_vertices model)%nat -> passes_mask model mask vj ->
                local_dsq model pos vj <= local_dsq model pos vidx) /\
    (forall vj, (vj < vidx)%nat -> passes_mask model mask vj ->
                local_dsq model pos vj < local_dsq model pos vidx).
Proof.
  intros Hv0 Hp0 Hd0.
  pose proof (furthest_invariant model pos mask (num_vertices model)) as H.
  cbn zeta in H. unfold GetFurthestDistance.
  destruct (fold_left _ (seq 0 (num_vertices model)) _) as [fsq fvi] eqn:Ef.
  cbn [fst snd] in H. destruct H as (Hle & Hst & Hmin).
  pose proof (Hle v0 Hv0 Hp0) as Hv.
  destruct Hst as [-> | (H1 & H2 & H3 & H4 & H5)]; [lra |].
  exists fvi. unfold fgtb.
  destruct (fltb FLT_MIN fsq) eqn:Ec; [|apply fltb_false in Ec; lra].
  split; [reflexivity |]. rewrite <- H4. auto.
Qed.

End Furthest.

(** ** Loops over the vertex range *)

Lemma lookup_total_map_seq {A : Type} `{Inhabited A} (f : nat -> A) (n i : nat) :
  (i < n)%nat -> map f (seq 0 n) !!! i = f i.
Proof.
  intros Hi. apply list_lookup_total_correct.
  change (map f (seq 0 n)) with (f <$> seq 0 n).
  rewrite list_lookup_fmap, lookup_seq_lt by exact Hi. reflexivity.
Qed.

(** A loop over [0 .. k) whose step [i] rewrites slot [i] of a buffer from
    its current content, and no other slot, leaves [g j] of the initial
    content in every slot [j < k]. *)
Lemma fold_slots {St A : Type} `{Inhabited A} (proj : St -> list A)
    (step : St -> nat -> St) (g : nat -> A -> A) :
  (forall s i, length (proj (step s i)) = length (proj s)) ->
  (forall s i, (i < length (proj s))%nat -> proj (step s i) !!! i = g i (proj s !!! i)) ->
  (forall s i j, i <> j -> proj (step s i) !!! j = proj s !!! j) ->
  forall k s0 j, (j < length (proj s0))%nat ->
    length (proj (fold_left step (seq 0 k) s0)) = length (proj s0) /\
    proj (fold_left step (seq 0 k) s0) !!! j
    = if decide (j < k)%nat then g j (proj s0 !!! j) else proj s0 !!! j.
Proof.
  intros Hlen Hat Hne k s0 j Hj. induction k as [|k [IHl IH]].
  - cbn. split; [reflexivity | destruct (decide (j < 0)%nat); [lia | reflexivity]].
  - rewrite fold_left_seq_S. split; [now rewrite Hlen |].
    destruct (decide (j = k)) as [-> | Hjk].
    + rewrite Hat by (rewrite IHl; exact Hj). rewrite IH.
      destruct (decide (k < k)%nat); [lia |].
      destruct (decide (k < S k)%nat); [reflexivity | lia].
    + rewrite Hne by congruence. rewrite IH.
      destruct (decide (j < k)%nat), (decide (j < S k)%nat); try reflexivity; lia.
Qed.

Lemma find_seq_first (f : nat -> bool) (n : nat) :
  match find f (seq 0 n) with
  | Some i => (i < n)%nat /\ f i = true /\ forall j, (j < i)%nat -> f j = false
  | None => forall j, (j < n)%nat -> f j = false
  end.
Proof.
  assert (G : forall s,
    match find f (seq s n) with
    | Some i => (s <= i < s + n)%nat /\ f i = true /\
                forall j, (s <= j < i)%nat -> f j = false
    | None => forall j, (s <= j < s + n)%nat -> f j = false
    end).
  { induction n as [|n IH]; intros s; cbn.
    - intros; lia.
    - destruct (f s) eqn:Es.
      + repeat split; try lia; auto.
      + specialize (IH (S s)). destruct (find f (seq (S s) n)) as [i|].
        * destruct IH as (Hi & Hf & Hj). repeat split; try lia; auto.
          intros j Hjs. destruct (decide (j = s)) as [-> | Hne]; [exact Es |].
          apply Hj. lia.
        * intros j Hjs. destruct (decide (j = s)) as [-> | Hne]; [exact Es |].
          apply IH. lia. }
  specialize (G 0%nat). destruct (find f (seq 0 n)) as [i|].
  - destruct G as (Hi & Hf & Hj). repeat split; try lia; auto.
    intros j Hji. apply Hj. lia.
  - intros j Hj. apply G. lia.
Qed.

(** ** The mirroring relation *)

Section Mirroring.
Context {E : muExternals}.
Local Open Scope Q_scope.

Lemma mirror_partner_true (model : npMeshData) (mirror_plane : float3)
    (epsilon : Q) (vi i : nat) :
  (i < num_vertices model)%nat ->
  let distances :=
    map (fun vi => mu.plane_distance (vertices model !!! vi) mirror_plane)
        (seq 0 (num_vertices model)) in
  mirror_partner model mirror_plane epsilon distances vi i = true
  <-> is_mirror_partner model mirror_plane epsilon vi i.
Proof.
  intros Hi distances. unfold mirror_partner, is_mirror_partner.
  subst distances. rewrite lookup_total_map_seq by exact Hi.
  unfold fgtb, fgeb.
  change (vertices model !!! i
          - mirror_plane * (mu.plane_distance (vertices model !!! i) mirror_plane * 2))%v3
    with (mu.plane_mirror (vertices model !!! i) mirror_plane).
  destruct (fltb 0 _) eqn:E0; cbn [andb].
  - apply fltb_true in E0.
    destruct (fltb (length3 _) epsilon) eqn:E1.
    + apply fltb_true in E1. rewrite fleb_true. tauto.
    + apply fltb_false in E1. split; [discriminate |].
      intros (_ & Hl & _). lra.
  - apply fltb_false in E0. split; [discriminate |].
    intros (Hd & _). lra.
Qed.

(** C5 (as amended).  After [npBuildMirroringRelation], for every vertex
    [vi] of the mesh: when its signed distance to the plane is negative,
    however small, [relation[vi]] is the first vertex in index order that
    is a mirror partner of [vi], or -1 when there is none; when its
    distance is not negative and within the tolerance of zero,
    [relation[vi]] is -2; otherwise [relation[vi]] is -1. *)
Theorem npBuildMirroringRelation_relation (model : npMeshData)
    (mirror_plane : float3) (epsilon : Q) (relation : list Z) (vi : nat) :
  (num_vertices model <= length relation)%nat ->
  (vi < num_vertices model)%nat ->
  let d1 := mu.plane_distance (vertices model !!! vi) mirror_plane in
  let partner := is_mirror_partner model mirror_plane epsilon vi in
  exists relation',
    fst (npBuildMirroringRelation model mirror_plane epsilon (Some relation))
      = Some relation' /\
    length relation' = length relation /\
    (d1 < 0 ->
       (exists i, relation' !!! vi = Z.of_nat i /\ (i < num_vertices model)%nat /\
                  partner i /\ forall j, (j < i)%nat -> ~ partner j) \/
       (relation' !!! vi = (-1)%Z /\
        forall i, (i < num_vertices model)%nat -> ~ partner i)) /\
    (0 <= d1 -> near_equal d1 0 = true -> relation' !!! vi = (-2)%Z) /\
    (0 <= d1 -> near_equal d1 0 = false -> relation' !!! vi = (-1)%Z).
Proof.
  intros Hlen Hvi d1 partner. unfold npBuildMirroringRelation.
  set (distances := map _ (seq 0 (num_vertices model))).
  set (step := fun '(relation, ret) vi => _).
  pose proof (fold_slots (St := list Z * Z) fst step
                (fun i _ => fst (mirror_relation_of model mirror_plane epsilon
                                                    distances i))) as Hf.
  destruct (Hf) with (k := num_vertices model) (s0 := (relation, 0%Z)) (j := vi)
    as [Hl Hv].
  { intros [r c] i. subst step. cbn beta iota.
    destruct (mirror_relation_of _ _ _ _ i). cbn. apply length_insert. }
  { intros [r c] i Hi. subst step. cbn beta iota.
    destruct (mirror_relation_of _ _ _ _ i). cbn in *.
    now apply list_lookup_total_insert_eq. }
  { intros [r c] i j Hij. subst step. cbn beta iota.
    destruct (mirror_relation_of _ _ _ _ i). cbn.
    now apply list_lookup_total_insert_ne. }
  { cbn. lia. }
  clear Hf. destruct (fold_left step _ _) as [relation' ret] eqn:Ef.
  cbn [fst] in *. exists relation'. split; [reflexivity |].
  split; [exact Hl |].
  destruct (decide (vi < num_vertices model)%nat); [|lia].
  rewrite Hv. unfold mirror_relation_of.
  assert (Hd : distances !!! vi = d1).
  { subst distances. now rewrite lookup_total_map_seq. }
  rewrite Hd.
  destruct (fltb d1 0) eqn:E1.
  - apply fltb_true in E1. split; [|split; intros; lra].
    intros _.
    pose proof (find_seq_first
                  (mirror_partner model mirror_plane epsilon distances vi)
                  (num_vertices model)) as Hfind.
    destruct (find _ _) as [i|]; cbn [fst].
    + left. destruct Hfind as (Hi & Hp & Hfirst). exists i.
      split; [reflexivity | split; [exact Hi | split]].
      * now apply mirror_partner_true in Hp.
      * intros j Hj Hpj. apply (mirror_partner_true model mirror_plane epsilon vi j) in Hpj;
          [|lia]. fold distances in Hpj. rewrite Hfirst in Hpj by exact Hj. discriminate.
    + right. split; [reflexivity |]. intros i Hi Hp.
      apply (mirror_partner_true model mirror_plane epsilon vi i) in Hp; [|exact Hi].
      fold distances in Hp. rewrite Hfind in Hp by exact Hi. discriminate.
  - apply fltb_false in E1. split; [intros; lra |].
    split; intros _ Hn; rewrite Hn; reflexivity.
Qed.

End Mirroring.

(** ** The nearest-vertex pick *)



Lemma elem_of_List_filter {A : Type} (f : A -> bool) (l : list A) (a : A) :
  a ∈ List.filter f l <-> a ∈ l /\ f a = true.
Proof. rewrite !list_elem_of_In. apply filter_In. Qed.

Lemma NoDup_List_filter {A : Type} (f : A -> bool) (l : list A) :
  NoDup l -> NoDup (List.filter f l).
Proof.
  induction 1 as [|a l Ha Hl IH]; cbn; [constructor |].
  destruct (f a); [|exact IH].
  constructor; [|exact IH]. rewrite elem_of_List_filter. tauto.
Qed.

(** Membership in [l ++ [c]], and a bound to show for each of its
    elements from the bound [Hle] known on [l]. *)
Ltac in_last := apply elem_of_app; right; now apply list_elem_of_singleton.

Section Pick.
Context {E : muExternals}.
Local Open Scope Q_scope.







End Pick.


Section PickTheorem.
Context {E : muExternals}.
Local Open Scope Q_scope.


End PickTheorem.


(** ** Projection: what one vertex receives *)

Lemma lookup_insert_self {A : Type} `{Inhabited A} (l : list A) (i : nat)
    (f : A -> A) :
  <[i := f (l !!! i)]> l !! i = f <$> (l !! i).
Proof.
  destruct (l !! i) as [v|] eqn:El.
  - rewrite list_lookup_insert_eq by (eapply lookup_lt_Some; eauto).
    now rewrite (list_lookup_total_correct _ _ _ El).
  - apply lookup_ge_None in El. rewrite list_insert_ge by exact El.
    cbn. now apply lookup_ge_None.
Qed.

Section Projection.
Context {E : muExternals}.
Local Open Scope Q_scope.

(** What a hit writes at the vertex itself. *)
Lemma project_write_self (m : npMeshData) (vi : nat) (s : Q) (PNT : Z)
    (h : projection_hit) :
  let m' := project_write m vi s PNT h in
  vertices m' !! vi
    = (fun v => if pnt_bit PNT 1 then mu.lerp v (rvertex h) s else v)
        <$> vertices m !! vi /\
  normal_at m' vi
    = (fun n => if pnt_bit PNT 2 then normalize (mu.lerp n (rnormal h) s) else n)
        <$> normal_at m vi /\
  tangent_at m' vi
    = (fun t => if pnt_bit PNT 4
                then mu.set_xyz t (normalize (mu.lerp (mu.xyz t) (mu.xyz (rtangents h)) s))
                else t)
        <$> tangent_at m vi.
Proof.
  unfold project_write, normal_at, tangent_at.
  destruct m as [idx vtx nrm tng uvs sel nv nt tr]. cbn.
  destruct (pnt_bit PNT 1), nrm as [nrm|], (pnt_bit PNT 2), tng as [tng|],
    (pnt_bit PNT 4); cbn;
    rewrite ?(lookup_insert_self vtx vi (fun v => mu.lerp v (rvertex h) s)),
      ?(lookup_insert_self nrm vi (fun n => normalize (mu.lerp n (rnormal h) s))),
      ?(lookup_insert_self tng vi
          (fun t => mu.set_xyz t (normalize (mu.lerp (mu.xyz t) (mu.xyz (rtangents h)) s))));
    repeat split; try reflexivity;
    match goal with
    | |- ?o = _ <$> ?o => now destruct o
    end.
Qed.

(** A hit writes nothing at another vertex, and leaves the weights. *)
Lemma project_write_other (m : npMeshData) (vi vj : nat) (s : Q) (PNT : Z)
    (h : projection_hit) :
  vi <> vj ->
  let m' := project_write m vi s PNT h in
  vertices m' !! vj = vertices m !! vj /\
  normal_at m' vj = normal_at m vj /\
  tangent_at m' vj = tangent_at m vj.
Proof.
  intros Hne. unfold project_write, normal_at, tangent_at.
  destruct m as [idx vtx nrm tng uvs sel nv nt tr]. cbn.
  destruct (pnt_bit PNT 1), nrm as [nrm|], (pnt_bit PNT 2), tng as [tng|],
    (pnt_bit PNT 4); cbn;
    rewrite ?list_lookup_insert_ne by exact Hne; repeat split; reflexivity.
Qed.

Lemma project_write_selection (m : npMeshData) (vi : nat) (s : Q) (PNT : Z)
    (h : projection_hit) :
  selection (project_write m vi s PNT h) = selection m.
Proof.
  unfold project_write.
  destruct m as [idx vtx nrm tng uvs sel nv nt tr]. cbn.
  destruct (pnt_bit PNT 1), nrm as [nrm|], (pnt_bit PNT 2), tng as [tng|],
    (pnt_bit PNT 4); reflexivity.
Qed.

Section Loop.
Variables (target : npMeshData) (to_local : float4x4) (soa : list (list Q))
          (ray_dirs : RayDirs) (mode : npProjectVerticesMode)
          (max_distance : Q) (PNT : Z) (mask : bool).

Let step := project_vertex target to_local soa ray_dirs mode max_distance PNT mask.

Lemma project_vertex_other (m : npMeshData) (vi vj : nat) :
  vi <> vj ->
  vertices (step m vi) !! vj = vertices m !! vj /\
  normal_at (step m vi) vj = normal_at m vj /\
  tangent_at (step m vi) vj = tangent_at m vj.
Proof.
  intros Hne. unfold step, project_vertex.
  destruct (feqb _ 0); [auto |].
  destruct (project_find _ _ _ _ _ _ _); [|auto].
  now apply project_write_other.
Qed.

Lemma project_vertex_selection (m : npMeshData) (vi : nat) :
  selection (step m vi) = selection m.
Proof.
  unfold step, project_vertex.
  destruct (feqb _ 0); [reflexivity |].
  destruct (project_find _ _ _ _ _ _ _); [|reflexivity].
  apply project_write_selection.
Qed.

(** Iterations over vertices other than [vj] keep the data of [vj]. *)
Lemma project_fold_other (l : list nat) (m : npMeshData) (vj : nat) :
  vj ∉ l ->
  let m' := fold_left step l m in
  vertices m' !! vj = vertices m !! vj /\
  normal_at m' vj = normal_at m vj /\
  tangent_at m' vj = tangent_at m vj /\
  selection m' = selection m.
Proof.
  revert m. induction l as [|vi l IH]; intros m Hnin; cbn; [auto |].
  apply not_elem_of_cons in Hnin. destruct Hnin as [Hne Hnin].
  destruct (IH (step m vi) Hnin) as (H1 & H2 & H3 & H4).
  destruct (project_vertex_other m vi vj) as (G1 & G2 & G3); [congruence |].
  rewrite H1, H2, H3, H4, G1, G2, G3, project_vertex_selection. auto.
Qed.

End Loop.

End Projection.

Section ProjectionTheorem.
Context {E : muExternals}.
Local Open Scope Q_scope.

Lemma hits_within_dec (max_distance : Q) (r : Z * nat * Q) :
  (0 <? fst (fst r))%Z && fltb (snd r) max_distance = true
  <-> hits_within max_distance r.
Proof.
  unfold hits_within. rewrite andb_true_iff, Z.ltb_lt, fltb_true. reflexivity.
Qed.

(** The first cast of a vertex is accepted exactly when it hits within
    [max_distance]. *)
Lemma project_cast_first (target : npMeshData) (to_local : float4x4)
    (soa : list (list Q)) (max_distance : Q) (rpos dir : float3) :
  let r := RayTrianglesIntersectionSoA rpos dir soa (num_triangles target) in
  (hits_within max_distance r ->
   exists h, project_cast target to_local soa max_distance rpos dir None = Some h /\
             min_distance h = snd r /\ rvertex h = (rpos + dir * snd r)%v3) /\
  (~ hits_within max_distance r ->
   project_cast target to_local soa max_distance rpos dir None = None).
Proof.
  intros r. unfold project_cast. subst r.
  destruct (RayTrianglesIntersectionSoA rpos dir soa (num_triangles target))
    as [[nh ti] d] eqn:Er.
  pose proof (hits_within_dec max_distance (nh, ti, d)) as Hd. cbn [fst snd] in *.
  rewrite andb_true_r.
  destruct ((0 <? nh)%Z && fltb d max_distance).
  - split; [|intros Hn; exfalso; apply Hn; now apply Hd].
    intros _. eexists. split; [reflexivity |]. cbn. auto.
  - split; [|reflexivity]. intros Hh. apply Hd in Hh. discriminate.
Qed.

(** A second cast replaces an accepted first one exactly when it hits
    within [max_distance] and closer. *)
Lemma project_cast_second (target : npMeshData) (to_local : float4x4)
    (soa : list (list Q)) (max_distance : Q) (rpos dir : float3)
    (h0 : projection_hit) :
  let r := RayTrianglesIntersectionSoA rpos dir soa (num_triangles target) in
  exists h,
    project_cast target to_local soa max_distance rpos dir (Some h0) = Some h /\
    (hits_within max_distance r -> snd r < min_distance h0 ->
     min_distance h = snd r /\ rvertex h = (rpos + dir * snd r)%v3) /\
    (~ (hits_within max_distance r /\ snd r < min_distance h0) -> h = h0).
Proof.
  intros r. unfold project_cast. subst r.
  destruct (RayTrianglesIntersectionSoA rpos dir soa (num_triangles target))
    as [[nh ti] d] eqn:Er.
  pose proof (hits_within_dec max_distance (nh, ti, d)) as Hd. cbn [fst snd] in *.
  destruct ((0 <? nh)%Z && fltb d max_distance); cbn [andb].
  - destruct (fltb d (min_distance h0)) eqn:Ec.
    + eexists. split; [reflexivity |]. split; [cbn; auto |].
      intros Hn. exfalso. apply Hn. apply fltb_true in Ec. split; [now apply Hd | exact Ec].
    + exists h0. split; [reflexivity |]. apply fltb_false in Ec.
      split; [intros; lra | reflexivity].
  - exists h0. split; [reflexivity |].
    split; [|reflexivity]. intros Hh. apply Hd in Hh. discriminate.
Qed.

(** C6.  Take a vertex [vi] of the mesh, whatever the source of ray
    directions and the mode.  [rdir] is its ray direction, read when the
    loop reaches it, and [s] is its weight ([selection[vi]] under [mask],
    1 otherwise).
    - If neither the ray along [rdir] nor the ray along [- rdir] hits the
      target closer than [max_distance], or if [s] is zero, the position,
      normal and tangent of [vi] are what they were before the call.
    - If the casts of the mode accept a hit, the position is written when
      bit 1 of [PNT] is set, the normal when bit 2 is set and the tangent
      direction when bit 4 is set, each as the blend of the old value and
      the value at the hit with weight [s]; an attribute whose bit is clear
      keeps its value.
    - No hit is accepted exactly when every cast of the mode misses or
      hits at [max_distance] or beyond.  In forward-and-backward mode with
      both rays hitting within [max_distance], the hit used is the backward
      one when its distance is smaller and the forward one otherwise. *)
Theorem npProjectVerticesImpl_vertex (model target : npMeshData)
    (ray_dirs : RayDirs) (mode : npProjectVerticesMode) (max_distance : Q)
    (PNT : Z) (mask : bool) (vi : nat) :
  (vi < num_vertices model)%nat ->
  let to_local := mu.mul44 (transform target) (inv.invert (transform model)) in
  let soa := soa_build target to_local in
  let before := project_reach model target ray_dirs mode max_distance PNT mask vi in
  let after := npProjectVerticesImpl model target ray_dirs mode max_distance PNT mask in
  let rpos := vertices model !!! vi in
  let rdir := ray_dirs before vi in
  let s := mask_weight model mask vi in
  let fwd := RayTrianglesIntersectionSoA rpos rdir soa (num_triangles target) in
  let bwd := RayTrianglesIntersectionSoA rpos (- rdir)%v3 soa (num_triangles target) in
  let found := project_find target to_local soa mode max_distance rpos rdir in
  let unmodified :=
    vertices after !! vi = vertices model !! vi /\
    normal_at after vi = normal_at model vi /\
    tangent_at after vi = tangent_at model vi in
  (~ hits_within max_distance fwd -> ~ hits_within max_distance bwd -> unmodified) /\
  (s == 0 -> unmodified) /\
  (forall h, ~ s == 0 -> found = Some h ->
     vertices after !! vi
       = (fun v => if pnt_bit PNT 1 then mu.lerp v (rvertex h) s else v)
           <$> vertices model !! vi /\
     normal_at after vi
       = (fun n => if pnt_bit PNT 2 then normalize (mu.lerp n (rnormal h) s) else n)
           <$> normal_at model vi /\
     tangent_at after vi
       = (fun t => if pnt_bit PNT 4
                   then mu.set_xyz t (normalize (mu.lerp (mu.xyz t)
                                                         (mu.xyz (rtangents h)) s))
                   else t)
           <$> tangent_at model vi) /\
  (found = None <->
   (uses_forward mode = true -> ~ hits_within max_distance fwd) /\
   (uses_backward mode = true -> ~ hits_within max_distance bwd)) /\
  (mode = ForwardAndBackward ->
   hits_within max_distance fwd -> hits_within max_distance bwd ->
   exists h, found = Some h /\
     if fltb (snd bwd) (snd fwd)
     then min_distance h = snd bwd /\ rvertex h = (rpos + (- rdir) * snd bwd)%v3
     else min_distance h = snd fwd /\ rvertex h = (rpos + rdir * snd fwd)%v3).
Proof.
  intros Hvi to_local soa before after rpos rdir s fwd bwd found unmodified.
  set (step := project_vertex target to_local soa ray_dirs mode max_distance PNT mask).
  (* the loop: before, the iteration of [vi], the rest *)
  assert (Hafter : after = fold_left step (seq (S vi) (num_vertices model - S vi))
                                     (step before vi)).
  { subst after before. unfold npProjectVerticesImpl, project_reach.
    fold to_local soa step.
    replace (num_vertices model) with (vi + S (num_vertices model - S vi))%nat at 1
      by lia.
    rewrite seq_app, fold_left_app. reflexivity. }
  destruct (project_fold_other target to_local soa ray_dirs mode max_distance PNT mask
              (seq (S vi) (num_vertices model - S vi)) (step before vi) vi)
    as (A1 & A2 & A3 & _).
  { rewrite elem_of_seq. lia. }
  destruct (project_fold_other target to_local soa ray_dirs mode max_distance PNT mask
              (seq 0 vi) model vi) as (B1 & B2 & B3 & B4).
  { rewrite elem_of_seq. lia. }
  fold step in A1, A2, A3, B1, B2, B3, B4. rewrite <- Hafter in A1, A2, A3.
  change (fold_left step (seq 0 vi) model) with before in B1, B2, B3, B4.
  assert (Hs : mask_weight before mask vi = s).
  { subst s. unfold mask_weight. now rewrite B4. }
  assert (Hrpos : vertices before !!! vi = rpos).
  { subst rpos. now rewrite !list_lookup_total_alt, B1. }
  (* the iteration of [vi] *)
  assert (Hstep : step before vi
                  = if feqb s 0 then before
                    else match found with
                         | Some h => project_write before vi s PNT h
                         | None => before
                         end).
  { unfold step, project_vertex. rewrite Hs, Hrpos. reflexivity. }
  assert (Hkeep : step before vi = before -> unmodified).
  { intros Hk. subst unmodified. rewrite A1, A2, A3, Hk. auto. }
  (* the casts *)
  destruct (project_cast_first target to_local soa max_distance rpos rdir)
    as [Ff Fn].
  destruct (project_cast_first target to_local soa max_distance rpos (- rdir)%v3)
    as [Bf Bn].
  fold fwd in Ff, Fn. fold bwd in Bf, Bn.
  assert (Hdec : forall r, hits_within max_distance r \/ ~ hits_within max_distance r).
  { intros r. destruct (hits_within_dec max_distance r) as [H1 H2].
    destruct ((0 <? fst (fst r))%Z && fltb (snd r) max_distance);
      [left; now apply H1 | right; intros Hh; apply H2 in Hh; discriminate]. }
  split; [|split; [|split; [|split]]].
  - intros Hnf Hnb. apply Hkeep. rewrite Hstep.
    destruct (feqb s 0); [reflexivity |].
    assert (Hnone : found = None).
    { subst found. unfold project_find.
      destruct mode; cbn [uses_forward uses_backward];
        rewrite ?(Fn Hnf); rewrite ?(Bn Hnb); reflexivity. }
    now rewrite Hnone.
  - intros Hz. apply Hkeep. rewrite Hstep.
    apply feqb_true in Hz. now rewrite Hz.
  - intros h Hnz Hfound. rewrite A1, A2, A3, Hstep.
    apply feqb_false in Hnz. rewrite Hnz, Hfound.
    destruct (project_write_self before vi s PNT h) as (W1 & W2 & W3).
    rewrite W1, W2, W3, B1, B2, B3. auto.
  - subst found. unfold project_find.
    destruct (Hdec fwd) as [Hf | Hf], (Hdec bwd) as [Hb | Hb];
      destruct mode; cbn [uses_forward uses_backward];
      try (destruct (Ff Hf) as (hf & -> & _));
      try rewrite (Fn Hf);
      try (destruct (Bf Hb) as (hb & -> & _));
      try rewrite (Bn Hb);
      try (match goal with
           | |- context [project_cast ?t ?l ?s ?m ?p ?d (Some ?h0)] =>
               destruct (project_cast_second t l s m p d h0) as (h2 & -> & _)
           end);
      (split;
       [ intros Hn; try discriminate Hn; split; intros Hu; try discriminate Hu;
         assumption
       | intros [H1 H2]; try reflexivity; exfalso;
         first [ now apply H1 | now apply H2 ] ]).
  - intros -> Hf Hb. subst found. unfold project_find. cbn [uses_forward uses_backward].
    destruct (Ff Hf) as (h0 & -> & Hm0 & Hv0).
    destruct (project_cast_second target to_local soa max_distance rpos (- rdir)%v3 h0)
      as (h & -> & Hcloser & Hsame).
    fold bwd in Hcloser, Hsame. exists h. split; [reflexivity |].
    destruct (fltb (snd bwd) (snd fwd)) eqn:Ec.
    + apply fltb_true in Ec. apply Hcloser; [exact Hb | now rewrite Hm0].
    + apply fltb_false in Ec. rewrite Hsame; [auto |].
      intros [_ Hlt]. rewrite Hm0 in Hlt. lra.
Qed.

End ProjectionTheorem.

(** ** Skinning *)

#[global] Instance float3_eq_equiv : Equivalence float3_eq.
Proof.
  split.
  - intros a. unfold float3_eq. repeat split; reflexivity.
  - intros a b (H1 & H2 & H3). unfold float3_eq. repeat split; now symmetry.
  - intros a b c (H1 & H2 & H3) (G1 & G2 & G3). unfold float3_eq.
    repeat split; etransitivity; eauto.
Qed.

Lemma mul_p_proper (m : float4x4) (a b : float3) :
  float3_eq a b -> float3_eq (mu.mul_p m a) (mu.mul_p m b).
Proof.
  intros (H1 & H2 & H3). unfold float3_eq, mu.mul_p. cbn [x3 y3 z3].
  rewrite H1, H2, H3. repeat split; reflexivity.
Qed.

Lemma scale3_proper (a b : float3) (s t : Q) :
  float3_eq a b -> (s == t)%Q -> float3_eq (a * s)%v3 (b * t)%v3.
Proof.
  intros (H1 & H2 & H3) Hs. unfold float3_eq, mu.scale3. cbn [x3 y3 z3].
  rewrite H1, H2, H3, Hs. repeat split; reflexivity.
Qed.

Lemma scale3_one (a : float3) : float3_eq (a * 1)%v3 a.
Proof. unfold float3_eq, mu.scale3. cbn [x3 y3 z3]. repeat split; ring. Qed.

(** The pose of a bone whose bind pose, current transform and root are
    the identity maps every point to itself. *)
Lemma mul_p_identity_pose (p : float3) :
  float3_eq
    (mu.mul_p (mu.mul44 (mu.mul44 mu.identity44 mu.identity44)
                        (inv.invert mu.identity44)) p) p.
Proof.
  set (M := mu.mul44 _ _).
  let M' := eval vm_compute in M in change M with M'.
  unfold float3_eq, mu.mul_p. cbn [x3 y3 z3 x4 y4 z4 w4 m0 m1 m2 m3].
  repeat split; field.
Qed.

(** The inverse of an invertible affine matrix undoes it on points. *)
Lemma invert_affine (m : float4x4) (p : float3) :
  affine m -> ~ (inv.det m == 0)%Q ->
  float3_eq (mu.mul_p (inv.invert m) (mu.mul_p m p)) p.
Proof.
  destruct m as [[a00 a01 a02 a03] [a10 a11 a12 a13] [a20 a21 a22 a23]
                   [a30 a31 a32 a33]].
  destruct p as [x y z].
  unfold affine. cbn [w4 m0 m1 m2 m3]. intros (H0 & H1 & H2 & H3) Hdet.
  unfold float3_eq, mu.mul_p, inv.invert, inv.inv_row, inv.inv_entry in *.
  unfold inv.det, inv.cofactor, inv.minor, inv.sub_entry, inv.det3, inv.entry,
    inv.row, inv.comp, inv.skip in *.
  cbn [x3 y3 z3 x4 y4 z4 w4 m0 m1 m2 m3 Nat.ltb Nat.leb Nat.even Nat.add] in *.
  rewrite H0, H1, H2, H3 in *.
  repeat split;
    (field; intro Hc; apply Hdet; (etransitivity; [|exact Hc]); ring).
Qed.

Section Skinning.
Context {E : muExternals}.
Local Open Scope Q_scope.

(** When every influence of non-zero weight uses the pose [M], the blend
    is the image under [M] scaled by the sum of the weights. *)
Lemma skin_point_common (poses : list float4x4) (w : Weights) (M : float4x4)
    (p : float3) :
  (forall b, (b < 4)%nat ->
     weights w !!! b == 0 \/ poses !!! (bone_indices w !!! b) = M) ->
  float3_eq (skin_point 4 poses w p) (mu.mul_p M p * weight_sum w)%v3.
Proof.
  intros Hb.
  assert (Hterm : forall b, (b < 4)%nat ->
            float3_eq (mu.mul_p (poses !!! (bone_indices w !!! b)) p * (weights w !!! b))%v3
                      (mu.mul_p M p * (weights w !!! b))%v3).
  { intros b Hlt. destruct (Hb b Hlt) as [Hz | ->]; [|reflexivity].
    unfold float3_eq, mu.scale3. cbn [x3 y3 z3]. rewrite Hz.
    repeat split; ring. }
  destruct (Hterm 0%nat ltac:(lia)) as (X0 & Y0 & Z0).
  destruct (Hterm 1%nat ltac:(lia)) as (X1 & Y1 & Z1).
  destruct (Hterm 2%nat ltac:(lia)) as (X2 & Y2 & Z2).
  destruct (Hterm 3%nat ltac:(lia)) as (X3 & Y3 & Z3).
  unfold skin_point, weight_sum, float3_eq.
  cbn [fold_left seq mu.add3 mu.zero3 x3 y3 z3].
  rewrite X0, X1, X2, X3, Y0, Y1, Y2, Y3, Z0, Z1, Z2, Z3.
  unfold mu.scale3. cbn [x3 y3 z3]. repeat split; ring.
Qed.

(** The position stream writes the blend of every vertex in its slot. *)
Lemma skin_stream_lookup {A : Type} `{Inhabited A} (n : nat) (wts : list Weights)
    (blend : Weights -> A -> A) (ibuf obuf : list A) (vi : nat) :
  (vi < n)%nat -> (vi < length obuf)%nat ->
  exists out, skin_stream n wts blend (Some ibuf) (Some obuf) = Some out /\
              length out = length obuf /\
              out !!! vi = blend (wts !!! vi) (ibuf !!! vi).
Proof.
  intros Hn Hl. unfold skin_stream. eexists. split; [reflexivity |].
  destruct (fold_slots (St := list A) (fun l => l)
              (fun obuf vi => <[vi := blend (wts !!! vi) (ibuf !!! vi)]> obuf)
              (fun i _ => blend (wts !!! i) (ibuf !!! i))) with
    (k := n) (s0 := obuf) (j := vi) as [Hlen Hv].
  - intros. apply length_insert.
  - intros. now apply list_lookup_total_insert_eq.
  - intros. now apply list_lookup_total_insert_ne.
  - exact Hl.
  - split; [exact Hlen |]. rewrite Hv. destruct (decide (vi < n)%nat); [reflexivity | lia].
Qed.

(** C3 (as amended, in exact arithmetic).  Take a vertex [vi] whose four
    bone indices are in range.
    - When the root, every bind pose and every bone transform are the
      identity, [npApplySkinning] writes the input position scaled by the
      sum of the four weights of the vertex: the position itself when the
      weights sum to 1.
    - When the weights of the vertex sum to 1 and all its influences of
      non-zero weight use bones with one and the same pose, affine and of
      non-zero determinant, [npApplySkinning] followed by
      [npApplyReverseSkinning] gives back the input position. *)
Theorem skinning_positions (skin : npSkinData) (ipoints opoints : list float3)
    (vi : nat) :
  (vi < skin_num_vertices skin)%nat -> (vi < length opoints)%nat ->
  let w := skin_weights skin !!! vi in
  (forall b, (b < 4)%nat -> (bone_indices w !!! b < num_bones skin)%nat) ->
  exists out,
    skinned_points skin ipoints opoints = Some out /\
    (root skin = mu.identity44 ->
     (forall bi, (bi < num_bones skin)%nat ->
        bindposes skin !!! bi = mu.identity44 /\ bones skin !!! bi = mu.identity44) ->
     float3_eq (out !!! vi) (ipoints !!! vi * weight_sum w)%v3 /\
     (weight_sum w == 1 -> float3_eq (out !!! vi) (ipoints !!! vi))) /\
    (forall M,
       weight_sum w == 1 -> affine M -> ~ inv.det M == 0 ->
       (forall b, (b < 4)%nat ->
          weights w !!! b == 0 \/ skin_pose skin (bone_indices w !!! b) = M) ->
       exists back,
         unskinned_points skin out opoints = Some back /\
         float3_eq (back !!! vi) (ipoints !!! vi)).
Proof.
  intros Hvi Hlen w Hidx.
  unfold skinned_points, unskinned_points, npApplySkinning, npApplyReverseSkinning,
    SkinningImpl. cbn [fst].
  set (poses := map (skin_pose skin) (seq 0 (num_bones skin))).
  set (rposes := map (fun bi => inv.invert (skin_pose skin bi)) (seq 0 (num_bones skin))).
  destruct (skin_stream_lookup (skin_num_vertices skin) (skin_weights skin)
              (skin_point 4 poses) ipoints opoints vi Hvi Hlen)
    as (out & Hout & Hol & Hov).
  exists out. split; [exact Hout |]. fold w in Hov.
  assert (Hpose : forall b, (b < 4)%nat ->
            poses !!! (bone_indices w !!! b) = skin_pose skin (bone_indices w !!! b)).
  { intros b Hb. subst poses. apply lookup_total_map_seq. now apply Hidx. }
  assert (Hrpose : forall b, (b < 4)%nat ->
            rposes !!! (bone_indices w !!! b)
            = inv.invert (skin_pose skin (bone_indices w !!! b))).
  { intros b Hb. subst rposes.
    apply (lookup_total_map_seq (fun bi => inv.invert (skin_pose skin bi))).
    now apply Hidx. }
  split.
  - intros Hroot Hbones.
    assert (Hs : float3_eq (out !!! vi) (ipoints !!! vi * weight_sum w)%v3).
    { rewrite Hov.
      rewrite (skin_point_common poses w
                 (mu.mul44 (mu.mul44 mu.identity44 mu.identity44)
                           (inv.invert mu.identity44))).
      - apply scale3_proper; [apply mul_p_identity_pose | reflexivity].
      - intros b Hb. right. rewrite Hpose by exact Hb. unfold skin_pose.
        destruct (Hbones (bone_indices w !!! b) (Hidx b Hb)) as [-> ->].
        now rewrite Hroot. }
    split; [exact Hs |]. intros H1. rewrite Hs.
    rewrite (scale3_proper _ (ipoints !!! vi) _ 1); [apply scale3_one | reflexivity | exact H1].
  - intros M H1 Haff Hdet HM.
    destruct (skin_stream_lookup (skin_num_vertices skin) (skin_weights skin)
                (skin_point 4 rposes) out opoints vi Hvi Hlen)
      as (back & Hback & _ & Hbv).
    exists back. split; [exact Hback |]. fold w in Hbv. rewrite Hbv, Hov.
    rewrite (skin_point_common rposes w (inv.invert M)).
    2:{ intros b Hb. destruct (HM b Hb) as [Hz | HMb]; [now left | right].
        rewrite Hrpose by exact Hb. now rewrite HMb. }
    rewrite (scale3_proper _ (mu.mul_p (inv.invert M) (skin_point 4 poses w (ipoints !!! vi)))
               _ 1); [|reflexivity | exact H1].
    rewrite scale3_one.
    rewrite (mul_p_proper (inv.invert M) _ (mu.mul_p M (ipoints !!! vi))).
    + now apply invert_affine.
    + rewrite (skin_point_common poses w M).
      * rewrite (scale3_proper _ (mu.mul_p M (ipoints !!! vi)) _ 1);
          [apply scale3_one | reflexivity | exact H1].
      * intros b Hb. destruct (HM b Hb) as [Hz | HMb]; [now left | right].
        rewrite Hpose by exact Hb. exact HMb.
Qed.

End Skinning.

(** C3 (as stated) fails.  With identity transforms and one influence of
    weight one half, the vertex at [(1, 2, 3)] goes to [(1/2, 1, 3/2)].
    With a vertex bound in equal parts to a bone that doubles and a bone
    that halves, both invertible, skinning and then reverse skinning take
    [(1, 0, 0)] to [(25/16, 0, 0)]. *)
Lemma skinning_counterexample :
  (exists v, skinned_points (E := Ref.externals) Sample.half_bound
                            [mkfloat3 1 2 3] [mu.zero3] = Some [v] /\
             x3 v == 1 # 2 /\ ~ float3_eq v (mkfloat3 1 2 3))%Q /\
  (exists out v,
     skinned_points (E := Ref.externals) Sample.two_bones
                    [mkfloat3 1 0 0] [mu.zero3] = Some out /\
     unskinned_points (E := Ref.externals) Sample.two_bones out [mu.zero3]
       = Some [v] /\
     x3 v == 25 # 16 /\ ~ float3_eq v (mkfloat3 1 0 0))%Q.
Proof.
  split.
  - eexists. split; [vm_compute; reflexivity |].
    split; [reflexivity |]. intros (H & _). vm_compute in H. discriminate.
  - eexists. eexists. split; [vm_compute; reflexivity |].
    split; [vm_compute; reflexivity |].
    split; [reflexivity |]. intros (H & _). vm_compute in H. discriminate.
Qed.

(** ** Weld *)

Lemma fold_insert_same {A : Type} `{Inhabited A} (x : A) (sh : list nat)
    (l : list A) (j : nat) :
  length (fold_left (fun l si => <[si := x]> l) sh l) = length l /\
  (j ∉ sh -> fold_left (fun l si => <[si := x]> l) sh l !!! j = l !!! j) /\
  (j ∈ sh -> (j < length l)%nat ->
   fold_left (fun l si => <[si := x]> l) sh l !!! j = x).
Proof.
  revert l. induction sh as [|si sh IH]; intros l; cbn.
  - split; [reflexivity | split; [reflexivity |]]. intros Hin. inversion Hin.
  - destruct (IH (<[si := x]> l)) as (Hl & Hout & Hin).
    rewrite length_insert in Hl, Hin.
    split; [exact Hl | split].
    + intros Hnin. apply not_elem_of_cons in Hnin. destruct Hnin as [Hne Hnin].
      rewrite Hout by exact Hnin. now apply list_lookup_total_insert_ne.
    + intros Hj Hlt. destruct (decide (j ∈ sh)) as [Hs | Hs]; [now apply Hin |].
      rewrite Hout by exact Hs. apply elem_of_cons in Hj.
      destruct Hj as [-> | Hj]; [|contradiction].
      now apply list_lookup_total_insert_eq.
Qed.

Section Weld.
Context {E : muExternals}.
Local Open Scope Q_scope.

Variables (model : npMeshData) (smoothing : bool) (weld_angle : Q) (mask : bool).

(** The inner loop over the indices [l], from the running normal [n0],
    the group [sh0] and the flags [ch0]: flags are only ever set; a vertex
    that joins the group is not the seed, was not flagged, lies closer
    than [npEpsilon] to the seed position [p], and is flagged from then
    on. *)
Lemma weld_gather_fold (nrm : list float3) (vi : nat) (p : float3) (l : list nat) :
  forall (n0 : float3) (sh0 : list nat) (ch0 : list bool),
    let r := fold_left (weld_gather_step model nrm smoothing weld_angle vi p) l
                       (n0, sh0, ch0) in
    length (snd r) = length ch0 /\
    (forall j, ch0 !!! j = true -> snd r !!! j = true) /\
    (forall si, si ∈ snd (fst r) ->
       si ∈ sh0 \/
       (si ∈ l /\ si <> vi /\ ch0 !!! si = false /\
        length3 (vertices model !!! si - p)%v3 < npEpsilon /\
        ((si < length ch0)%nat -> snd r !!! si = true))).
Proof.
  induction l as [|i l IH]; intros n0 sh0 ch0; cbn [fold_left].
  - cbn. repeat split; auto.
  - assert (Hstep :
      weld_gather_step model nrm smoothing weld_angle vi p (n0, sh0, ch0) i
      = if negb (vi =? i)%nat && negb (ch0 !!! i)
           && fltb (length3 (vertices model !!! i - p)%v3) npEpsilon
           && fleb (angle_between n0 (nrm !!! i) * Rad2Deg) weld_angle
        then ((if smoothing then (n0 + nrm !!! i)%v3 else n0), sh0 ++ [i],
              <[i := true]> ch0)
        else (n0, sh0, ch0)) by reflexivity.
    rewrite Hstep. clear Hstep.
    destruct (negb (vi =? i)%nat && negb (ch0 !!! i)
              && fltb (length3 (vertices model !!! i - p)%v3) npEpsilon
              && fleb (angle_between n0 (nrm !!! i) * Rad2Deg) weld_angle) eqn:Et.
    + apply andb_true_iff in Et. destruct Et as [Et _].
      apply andb_true_iff in Et. destruct Et as [Et Hd].
      apply andb_true_iff in Et. destruct Et as [Hne Hch].
      apply negb_true_iff in Hne, Hch. apply Nat.eqb_neq in Hne.
      apply fltb_true in Hd.
      specialize (IH (if smoothing then (n0 + nrm !!! i)%v3 else n0)
                     (sh0 ++ [i]) (<[i := true]> ch0)).
      cbn zeta in IH. destruct IH as (Hl & Hmono & Hsh).
      rewrite length_insert in Hl, Hsh.
      assert (Hup : forall j, ch0 !!! j = true -> <[i := true]> ch0 !!! j = true).
      { intros j Hj. destruct (decide (i = j)) as [-> | Hij]; [congruence |].
        now rewrite list_lookup_total_insert_ne. }
      split; [exact Hl | split].
      * intros j Hj. apply Hmono. now apply Hup.
      * intros si Hsi. destruct (Hsh si Hsi) as [Hin | (H1 & H2 & H3 & H4 & H5)].
        -- apply elem_of_app in Hin. destruct Hin as [Hin | Hin]; [now left |].
           apply list_elem_of_singleton in Hin. subst si. right.
           split; [left | split; [congruence | split; [exact Hch | split; [exact Hd |]]]].
           intros Hlt. apply Hmono. now apply list_lookup_total_insert_eq.
        -- right. split; [now right | split; [exact H2 | split; [|split; [exact H4 | exact H5]]]].
           destruct (ch0 !!! si) eqn:Ec; [|reflexivity].
           rewrite (Hup si Ec) in H3. discriminate.
    + specialize (IH n0 sh0 ch0). cbn zeta in IH.
      destruct IH as (Hl & Hmono & Hsh).
      split; [exact Hl | split; [exact Hmono |]].
      intros si Hsi. destruct (Hsh si Hsi) as [Hin | (H1 & H2 & H3 & H4 & H5)];
        [now left | right].
      split; [now right | auto].
Qed.

(** The group only grows. *)
Lemma weld_gather_grows (nrm : list float3) (vi : nat) (p : float3) (l : list nat) :
  forall (n0 : float3) (sh0 : list nat) (ch0 : list bool) (s : nat),
    s ∈ sh0 ->
    s ∈ snd (fst (fold_left (weld_gather_step model nrm smoothing weld_angle vi p) l
                            (n0, sh0, ch0))).
Proof.
  induction l as [|i l IH]; intros n0 sh0 ch0 s Hs; cbn [fold_left]; [exact Hs |].
  unfold weld_gather_step at 2.
  destruct (_ && _ && _ && _); apply IH; [|exact Hs].
  apply elem_of_app. now left.
Qed.

(** Without smoothing the running normal stays the normal of the seed, and
    the inner loop misses no vertex that passes its test. *)
Lemma weld_gather_complete (nrm : list float3) (vi : nat) (p : float3)
    (l : list nat) :
  smoothing = false -> NoDup l ->
  forall (n0 : float3) (sh0 : list nat) (ch0 : list bool) (i : nat),
    i ∈ l -> i <> vi -> ch0 !!! i = false ->
    length3 (vertices model !!! i - p)%v3 < npEpsilon ->
    angle_between n0 (nrm !!! i) * Rad2Deg <= weld_angle ->
    i ∈ snd (fst (fold_left (weld_gather_step model nrm smoothing weld_angle vi p) l
                            (n0, sh0, ch0))).
Proof.
  intros Hsm. induction l as [|j l IH]; intros Hnd n0 sh0 ch0 i Hi Hne Hch Hd Ha.
  - inversion Hi.
  - apply NoDup_cons in Hnd. destruct Hnd as [Hj Hnd].
    cbn [fold_left].
    assert (Hstep :
      weld_gather_step model nrm smoothing weld_angle vi p (n0, sh0, ch0) j
      = if negb (vi =? j)%nat && negb (ch0 !!! j)
           && fltb (length3 (vertices model !!! j - p)%v3) npEpsilon
           && fleb (angle_between n0 (nrm !!! j) * Rad2Deg) weld_angle
        then (n0, sh0 ++ [j], <[j := true]> ch0)
        else (n0, sh0, ch0)) by (unfold weld_gather_step; now rewrite Hsm).
    rewrite Hstep. clear Hstep.
    apply elem_of_cons in Hi. destruct Hi as [-> | Hi].
    + assert (Ht : negb (vi =? j)%nat && negb (ch0 !!! j)
                   && fltb (length3 (vertices model !!! j - p)%v3) npEpsilon
                   && fleb (angle_between n0 (nrm !!! j) * Rad2Deg) weld_angle = true).
      { rewrite Hch. apply fltb_true in Hd. apply fleb_true in Ha. rewrite Hd, Ha.
        assert (Hv : (vi =? j)%nat = false) by (apply Nat.eqb_neq; congruence).
        now rewrite Hv. }
      rewrite Ht. apply weld_gather_grows. apply elem_of_app. right.
      now apply list_elem_of_singleton.
    + assert (Hij : j <> i) by (intros ->; contradiction).
      destruct (_ && _ && _ && _); apply IH; auto.
      now rewrite list_lookup_total_insert_ne.
Qed.

(** What the inner loop yields for the seed [vi] from the state [st]. *)
Lemma weld_gather_spec (st : weld_state) (vi : nat) :
  let r := weld_gather model (w_normals st) smoothing weld_angle vi (w_checked st) in
  length (snd r) = length (w_checked st) /\
  (forall j, w_checked st !!! j = true -> snd r !!! j = true) /\
  (forall si, si ∈ snd (fst r) ->
     (si < num_vertices model)%nat /\ si <> vi /\ w_checked st !!! si = false /\
     length3 (vertices model !!! si - vertices model !!! vi)%v3 < npEpsilon /\
     ((si < length (w_checked st))%nat -> snd r !!! si = true)).
Proof.
  intros r. subst r. unfold weld_gather.
  destruct (weld_gather_fold (w_normals st) vi (vertices model !!! vi)
              (seq 0 (num_vertices model)) (w_normals st !!! vi) [] (w_checked st))
    as (Hl & Hmono & Hsh).
  split; [exact Hl | split; [exact Hmono |]].
  intros si Hsi. destruct (Hsh si Hsi) as [Hin | (H1 & H2 & H3 & H4 & H5)].
  - inversion Hin.
  - apply elem_of_seq in H1. repeat split; auto; lia.
Qed.

Lemma weld_step_unfold (st : weld_state) (vi : nat) :
  weld_step model smoothing weld_angle mask st vi
  = if weld_is_seed model mask st vi then
      let r := weld_gather model (w_normals st) smoothing weld_angle vi
                           (w_checked st) in
      match snd (fst r) with
      | [] => mkweld_state (w_normals st) (snd r) (w_ret st)
      | _ :: _ =>
          mkweld_state
            (fold_left (fun nrm si => <[si := normalize (fst (fst r))]> nrm)
                       (snd (fst r))
                       (<[vi := normalize (fst (fst r))]> (w_normals st)))
            (snd r) (w_ret st + 1)
      end
    else st.
Proof.
  unfold weld_step. destruct (weld_is_seed model mask st vi); [|reflexivity].
  cbn zeta. destruct (weld_gather _ _ _ _ _ _) as [[n shared] checked].
  cbn [fst snd]. destruct shared; reflexivity.
Qed.

Lemma weld_step_lengths (st : weld_state) (vk : nat) :
  length (w_checked (weld_step model smoothing weld_angle mask st vk))
    = length (w_checked st) /\
  length (w_normals (weld_step model smoothing weld_angle mask st vk))
    = length (w_normals st).
Proof.
  rewrite weld_step_unfold. destruct (weld_is_seed model mask st vk); [|auto].
  cbn zeta. destruct (weld_gather_spec st vk) as (Hl & _).
  destruct (snd (fst (weld_gather _ _ _ _ _ _))) eqn:Es; cbn [w_checked w_normals].
  - auto.
  - split; [exact Hl |].
    match goal with
    | |- length (fold_left _ ?sh ?l0) = _ =>
        destruct (fold_insert_same (normalize (fst (fst (weld_gather model (w_normals st)
                     smoothing weld_angle vk (w_checked st))))) sh l0 0%nat) as (H & _)
    end.
    rewrite H. apply length_insert.
Qed.

Lemma weld_loop_lengths (k : nat) :
  length (w_checked (weld_loop model smoothing weld_angle mask k))
    = num_vertices model /\
  length (w_normals (weld_loop model smoothing weld_angle mask k))
    = length (normals_of model).
Proof.
  unfold weld_loop. induction k as [|k [IH1 IH2]].
  - cbn. now rewrite length_replicate.
  - rewrite fold_left_seq_S.
    destruct (weld_step_lengths
                (fold_left (weld_step model smoothing weld_angle mask) (seq 0 k)
                   (mkweld_state (normals_of model)
                                 (replicate (num_vertices model) false) 0)) k)
      as [H1 H2].
    rewrite H1, H2. auto.
Qed.

(** A flagged vertex stays flagged and keeps its normal. *)
Lemma weld_step_checked (st : weld_state) (vk j : nat) :
  w_checked st !!! j = true ->
  w_checked (weld_step model smoothing weld_angle mask st vk) !!! j = true /\
  w_normals (weld_step model smoothing weld_angle mask st vk) !!! j
    = w_normals st !!! j.
Proof.
  intros Hj. rewrite weld_step_unfold.
  destruct (weld_is_seed model mask st vk) eqn:Eseed; [|auto].
  cbn zeta. destruct (weld_gather_spec st vk) as (Hl & Hmono & Hsh).
  unfold weld_is_seed in Eseed. apply andb_true_iff in Eseed.
  destruct Eseed as [Hun _]. apply negb_true_iff in Hun.
  assert (Hjk : vk <> j) by congruence.
  destruct (snd (fst (weld_gather _ _ _ _ _ _))) as [|s0 sh] eqn:Es;
    cbn [w_checked w_normals].
  - split; [now apply Hmono | reflexivity].
  - split; [now apply Hmono |].
    assert (Hnin : j ∉ s0 :: sh).
    { intros Hin. destruct (Hsh j Hin) as (_ & _ & Hf & _). congruence. }
    match goal with
    | |- fold_left _ ?l ?l0 !!! j = _ =>
        destruct (fold_insert_same (normalize (fst (fst (weld_gather model (w_normals st)
                     smoothing weld_angle vk (w_checked st))))) l l0 j) as (_ & H & _)
    end.
    rewrite H by exact Hnin. now apply list_lookup_total_insert_ne.
Qed.

Lemma weld_fold_checked (l : list nat) (st : weld_state) (j : nat) :
  w_checked st !!! j = true ->
  w_normals (fold_left (weld_step model smoothing weld_angle mask) l st) !!! j
    = w_normals st !!! j.
Proof.
  revert st. induction l as [|vk l IH]; intros st Hj; cbn; [reflexivity |].
  destruct (weld_step_checked st vk j Hj) as [Hc Hn].
  rewrite IH by exact Hc. exact Hn.
Qed.

Lemma members_before_all (k : nat) (l : list nat) :
  (forall s, s ∈ l -> (s < k)%nat) -> members_before k l = l.
Proof.
  unfold members_before. induction l as [|a l IH]; intros Hl; [reflexivity |].
  cbn [List.filter].
  assert (Ha : (a <? k)%nat = true) by (apply Nat.ltb_lt, Hl; now left).
  rewrite Ha, IH; [reflexivity |]. intros s Hs. apply Hl. now right.
Qed.

Lemma members_before_snoc (i k : nat) (l : list nat) :
  (i <= k)%nat -> members_before i (l ++ [k]) = members_before i l.
Proof.
  intros Hik. unfold members_before. rewrite List.filter_app. cbn [List.filter].
  assert (Hk : (k <? i)%nat = false) by (apply Nat.ltb_ge; lia).
  rewrite Hk. apply app_nil_r.
Qed.

Lemma group_normal_snoc (nrm : list float3) (n0 : float3) (l : list nat) (k : nat) :
  group_normal smoothing nrm n0 (l ++ [k])
  = if smoothing then (group_normal smoothing nrm n0 l + nrm !!! k)%v3
    else group_normal smoothing nrm n0 l.
Proof.
  unfold group_normal. destruct smoothing; [| reflexivity].
  now rewrite fold_left_app.
Qed.

(** The inner loop after the indices [0 .. k): the running normal is the
    normal of the group, the group holds indices below [k] only, the
    flags from [k] on are untouched, and an index below [k] is in the
    group exactly when it passed the four tests of the loop, the last of
    them against the normal of the group as it was then. *)
Lemma weld_gather_prefix (nrm : list float3) (vi : nat) (ch0 : list bool)
    (k : nat) :
  let n0 := nrm !!! vi in
  let r := fold_left (weld_gather_step model nrm smoothing weld_angle vi
                                       (vertices model !!! vi))
                     (seq 0 k) (n0, [], ch0) in
  let shared := snd (fst r) in
  fst (fst r) = group_normal smoothing nrm n0 shared /\
  (forall s, s ∈ shared -> (s < k)%nat) /\
  (forall j, (k <= j)%nat -> snd r !!! j = ch0 !!! j) /\
  (forall i, (i < k)%nat ->
     i ∈ shared <->
     i <> vi /\ ch0 !!! i = false /\
     length3 (vertices model !!! i - vertices model !!! vi)%v3 < npEpsilon /\
     angle_between (group_normal smoothing nrm n0 (members_before i shared))
                   (nrm !!! i) * Rad2Deg <= weld_angle).
Proof.
  intros n0. induction k as [|k IH]; intros r shared; subst r shared.
  - cbn [seq fold_left fst snd]. split; [now destruct smoothing |].
    split; [intros s Hs; inversion Hs |]. split; [reflexivity | intros; lia].
  - rewrite fold_left_seq_S. cbv zeta in IH.
    destruct (fold_left _ (seq 0 k) (n0, [], ch0)) as [[n sh] ch] eqn:Ef.
    cbn [fst snd] in IH. destruct IH as (In & Ilt & Ich & Imem).
    assert (Hstep :
      weld_gather_step model nrm smoothing weld_angle vi (vertices model !!! vi)
                       (n, sh, ch) k
      = if negb (vi =? k)%nat && negb (ch !!! k)
           && fltb (length3 (vertices model !!! k - vertices model !!! vi)%v3)
                   npEpsilon
           && fleb (angle_between n (nrm !!! k) * Rad2Deg) weld_angle
        then ((if smoothing then (n + nrm !!! k)%v3 else n), sh ++ [k],
              <[k := true]> ch)
        else (n, sh, ch)) by reflexivity.
    rewrite Hstep. clear Hstep.
    assert (Hk : ch !!! k = ch0 !!! k) by (apply Ich; lia).
    assert (Htest :
      negb (vi =? k)%nat && negb (ch !!! k)
      && fltb (length3 (vertices model !!! k - vertices model !!! vi)%v3) npEpsilon
      && fleb (angle_between n (nrm !!! k) * Rad2Deg) weld_angle = true
      <-> k <> vi /\ ch0 !!! k = false /\
          length3 (vertices model !!! k - vertices model !!! vi)%v3 < npEpsilon /\
          angle_between (group_normal smoothing nrm n0 sh) (nrm !!! k) * Rad2Deg
            <= weld_angle).
    { rewrite !andb_true_iff, !negb_true_iff, Nat.eqb_neq, fltb_true, fleb_true.
      rewrite Hk, <- In. intuition congruence. }
    assert (Hnk : k ∉ sh) by (intros Hin; apply Ilt in Hin; lia).
    destruct (_ && _ && _ && _) eqn:Et; cbn [fst snd].
    + split; [rewrite group_normal_snoc, <- In; reflexivity |].
      split; [| split].
      * intros s Hs. apply elem_of_app in Hs. destruct Hs as [Hs | Hs].
        -- apply Ilt in Hs. lia.
        -- apply list_elem_of_singleton in Hs. lia.
      * intros j Hj. rewrite list_lookup_total_insert_ne by lia. apply Ich. lia.
      * intros i Hi. rewrite members_before_snoc by lia.
        destruct (decide (i = k)) as [-> | Hne].
        -- rewrite (members_before_all k sh Ilt).
           split; [intros _; now apply Htest | intros _; in_last].
        -- rewrite <- (Imem i ltac:(lia)). rewrite elem_of_app, list_elem_of_singleton.
           intuition lia.
    + split; [exact In | split; [| split]].
      * intros s Hs. apply Ilt in Hs. lia.
      * intros j Hj. apply Ich. lia.
      * intros i Hi. destruct (decide (i = k)) as [-> | Hne].
        -- rewrite (members_before_all k sh Ilt).
           split; [intros Hin; contradiction |].
           intros Hc. apply Htest in Hc. discriminate.
        -- apply Imem. lia.
Qed.

(** C4 (as amended).  Let the outer loop of [npWeld] reach [vi] and take
    it as a seed (not flagged, non-zero weight), and let the inner loop
    gather the group [shared] with running normal [n].  A vertex of the
    mesh is in the group exactly when it is another vertex than the seed,
    is not flagged as processed, lies closer than [npEpsilon] to the seed
    and has its normal within [weld_angle] of the normal of the group as
    it was when the loop reached the vertex: the normal of the seed, to
    which smoothing adds the normals of the members gathered before.  Two
    members need not be within [npEpsilon] of each other.  The running
    normal [n] is the normal of the whole group.  When the call returns
    every member holds the normal [normalize n], so any two members hold
    equal normals; the seed holds it as soon as its group, if not empty,
    is written.  Without smoothing the group misses no vertex that is not
    flagged, lies closer than [npEpsilon] to the seed and has its normal
    within [weld_angle] of the normal of the seed. *)
Theorem npWeld_group (vi : nat) :
  (vi < num_vertices model)%nat ->
  (num_vertices model <= length (normals_of model))%nat ->
  let st := weld_loop model smoothing weld_angle mask vi in
  weld_is_seed model mask st vi = true ->
  let r := weld_gather model (w_normals st) smoothing weld_angle vi (w_checked st) in
  let n := fst (fst r) in
  let shared := snd (fst r) in
  let welded := normals_of (fst (npWeld model smoothing weld_angle mask)) in
  (forall si, si ∈ shared ->
     si <> vi /\ (si < num_vertices model)%nat /\
     length3 (vertices model !!! si - vertices model !!! vi)%v3 < npEpsilon /\
     welded !!! si = normalize n) /\
  (forall i, (i < num_vertices model)%nat ->
     i ∈ shared <->
     i <> vi /\ w_checked st !!! i = false /\
     length3 (vertices model !!! i - vertices model !!! vi)%v3 < npEpsilon /\
     angle_between
       (group_normal smoothing (w_normals st) (w_normals st !!! vi)
                     (members_before i shared))
       (w_normals st !!! i) * Rad2Deg <= weld_angle) /\
  n = group_normal smoothing (w_normals st) (w_normals st !!! vi) shared /\
  (forall si sj, si ∈ shared -> sj ∈ shared -> welded !!! si = welded !!! sj) /\
  (shared <> [] ->
   w_normals (weld_loop model smoothing weld_angle mask (S vi)) !!! vi = normalize n) /\
  (smoothing = false ->
   forall si, (si < num_vertices model)%nat -> si <> vi ->
     w_checked st !!! si = false ->
     length3 (vertices model !!! si - vertices model !!! vi)%v3 < npEpsilon ->
     angle_between (w_normals st !!! vi) (w_normals st !!! si) * Rad2Deg <= weld_angle ->
     si ∈ shared).
Proof.
  intros Hvi Hlen st Hseed r n shared welded.
  destruct (weld_loop_lengths vi) as [Lc Ln]. fold st in Lc, Ln.
  destruct (weld_gather_spec st vi) as (Hl & Hmono & Hsh). fold r shared in Hl, Hmono, Hsh.
  (* the state after the iteration of the seed *)
  assert (Hnext : weld_loop model smoothing weld_angle mask (S vi)
                  = weld_step model smoothing weld_angle mask st vi).
  { unfold weld_loop. now rewrite fold_left_seq_S. }
  assert (Hstep : weld_step model smoothing weld_angle mask st vi
                  = match shared with
                    | [] => mkweld_state (w_normals st) (snd r) (w_ret st)
                    | _ :: _ =>
                        mkweld_state
                          (fold_left (fun nrm si => <[si := normalize n]> nrm) shared
                                     (<[vi := normalize n]> (w_normals st)))
                          (snd r) (w_ret st + 1)
                    end).
  { rewrite weld_step_unfold, Hseed. reflexivity. }
  (* the normal buffer returned *)
  assert (Hwelded : welded
                    = w_normals (fold_left (weld_step model smoothing weld_angle mask)
                                           (seq (S vi) (num_vertices model - S vi))
                                           (weld_step model smoothing weld_angle mask st vi))).
  { subst welded. unfold npWeld. cbn [fst].
    assert (Hsome : exists nrm, normals model = Some nrm).
    { unfold normals_of in Hlen. destruct (normals model); [eauto | cbn in Hlen; lia]. }
    destruct Hsome as [nrm Hn]. unfold normals_of, set_normals. cbn [normals].
    rewrite Hn. cbn [option_map default]. unfold weld_loop.
    replace (num_vertices model) with (S vi + (num_vertices model - S vi))%nat at 1
      by lia.
    rewrite seq_app, fold_left_app. cbn [Nat.add].
    rewrite fold_left_seq_S. reflexivity. }
  assert (Hmember : forall si, si ∈ shared -> welded !!! si = normalize n).
  { intros si Hsi. destruct (Hsh si Hsi) as (Hsn & Hne & Hun & Hd & Hset).
    rewrite Hwelded, weld_fold_checked.
    - rewrite Hstep. destruct shared as [|s0 sh] eqn:Es; [inversion Hsi |].
      cbn [w_normals].
      destruct (fold_insert_same (normalize n) (s0 :: sh)
                  (<[vi := normalize n]> (w_normals st)) si) as (_ & _ & Hin).
      apply Hin; [exact Hsi |]. rewrite length_insert. lia.
    - rewrite Hstep. destruct shared; cbn [w_checked]; apply Hset; lia. }
  destruct (weld_gather_prefix (w_normals st) vi (w_checked st)
              (num_vertices model)) as (Pn & _ & _ & Pmem).
  split; [| split; [exact Pmem | split; [exact Pn |]]].
  { intros si Hsi. destruct (Hsh si Hsi) as (Hsn & Hne & Hun & Hd & Hset).
    repeat split; auto. }
  split; [|split]; cycle 2.
  { intros Hsm si Hsi Hne Hun Hd Ha. subst shared r. unfold weld_gather.
    apply weld_gather_complete; auto.
    - apply NoDup_seq.
    - apply elem_of_seq. lia. }
  - intros si sj Hsi Hsj. now rewrite !Hmember.
  - intros Hne. rewrite Hnext, Hstep.
    destruct shared as [|s0 sh] eqn:Es; [congruence |]. cbn [w_normals].
    destruct (fold_insert_same (normalize n) (s0 :: sh)
                (<[vi := normalize n]> (w_normals st)) vi) as (_ & Hout & _).
    rewrite Hout.
    + apply list_lookup_total_insert_eq. lia.
    + intros Hin. destruct (Hsh vi Hin) as (_ & Hc & _). congruence.
Qed.

End Weld.

(** * The entry points on the sample meshes *)

Section Examples.
Local Open Scope Q_scope.
Local Existing Instance Ref.externals.

(** The exact arithmetic of the concrete library is a rounding in the
    sense of the theorems: it keeps the order and every integer. *)
Lemma exact_rounding : rounds_to_float (@fround Ref.externals).
Proof.
  split.
  - intros x y Hxy. exact Hxy.
  - intros k _. reflexivity.
Qed.

Lemma GetBrushSample_lookup_witness :
  GetBrushSample 2 2 [10; 20; 30] 3 = 10 /\
  GetBrushSample 0 2 [10; 20; 30] 3 = 30.
Proof.
  destruct (GetBrushSample_lookup exact_rounding 2 3 [10; 20; 30]) as (H1 & H2 & _).
  - reflexivity.
  - lia.
  - split; [exact H1 | exact H2].
Defined.

(** C2 (as stated) fails.  With three samples, index 0 taken as the
    centre sample and index 2 as the edge sample, a vertex on the rim of
    the brush does not read [bsamples[2]] and a vertex at the centre does
    not read [bsamples[0]]; and at an eighth of the radius the sample read
    is that of index 1, although the position on the curve, 1.75, is
    nearer to index 2.  Every number involved is one a [float] holds
    exactly. *)
Lemma GetBrushSample_counterexample :
  let bsamples := [10; 20; 30] in
  ~ GetBrushSample 1 1 bsamples 3 == bsamples !!! 2%nat /\
  ~ GetBrushSample 0 1 bsamples 3 == bsamples !!! 0%nat /\
  GetBrushSampleIndex (1 # 8) 1 3 = 1%Z /\
  (1 - (1 # 8) / 1) * inject_Z (3 - 1) == 7 # 4.
Proof. vm_compute. repeat split; discriminate. Qed.

(** C4 (as stated) fails, in both halves.  In [Sample.weld_chain] the
    vertices 1 and 2 are closer than [npEpsilon] and have the same normal;
    vertex 1 is welded to vertex 0, vertex 2 is too far from vertex 0 and
    keeps its normal, so they end with different normals.  In
    [Sample.weld_star] the vertices 1 and 2 are more than [npEpsilon]
    apart and both receive the normal of the group of vertex 0. *)
Lemma npWeld_counterexample :
  (let m := Sample.weld_chain in
   length3 (vertices m !!! 1%nat - vertices m !!! 2%nat)%v3 < npEpsilon /\
   normals_of m !!! 1%nat = normals_of m !!! 2%nat /\
   normals_of (fst (npWeld m false 90 false))
     = [mkfloat3 0 1 0; mkfloat3 0 1 0; mkfloat3 0 0 1]) /\
  (let m := Sample.weld_star in
   npEpsilon < length3 (vertices m !!! 1%nat - vertices m !!! 2%nat)%v3 /\
   normals_of m = [mkfloat3 0 0 1; mkfloat3 0 1 0; mkfloat3 1 0 0] /\
   normals_of (fst (npWeld m false 180 false))
     = [mkfloat3 0 0 1; mkfloat3 0 0 1; mkfloat3 0 0 1]).
Proof. vm_compute. repeat split. Qed.

Lemma npWeld_group_witness :
  let welded := normals_of (fst (npWeld Sample.weld_star false 180 false)) in
  welded !!! 1%nat = welded !!! 2%nat.
Proof.
  intros welded.
  assert (H0 : (0 < num_vertices Sample.weld_star)%nat) by (vm_compute; lia).
  assert (H1 : (num_vertices Sample.weld_star
                <= length (normals_of Sample.weld_star))%nat) by (vm_compute; lia).
  assert (H2 : weld_is_seed Sample.weld_star false
                            (weld_loop Sample.weld_star false 180 false 0) 0 = true)
    by (vm_compute; reflexivity).
  apply (proj1 (proj2 (proj2 (proj2
    (npWeld_group Sample.weld_star false 180 false 0 H0 H1 H2)))));
    vm_compute; repeat constructor.
Defined.

(** C5 (as stated) fails.  Vertex 0 of [Sample.near_plane] lies [2^-30]
    behind the plane [x = 0], within the tolerance of zero, and is not
    tagged -2: it is given its mirror partner, vertex 1.  Vertex 1, as
    close to the plane on the other side, is tagged -2. *)
Lemma npBuildMirroringRelation_counterexample :
  let m := Sample.near_plane in
  let plane := mkfloat3 1 0 0 in
  near_equal (mu.plane_distance (vertices m !!! 0%nat) plane) 0 = true /\
  npBuildMirroringRelation m plane (1 # 1000) (Some [0; 0]%Z)
    = (Some [1; -2]%Z, 1%Z).
Proof. vm_compute. split; reflexivity. Qed.

Lemma npBuildMirroringRelation_relation_witness :
  exists relation',
    fst (npBuildMirroringRelation Sample.near_plane (mkfloat3 1 0 0) (1 # 1000)
                                  (Some [0; 0]%Z)) = Some relation' /\
    length relation' = 2%nat.
Proof.
  destruct (npBuildMirroringRelation_relation Sample.near_plane (mkfloat3 1 0 0)
              (1 # 1000) [0; 0]%Z 0)
    as (relation' & Hr & Hl & _).
  - vm_compute. lia.
  - vm_compute. lia.
  - exists relation'. split; [exact Hr | exact Hl].
Defined.

(** C9 (as stated) fails.  Under a transform that stretches [y] by 8 the
    query returns vertex 0, at world distance 2 from the origin, although
    vertex 1 is at world distance 8: distances are compared in the space
    of the mesh, where vertex 0 is the further one. *)
Lemma GetFurthestDistance_counterexample :
  let m := Sample.stretched in
  GetFurthestDistance m mu.zero3 false = Some (0%nat, 2) /\
  world_distance m mu.zero3 0 == 2 /\
  world_distance m mu.zero3 1 == 8.
Proof. vm_compute. repeat split. Qed.

(** The query fails on a mesh whose only vertex is the query point: its
    squared distance, zero, does not exceed the initial [FLT_MIN]. *)
Lemma GetFurthestDistance_at_point :
  GetFurthestDistance Sample.point mu.zero3 false = None.
Proof. reflexivity. Qed.

Lemma GetFurthestDistance_local_maximum_witness :
  exists vidx,
    GetFurthestDistance Sample.stretched mu.zero3 false
      = Some (vidx, world_distance Sample.stretched mu.zero3 vidx).
Proof.
  destruct (GetFurthestDistance_local_maximum Sample.stretched mu.zero3 false 0)
    as (vidx & Hq & _).
  - vm_compute. lia.
  - left. reflexivity.
  - vm_compute. reflexivity.
  - exists vidx. exact Hq.
Defined.

Lemma selection_call_in_range_witness :
  let c := CallSelectEdge (3 # 4) true false in
  weights_in_range (selection (fst (run_selection_call c Sample.quad))).
Proof.
  intros c.
  assert (H : weights_in_range (selection Sample.quad)).
  { unfold weights_in_range. cbn. repeat constructor; vm_compute; discriminate. }
  exact (proj1 (proj2 (selection_call_in_range c Sample.quad H))).
Defined.

Lemma npSelectLasso_few_points_witness :
  npSelectLasso Sample.quad mu.identity44 [mkfloat2 0 0; mkfloat2 1 1] 2
                mu.zero3 (3 # 4) false = (Sample.quad, 0%Z).
Proof.
  apply (npSelectLasso_few_points Sample.quad mu.identity44
           [mkfloat2 0 0; mkfloat2 1 1] 2 mu.zero3 (3 # 4) false).
  lia.
Defined.

Lemma npRotatePivotVertices_negligible_witness :
  npRotatePivotVertices Sample.quad (mkquatf 0 0 0 1) mu.zero3 (mkquatf 0 0 0 1) false
    = Sample.quad /\
  npRotatePivotVertices Sample.quad (mkquatf 0 0 0 2) mu.zero3 (mkquatf 0 0 0 1) false
    = Sample.quad.
Proof.
  split.
  - apply (npRotatePivotVertices_negligible Sample.quad (mkquatf 0 0 0 1)).
    right. exists 0. split; vm_compute; reflexivity.
  - apply (npRotatePivotVertices_negligible Sample.quad (mkquatf 0 0 0 2)).
    left. vm_compute. reflexivity.
Defined.


Lemma npProjectVerticesImpl_vertex_witness :
  let dirs : RayDirs := fun _ _ => mkfloat3 0 0 1 in
  let after := npProjectVerticesImpl Sample.quad Sample.wall dirs Forward (1 # 2) 7 true in
  vertices after !! 1%nat = vertices Sample.quad !! 1%nat /\
  normal_at after 1 = normal_at Sample.quad 1 /\
  tangent_at after 1 = tangent_at Sample.quad 1.
Proof.
  intros dirs after.
  assert (H : (1 < num_vertices Sample.quad)%nat) by (vm_compute; lia).
  apply (proj1 (npProjectVerticesImpl_vertex Sample.quad Sample.wall dirs Forward
                  (1 # 2) 7 true 1 H)).
  - intros [_ Hd]. vm_compute in Hd. discriminate.
  - intros [Hh _]. vm_compute in Hh. discriminate.
Defined.

Lemma skinning_positions_witness :
  exists out back,
    skinned_points Sample.one_bone [mkfloat3 1 2 3] [mu.zero3] = Some out /\
    unskinned_points Sample.one_bone out [mu.zero3] = Some back /\
    float3_eq (back !!! 0%nat) (mkfloat3 1 2 3).
Proof.
  destruct (skinning_positions Sample.one_bone [mkfloat3 1 2 3] [mu.zero3] 0)
    as (out & Hout & _ & Hback).
  - vm_compute. lia.
  - vm_compute. lia.
  - intros b Hb. destruct b as [|[|[|[|b]]]]; vm_compute; lia.
  - destruct (Hback (skin_pose Sample.one_bone 0)) as (back & Hb & Heq).
    + vm_compute. reflexivity.
    + vm_compute. repeat split; reflexivity.
    + vm_compute. discriminate.
    + intros b Hb. destruct b as [|[|[|[|b]]]]; [right | left | left | left |];
        try reflexivity. lia.
    + exists out, back. split; [exact Hout | split; [exact Hb | exact Heq]].
Defined.

End Examples.

(** * Further properties *)

(** ** [SelectInside] *)

Section SelectInsideProperties.
Context {E : muExternals}.
Local Open Scope Q_scope.

(** The loop of [SelectInside] as a fold over the vertices in the ball. *)
Lemma SelectInside_fold {St : Type} (model : npMeshData) (pos : float3)
    (radius : Q) (body : nat -> Q -> float3 -> St -> St) (parallel : bool)
    (s0 : St) :
  SelectInside model pos radius body parallel s0
  = (fold_left (fun s vi => body vi (brush_distance model pos vi)
                                 (world_pos model vi) s)
               (brush_vertices model pos radius) s0,
     Z.of_nat (length (brush_vertices model pos radius))).
Proof.
  unfold SelectInside, brush_vertices.
  induction (num_vertices model) as [|k IH]; [reflexivity |].
  rewrite fold_left_seq_S, IH. clear IH.
  rewrite seq_S, List.filter_app, fold_left_app, length_app.
  cbn [List.filter seq Nat.add]. cbv beta iota zeta.
  destruct (in_brush model pos radius k) eqn:Hb; pose proof Hb as Hb';
    unfold in_brush, world_pos in Hb'; rewrite Hb'; cbn [fold_left length].
  - unfold brush_distance, world_pos. f_equal. lia.
  - f_equal. rewrite Nat.add_0_r. reflexivity.
Qed.

(** A visitor that rewrites the slot of the vertex it is called on, and
    no other slot, leaves every vertex outside the ball as it was. *)
Lemma SelectInside_slots {A : Type} `{Inhabited A} (model : npMeshData)
    (pos : float3) (radius : Q) (body : nat -> Q -> float3 -> list A -> list A)
    (f : nat -> Q -> float3 -> A -> A) (parallel : bool) (l0 : list A) (vj : nat) :
  (forall vi d p l, length (body vi d p l) = length l) ->
  (forall vi d p l, (vi < length l)%nat -> body vi d p l !!! vi = f vi d p (l !!! vi)) ->
  (forall vi d p l j, vi <> j -> body vi d p l !!! j = l !!! j) ->
  (vj < length l0)%nat ->
  let r := SelectInside model pos radius body parallel l0 in
  length (fst r) = length l0 /\
  fst r !!! vj
  = if decide (vj < num_vertices model)%nat then
      if in_brush model pos radius vj
      then f vj (brush_distance model pos vj) (world_pos model vj) (l0 !!! vj)
      else l0 !!! vj
    else l0 !!! vj.
Proof.
  intros Hlen Hat Hne Hvj r. subst r. unfold SelectInside.
  match goal with
  | |- context [fold_left ?st (seq 0 ?n) ?init] =>
      assert (HF := fun h1 h2 h3 =>
        fold_slots (St := list A * Z) fst st
          (fun i old => if in_brush model pos radius i
                        then f i (brush_distance model pos i)
                               (world_pos model i) old
                        else old) h1 h2 h3 n init vj Hvj)
  end.
  destruct HF as [Hl Hv].
  - intros [l c] i. cbn [fst]. destruct (fleb _ _); cbn [fst]; [apply Hlen | reflexivity].
  - intros [l c] i Hi. cbn [fst] in *. unfold in_brush, world_pos, brush_distance.
    destruct (fleb _ _); cbn [fst]; [now apply Hat | reflexivity].
  - intros [l c] i j Hij. cbn [fst]. destruct (fleb _ _); cbn [fst];
      [now apply Hne | reflexivity].
  - split; [exact Hl |]. rewrite Hv. cbn [fst].
    destruct (decide (vj < num_vertices model)%nat); reflexivity.
Qed.

End SelectInsideProperties.

(** ** The brushes *)

Lemma fold_append_map {A B : Type} (g : A -> B) (l : list A) (acc : list B) :
  fold_left (fun acc a => acc ++ [g a]) l acc = acc ++ map g l.
Proof.
  revert acc. induction l as [|a l IH]; intros acc; cbn.
  - now rewrite app_nil_r.
  - rewrite IH, <- app_assoc. reflexivity.
Qed.

Lemma fold_left_fmap {A B C : Type} (f : C -> B -> C) (g : A -> B) (l : list A)
    (c : C) :
  fold_left f (map g l) c = fold_left (fun c a => f c (g a)) l c.
Proof. revert c. induction l as [|a l IH]; intros c; cbn; [reflexivity | apply IH]. Qed.

(** A fold of writes, each to the slot its element names, over a list
    without repetition: a slot named by no element keeps its value, a
    named one is rewritten once, from its starting value. *)
Lemma fold_own_slots {A B : Type} `{Inhabited A} (key : B -> nat)
    (g : B -> A -> A) (ps : list B) (l : list A) :
  let r := fold_left (fun l p => <[key p := g p (l !!! key p)]> l) ps l in
  length r = length l /\
  (forall j, j ∉ map key ps -> r !! j = l !! j) /\
  (NoDup (map key ps) ->
   forall p, p ∈ ps -> (key p < length l)%nat -> r !!! key p = g p (l !!! key p)).
Proof.
  revert l. induction ps as [|q ps IH]; intros l; cbn.
  - split; [reflexivity | split; [reflexivity |]]. intros _ p Hp. inversion Hp.
  - destruct (IH (<[key q := g q (l !!! key q)]> l)) as (Hl & Hout & Hin).
    rewrite length_insert in Hl, Hin.
    split; [exact Hl | split].
    + intros j Hj. apply not_elem_of_cons in Hj. destruct Hj as [Hne Hj].
      rewrite Hout by exact Hj. apply list_lookup_insert_ne. congruence.
    + intros Hnd p Hp Hlt. apply NoDup_cons in Hnd. destruct Hnd as [Hq Hnd].
      apply elem_of_cons in Hp. destruct Hp as [-> | Hp].
      * rewrite (list_lookup_total_alt _ (key q)), (Hout _ Hq),
          <- list_lookup_total_alt.
        now apply list_lookup_total_insert_eq.
      * rewrite (Hin Hnd p Hp Hlt).
        rewrite list_lookup_total_insert_ne; [reflexivity |].
        intros Heq. apply Hq. rewrite Heq. apply list_elem_of_fmap. eauto.
Qed.

Section Brushes.
Context {E : muExternals}.
Local Open Scope Q_scope.

Lemma brush_vertices_NoDup (model : npMeshData) (pos : float3) (radius : Q) :
  NoDup (brush_vertices model pos radius).
Proof. apply NoDup_List_filter, NoDup_seq. Qed.

Lemma elem_of_brush_vertices (model : npMeshData) (pos : float3) (radius : Q)
    (vi : nat) :
  vi ∈ brush_vertices model pos radius
  <-> (vi < num_vertices model)%nat /\ in_brush model pos radius vi = true.
Proof.
  unfold brush_vertices. rewrite elem_of_List_filter, elem_of_seq. intuition lia.
Qed.

(** [SelectInside] calls its visitor on the vertices of the mesh whose
    world position lies within [radius] of [pos], once each and in index
    order (the parallel schedule is run in that order), with their
    distance and world position, and returns their number. *)
Theorem SelectInside_visits {St : Type} (model : npMeshData) (pos : float3)
    (radius : Q) (body : nat -> Q -> float3 -> St -> St) (parallel : bool)
    (s0 : St) :
  SelectInside model pos radius body parallel s0
  = (fold_left (fun s vi => body vi (brush_distance model pos vi)
                                 (world_pos model vi) s)
               (brush_vertices model pos radius) s0,
     Z.of_nat (length (brush_vertices model pos radius))) /\
  NoDup (brush_vertices model pos radius) /\
  (forall vi, vi ∈ brush_vertices model pos radius
              <-> (vi < num_vertices model)%nat /\
                  mu.length_sq (mu.mul_p (transform model) (vertices model !!! vi)
                                - pos)%v3 <= radius * radius).
Proof.
  split; [apply SelectInside_fold | split; [apply brush_vertices_NoDup |]].
  intros vi. rewrite elem_of_brush_vertices. unfold in_brush, world_pos.
  rewrite fleb_true. reflexivity.
Qed.

(** A visitor that writes no slot but the one of the vertex it is called
    on leaves the slot of every vertex outside the ball as it was. *)
Lemma SelectInside_frame {A : Type} (model : npMeshData) (pos : float3)
    (radius : Q) (body : nat -> Q -> float3 -> list A -> list A)
    (parallel : bool) (l0 : list A) :
  (forall vi d p l, length (body vi d p l) = length l) ->
  (forall vi d p l j, vi <> j -> body vi d p l !! j = l !! j) ->
  let r := SelectInside model pos radius body parallel l0 in
  length (fst r) = length l0 /\
  snd r = Z.of_nat (length (brush_vertices model pos radius)) /\
  forall j, j ∉ brush_vertices model pos radius -> fst r !! j = l0 !! j.
Proof.
  intros Hlen Hne r. subst r. rewrite SelectInside_fold. cbn [fst snd].
  generalize (brush_vertices model pos radius). intros vs. revert l0.
  induction vs as [|v vs IH]; intros l0; cbn [fold_left].
  - split; [reflexivity | split; [reflexivity |]]. reflexivity.
  - destruct (IH (body v (brush_distance model pos v) (world_pos model v) l0))
      as (Hl & _ & Hout).
    rewrite Hlen in Hl. split; [exact Hl | split; [reflexivity |]].
    intros j Hj. apply not_elem_of_cons in Hj. destruct Hj as [Hjv Hj].
    rewrite (Hout j Hj). apply Hne. congruence.
Qed.

(** What [npBrushSmooth] collects: the vertices under the brush, each with
    its distance. *)
Lemma npBrushSmooth_inside (model : npMeshData) (pos : float3) (radius : Q) :
  fst (SelectInside model pos radius
         (fun vi d (p : float3) acc => acc ++ [(vi, d)]) false [])
  = map (fun vi => (vi, brush_distance model pos vi))
        (brush_vertices model pos radius).
Proof.
  rewrite SelectInside_fold. cbn [fst].
  exact (fold_append_map (fun vi => (vi, brush_distance model pos vi)) _ []).
Qed.

End Brushes.

Section BrushTheorems.
Context {E : muExternals}.
Local Open Scope Q_scope.

(** The form of [SelectInside_slots] over [brush_vertices]. *)
Lemma SelectInside_own_slot {A : Type} `{Inhabited A} (model : npMeshData)
    (pos : float3) (radius : Q) (body : nat -> Q -> float3 -> list A -> list A)
    (f : nat -> Q -> float3 -> A -> A) (parallel : bool) (l0 : list A) (vj : nat) :
  (forall vi d p l, length (body vi d p l) = length l) ->
  (forall vi d p l, (vi < length l)%nat -> body vi d p l !!! vi = f vi d p (l !!! vi)) ->
  (forall vi d p l j, vi <> j -> body vi d p l !!! j = l !!! j) ->
  (vj < length l0)%nat ->
  vj ∈ brush_vertices model pos radius ->
  fst (SelectInside model pos radius body parallel l0) !!! vj
  = f vj (brush_distance model pos vj) (world_pos model vj) (l0 !!! vj).
Proof.
  intros Hlen Hat Hne Hvj Hin.
  destruct (SelectInside_slots model pos radius body f parallel l0 vj
              Hlen Hat Hne Hvj) as [_ Hv].
  apply elem_of_brush_vertices in Hin. destruct Hin as [Hn Hb].
  rewrite Hv, Hb. destruct (decide (vj < num_vertices model)%nat); [reflexivity | lia].
Qed.

(** [npSelectBrush] adds to the weight of every vertex under the brush
    the falloff sample of its distance times [strength], clamped to
    [0, 1]; it changes no other weight and no other buffer, and returns
    the number of vertices under the brush. *)
Theorem npSelectBrush_weights (model : npMeshData) (pos : float3)
    (radius strength : Q) (num_bsamples : Z) (bsamples : list Q) (vj : nat) :
  (vj < length (selection model))%nat ->
  let r := npSelectBrush model pos radius strength num_bsamples bsamples in
  selection (fst r) !!! vj
  = (if decide (vj ∈ brush_vertices model pos radius)
     then mu.clamp01
            (selection model !!! vj
             + GetBrushSample (brush_distance model pos vj) radius bsamples
                              num_bsamples * strength)
     else selection model !!! vj) /\
  snd r = Z.of_nat (length (brush_vertices model pos radius)) /\
  vertices (fst r) = vertices model /\ normals (fst r) = normals model.
Proof.
  intros Hvj r. subst r. unfold npSelectBrush.
  match goal with
  | |- context [SelectInside ?m ?p ?rd ?body ?par ?l0] =>
      pose proof (SelectInside_frame m p rd body par l0) as HF;
      pose proof (fun f => SelectInside_own_slot m p rd body f par l0 vj) as HS;
      destruct (SelectInside m p rd body par l0) as [sel ret]
  end.
  cbn [fst snd] in *. cbn [selection vertices normals set_selection].
  destruct HF as (Hl & Hret & Hout).
  { intros. apply length_insert. }
  { intros vi d p l j Hne. unfold add_selection. now apply list_lookup_insert_ne. }
  split; [| split; [exact Hret | split; reflexivity]].
  destruct (decide (vj ∈ brush_vertices model pos radius)) as [Hin | Hnin].
  - apply (HS (fun vi d _ old =>
                 mu.clamp01 (old + GetBrushSample d radius bsamples num_bsamples
                                   * strength))).
    + intros. apply length_insert.
    + intros vi d p l Hlt. unfold add_selection.
      now apply list_lookup_total_insert_eq.
    + intros vi d p l j Hne. unfold add_selection.
      now apply list_lookup_total_insert_ne.
    + exact Hvj.
    + exact Hin.
  - rewrite !list_lookup_total_alt, (Hout vj Hnin). reflexivity.
Qed.

End BrushTheorems.

Section BrushNormals.
Context {E : muExternals}.
Local Open Scope Q_scope.

Variables (model : npMeshData) (pos : float3) (radius strength : Q)
  (num_bsamples : Z) (bsamples : list Q) (mask : bool) (nrm0 : list float3).
Hypothesis Hnormals : normals model = Some nrm0.

Lemma normals_of_Some : normals_of model = nrm0.
Proof using Hnormals. unfold normals_of. now rewrite Hnormals. Qed.

Lemma with_normals_Some (nrm : list float3) :
  with_normals model nrm = set_normals model (Some nrm).
Proof using Hnormals. unfold with_normals. now rewrite Hnormals. Qed.

(** The frame of a brush that goes through [SelectInside] with a visitor
    writing the slot of its vertex only. *)
Lemma brush_frame (body : nat -> Q -> float3 -> list float3 -> list float3) :
  (forall vi d p l, length (body vi d p l) = length l) ->
  (forall vi d p l j, vi <> j -> body vi d p l !! j = l !! j) ->
  let r := (let '(nrm, ret) :=
              SelectInside model pos radius body true (normals_of model) in
            (with_normals model nrm, ret)) in
  snd r = Z.of_nat (length (brush_vertices model pos radius)) /\
  vertices (fst r) = vertices model /\
  selection (fst r) = selection model /\
  length (normals_of (fst r)) = length nrm0 /\
  forall vj, vj ∉ brush_vertices model pos radius ->
             normals_of (fst r) !! vj = nrm0 !! vj.
Proof using Hnormals.
  intros Hlen Hne r. subst r.
  pose proof (SelectInside_frame model pos radius body true (normals_of model)
                Hlen Hne) as HF.
  destruct (SelectInside model pos radius body true (normals_of model))
    as [nrm ret].
  cbn [fst snd] in *. rewrite with_normals_Some, normals_of_Some in *.
  destruct HF as (Hl & Hret & Hout). unfold normals_of. cbn.
  repeat split; try assumption.
Qed.

(** The value a brush leaves in the slot of a vertex under it. *)
Lemma brush_slot (body : nat -> Q -> float3 -> list float3 -> list float3)
    (f : nat -> Q -> float3 -> float3 -> float3) (vj : nat) :
  (forall vi d p l, length (body vi d p l) = length l) ->
  (forall vi d p l, (vi < length l)%nat -> body vi d p l !!! vi = f vi d p (l !!! vi)) ->
  (forall vi d p l j, vi <> j -> body vi d p l !!! j = l !!! j) ->
  (vj < length nrm0)%nat ->
  vj ∈ brush_vertices model pos radius ->
  let r := (let '(nrm, ret) :=
              SelectInside model pos radius body true (normals_of model) in
            (with_normals model nrm, ret)) in
  normals_of (fst r) !!! vj
  = f vj (brush_distance model pos vj) (world_pos model vj) (nrm0 !!! vj).
Proof using Hnormals.
  intros Hlen Hat Hne Hvj Hin r. subst r.
  pose proof (SelectInside_own_slot model pos radius body f true
                (normals_of model) vj Hlen Hat Hne) as HS.
  destruct (SelectInside model pos radius body true (normals_of model))
    as [nrm ret].
  cbn [fst snd] in *. rewrite with_normals_Some, normals_of_Some in *.
  unfold normals_of. cbn. now apply HS.
Qed.

Ltac own_slot_body :=
  intros; cbv beta zeta;
  repeat match goal with
         | |- context [match ?x with _ => _ end] => destruct x
         end;
  first [ reflexivity
        | apply length_insert
        | apply list_lookup_insert_ne; congruence
        | apply list_lookup_total_insert_ne; congruence
        | apply list_lookup_total_insert_eq; assumption ].

(** [npBrushSmooth] as one fold of writes over the vertices under the
    brush, each towards the average direction computed beforehand. *)
Lemma npBrushSmooth_fold :
  npBrushSmooth model pos radius strength num_bsamples bsamples mask
  = (set_normals model
       (Some (fold_left
                (fun l p =>
                   <[fst p := smooth_write model pos radius strength
                                num_bsamples bsamples mask p (l !!! fst p)]> l)
                (map (fun vi => (vi, brush_distance model pos vi))
                     (brush_vertices model pos radius)) nrm0)),
     Z.of_nat (length (brush_vertices model pos radius))).
Proof using Hnormals.
  unfold npBrushSmooth. rewrite npBrushSmooth_inside, with_normals_Some.
  rewrite (fold_left_fmap (fun a (p : nat * Q) => (a + normals_of model !!! fst p)%v3)).
  cbn [fst snd].
  change (normalize (fold_left _ (brush_vertices model pos radius) mu.zero3))
    with (brush_average model pos radius).
  rewrite length_map, normals_of_Some. reflexivity.
Qed.

(** A brush on the normals changes the normal of no vertex outside the
    ball of the brush, changes neither the positions nor the weights, keeps
    the length of the normal buffer, and returns the number of vertices in
    the ball. *)
Theorem brush_call_frame (c : brush_call) :
  let r := run_brush_call c model pos radius strength num_bsamples bsamples mask in
  snd r = Z.of_nat (length (brush_vertices model pos radius)) /\
  vertices (fst r) = vertices model /\
  selection (fst r) = selection model /\
  length (normals_of (fst r)) = length nrm0 /\
  forall vj, vj ∉ brush_vertices model pos radius ->
             normals_of (fst r) !! vj = nrm0 !! vj.
Proof using Hnormals.
  destruct c; cbn [run_brush_call];
    unfold npBrushProjection, npBrushProjection2.
  - apply brush_frame; own_slot_body.
  - apply brush_frame; own_slot_body.
  - apply brush_frame; own_slot_body.
  - rewrite npBrushSmooth_fold. cbn [fst snd].
    unfold normals_of. cbn [normals set_normals vertices selection default].
    destruct (fold_own_slots (A := float3) fst
              (smooth_write model pos radius strength num_bsamples bsamples mask)
                (map (fun vi => (vi, brush_distance model pos vi))
                     (brush_vertices model pos radius)) nrm0)
      as (Hl & Hout & _).
    repeat split; try reflexivity.
    + exact Hl.
    + intros vj Hvj. apply Hout. rewrite map_map. cbn [fst]. now rewrite map_id.
  - apply brush_frame; own_slot_body.
  - apply brush_frame; own_slot_body.
Qed.

(** Under the brush, [npBrushLerp] overwrites the normal with the blend
    of [n1] and the signed [n0] at the strength of the brush there: the
    normal the vertex had plays no part. *)
Theorem npBrushLerp_overwrites (n0 n1 : list float3) (vj : nat) :
  (vj < length nrm0)%nat ->
  vj ∈ brush_vertices model pos radius ->
  normals_of (fst (npBrushLerp model pos radius strength num_bsamples bsamples
                               n0 n1 mask)) !!! vj
  = normalize
      (mu.lerp (n1 !!! vj) (n0 !!! vj * strength_sign strength)%v3
               (brush_strength model radius strength num_bsamples bsamples mask
                               vj (brush_distance model pos vj))).
Proof using Hnormals.
  intros Hvj Hin. unfold npBrushLerp.
  apply (brush_slot _
           (fun vi d _ _ =>
              normalize
                (mu.lerp (n1 !!! vi) (n0 !!! vi * strength_sign strength)%v3
                   (brush_strength model radius strength num_bsamples bsamples
                                   mask vi d))));
    try assumption; own_slot_body.
Qed.

(** Under the brush, [npBrushSmooth] moves the normal towards the
    normalised sum of the normals that the vertices under the brush had
    before the call, by the strength of the brush there. *)
Theorem npBrushSmooth_average (vj : nat) :
  (vj < length nrm0)%nat ->
  vj ∈ brush_vertices model pos radius ->
  normals_of (fst (npBrushSmooth model pos radius strength num_bsamples bsamples
                                 mask)) !!! vj
  = normalize
      (nrm0 !!! vj
       + brush_average model pos radius
         * brush_strength model radius strength num_bsamples bsamples mask
                          vj (brush_distance model pos vj))%v3.
Proof using Hnormals.
  intros Hvj Hin. rewrite npBrushSmooth_fold. cbn [fst].
  unfold normals_of. cbn [normals set_normals default].
  destruct (fold_own_slots (A := float3) fst
              (smooth_write model pos radius strength num_bsamples bsamples mask)
              (map (fun vi => (vi, brush_distance model pos vi))
                   (brush_vertices model pos radius)) nrm0)
    as (_ & _ & Hat).
  apply (Hat ltac:(rewrite map_map; cbn [fst]; rewrite map_id;
                   apply brush_vertices_NoDup)
             (vj, brush_distance model pos vj));
    [| exact Hvj].
  apply list_elem_of_fmap. eauto.
Qed.

(** Under the brush, [BrushProjectionImpl] leaves the normal of a vertex
    whose ray misses the normal source as it was, and blends the normal of
    a vertex whose ray hits towards the signed normal of the source at the
    hit point, by the strength of the brush there. *)
Theorem BrushProjectionImpl_vertex (normal_source : npMeshData)
    (ray_dirs : nat -> float3) (vj : nat) :
  (vj < length nrm0)%nat ->
  vj ∈ brush_vertices model pos radius ->
  normals_of (fst (BrushProjectionImpl model pos radius strength num_bsamples
                                       bsamples mask normal_source ray_dirs))
    !!! vj
  = match brush_projection_hit model normal_source ray_dirs vj with
    | Some result =>
        normalize
          (mu.lerp (nrm0 !!! vj) (result * strength_sign strength)%v3
                   (brush_strength model radius strength num_bsamples bsamples
                                   mask vj (brush_distance model pos vj)))
    | None => nrm0 !!! vj
    end.
Proof using Hnormals.
  intros Hvj Hin. unfold BrushProjectionImpl.
  apply (brush_slot _
           (fun vi d _ old =>
              match brush_projection_hit model normal_source ray_dirs vi with
              | Some result =>
                  normalize
                    (mu.lerp old (result * strength_sign strength)%v3
                       (brush_strength model radius strength num_bsamples
                                       bsamples mask vi d))
              | None => old
              end));
    try assumption; own_slot_body.
Qed.

End BrushNormals.

(** [npBrushSmooth] ignores the sign of [strength]. *)
Theorem npBrushSmooth_sign {E : muExternals} (model : npMeshData) (pos : float3)
    (radius strength : Q) (num_bsamples : Z) (bsamples : list Q) (mask : bool) :
  npBrushSmooth model pos radius (- strength) num_bsamples bsamples mask
  = npBrushSmooth model pos radius strength num_bsamples bsamples mask.
Proof.
  unfold npBrushSmooth, brush_strength, mu.abs.
  assert (Ha : Qabs (- strength) = Qabs strength).
  { destruct strength as [n d]. cbn. now rewrite Z.abs_opp. }
  rewrite Ha. reflexivity.
Qed.


(** ** The falloff curve is read inside its first [num_bsamples] entries *)

Lemma fold_left_pointwise {A B : Type} (f g : A -> B -> A) (l : list B) (a : A) :
  (forall a b, f a b = g a b) -> fold_left f l a = fold_left g l a.
Proof.
  intros Hfg. revert a. induction l as [|b l IH]; intros a; cbn; [reflexivity |].
  now rewrite Hfg, IH.
Qed.

Lemma lookup_total_take_lt {A : Type} `{Inhabited A} (l : list A) (n i : nat) :
  (i < n)%nat -> take n l !!! i = l !!! i.
Proof.
  intros Hi. rewrite !list_lookup_total_alt, lookup_take_lt by exact Hi.
  reflexivity.
Qed.

Section Falloff.
Context {E : muExternals}.
Local Open Scope Q_scope.

(** The rounding keeps the order and leaves small integers alone. *)
Hypothesis Hround : rounds_to_float fround.

(** Whatever the distance, the bucket read by a brush of positive radius
    lies between 0 and [num_bsamples - 1], as long as [num_bsamples - 1]
    is a number that a [float] holds exactly; so, with a curve of at
    least [num_bsamples] entries, the multiplier of the brush is one of
    the first [num_bsamples] samples. *)
Theorem GetBrushSample_in_samples (distance bradius : Q) (bsamples : list Q)
    (num_bsamples : Z) :
  0 < bradius -> (1 <= num_bsamples <= 2 ^ 24 + 1)%Z ->
  (0 <= GetBrushSampleIndex distance bradius num_bsamples <= num_bsamples - 1)%Z /\
  ((Z.to_nat num_bsamples <= length bsamples)%nat ->
   GetBrushSample distance bradius bsamples num_bsamples
   ∈ take (Z.to_nat num_bsamples) bsamples).
Proof using Hround.
  intros Hr Hn.
  pose proof (GetBrushSampleIndex_bounds Hround distance bradius num_bsamples Hn)
    as Hi.
  split; [exact Hi |]. intros Hlen. unfold GetBrushSample.
  set (i := GetBrushSampleIndex _ _ _) in *.
  rewrite <- (lookup_total_take_lt bsamples (Z.to_nat num_bsamples)) by lia.
  apply list_elem_of_lookup_total_2. rewrite length_take. lia.
Qed.

Lemma GetBrushSample_take (distance bradius : Q) (bsamples bsamples' : list Q)
    (num_bsamples : Z) :
  (1 <= num_bsamples <= 2 ^ 24 + 1)%Z ->
  take (Z.to_nat num_bsamples) bsamples = take (Z.to_nat num_bsamples) bsamples' ->
  GetBrushSample distance bradius bsamples num_bsamples
  = GetBrushSample distance bradius bsamples' num_bsamples.
Proof using Hround.
  intros Hn Ht. unfold GetBrushSample.
  pose proof (GetBrushSampleIndex_bounds Hround distance bradius num_bsamples Hn)
    as Hi.
  set (i := GetBrushSampleIndex _ _ _) in *.
  rewrite <- (lookup_total_take_lt bsamples (Z.to_nat num_bsamples)) by lia.
  rewrite <- (lookup_total_take_lt bsamples' (Z.to_nat num_bsamples)) by lia.
  now rewrite Ht.
Qed.

Lemma brush_strength_take (model : npMeshData) (radius strength : Q)
    (num_bsamples : Z) (bsamples bsamples' : list Q) (mask : bool) (vi : nat)
    (d : Q) :
  (1 <= num_bsamples <= 2 ^ 24 + 1)%Z ->
  take (Z.to_nat num_bsamples) bsamples = take (Z.to_nat num_bsamples) bsamples' ->
  brush_strength model radius strength num_bsamples bsamples mask vi d
  = brush_strength model radius strength num_bsamples bsamples' mask vi d.
Proof using Hround.
  intros Hn Ht. unfold brush_strength.
  now rewrite (GetBrushSample_take d radius bsamples bsamples' num_bsamples Hn Ht).
Qed.

(** With at least two samples, the slope at a bucket of the curve reads
    the curve inside its first [num_bsamples] entries. *)
Lemma brush_slope_take (bsamples bsamples' : list Q) (num_bsamples bsi : Z) :
  (2 <= num_bsamples)%Z -> (0 <= bsi <= num_bsamples - 1)%Z ->
  take (Z.to_nat num_bsamples) bsamples = take (Z.to_nat num_bsamples) bsamples' ->
  brush_slope bsamples num_bsamples bsi = brush_slope bsamples' num_bsamples bsi.
Proof.
  intros Hn Hi Ht. unfold brush_slope.
  assert (Hat : forall i, (0 <= i <= num_bsamples - 1)%Z ->
                          bsamples !!! Z.to_nat i = bsamples' !!! Z.to_nat i).
  { intros i Hb.
    rewrite <- (lookup_total_take_lt bsamples (Z.to_nat num_bsamples)) by lia.
    rewrite <- (lookup_total_take_lt bsamples' (Z.to_nat num_bsamples)) by lia.
    now rewrite Ht. }
  destruct (bsi =? 0)%Z eqn:E0.
  - apply Z.eqb_eq in E0. rewrite !Hat by lia. reflexivity.
  - apply Z.eqb_neq in E0. destruct (bsi =? num_bsamples - 1)%Z eqn:E1.
    + rewrite !Hat by lia. reflexivity.
    + apply Z.eqb_neq in E1. rewrite !Hat by lia. reflexivity.
Qed.

Lemma SelectInside_pointwise {St : Type} (model : npMeshData) (pos : float3)
    (radius : Q) (body body' : nat -> Q -> float3 -> St -> St) (parallel : bool)
    (s0 : St) :
  (forall vi d p s, body vi d p s = body' vi d p s) ->
  SelectInside model pos radius body parallel s0
  = SelectInside model pos radius body' parallel s0.
Proof.
  intros Hb. rewrite !SelectInside_fold. f_equal.
  apply fold_left_pointwise. intros. apply Hb.
Qed.

(** No brush reads the falloff curve outside its first [num_bsamples]
    entries, as long as [num_bsamples - 1] is a number that a [float]
    holds exactly: two curves that agree there give the same result.  The
    paint brush, which takes differences of neighbouring samples, needs
    two samples for that, the other brushes one. *)
Theorem brush_call_samples (c : brush_call) (model : npMeshData) (pos : float3)
    (radius strength : Q) (num_bsamples : Z) (bsamples bsamples' : list Q)
    (mask : bool) :
  0 < radius ->
  (match c with CallBrushPaint _ _ _ => 2 | _ => 1 end <= num_bsamples
   <= 2 ^ 24 + 1)%Z ->
  take (Z.to_nat num_bsamples) bsamples = take (Z.to_nat num_bsamples) bsamples' ->
  run_brush_call c model pos radius strength num_bsamples bsamples mask
  = run_brush_call c model pos radius strength num_bsamples bsamples' mask.
Proof using Hround.
  intros Hr Hn Ht.
  assert (Hn1 : (1 <= num_bsamples <= 2 ^ 24 + 1)%Z) by (destruct c; lia).
  pose proof (fun vi d => brush_strength_take model radius strength num_bsamples
                            bsamples bsamples' mask vi d Hn1 Ht) as Hs.
  destruct c; cbn [run_brush_call];
    unfold npBrushReplace, npBrushPaint, npBrushLerp, npBrushSmooth,
      npBrushProjection, npBrushProjection2, BrushProjectionImpl.
  - erewrite SelectInside_pointwise; [reflexivity |].
    intros vi d p s. cbv beta zeta. now rewrite Hs.
  - erewrite SelectInside_pointwise; [reflexivity |].
    intros vi d p s. cbv beta zeta.
    pose proof (GetBrushSampleIndex_bounds Hround d radius num_bsamples Hn1) as Hi.
    rewrite (brush_slope_take bsamples bsamples' num_bsamples _ ltac:(lia) Hi Ht).
    replace (bsamples !!! Z.to_nat (GetBrushSampleIndex d radius num_bsamples))
      with (bsamples' !!! Z.to_nat (GetBrushSampleIndex d radius num_bsamples)).
    + reflexivity.
    + rewrite <- (lookup_total_take_lt bsamples (Z.to_nat num_bsamples)) by lia.
      rewrite <- (lookup_total_take_lt bsamples' (Z.to_nat num_bsamples)) by lia.
      now rewrite Ht.
  - erewrite SelectInside_pointwise; [reflexivity |].
    intros vi d p s. cbv beta zeta. now rewrite Hs.
  - f_equal. f_equal. apply fold_left_pointwise. intros nrm p. now rewrite Hs.
  - erewrite SelectInside_pointwise; [reflexivity |].
    intros vi d p s. cbv beta zeta. now rewrite Hs.
  - erewrite SelectInside_pointwise; [reflexivity |].
    intros vi d p s. cbv beta zeta. now rewrite Hs.
Qed.

End Falloff.

(** ** When the furthest-point query fails *)

Section FurthestNone.
Context {E : muExternals}.
Local Open Scope Q_scope.

(** [GetFurthestDistance] returns false exactly when no vertex that passes
    the mask has a squared distance, measured in the space of the mesh,
    above [FLT_MIN]: on a mesh without vertices, under a mask that lets no
    vertex pass, and when every vertex that passes sits at the point. *)
Theorem GetFurthestDistance_none (model : npMeshData) (pos : float3) (mask : bool) :
  GetFurthestDistance model pos mask = None
  <-> forall vi, (vi < num_vertices model)%nat -> passes_mask model mask vi ->
                 local_dsq model pos vi <= FLT_MIN.
Proof.
  pose proof (furthest_invariant model pos mask (num_vertices model)) as H.
  cbn zeta in H. unfold GetFurthestDistance.
  destruct (fold_left _ (seq 0 (num_vertices model)) _) as [fsq fvi] eqn:Ef.
  cbn [fst snd] in H. destruct H as (Hle & Hst & Hmin).
  unfold fgtb. destruct (fltb FLT_MIN fsq) eqn:Ec.
  - apply fltb_true in Ec. split; [discriminate |]. intros Hall. exfalso.
    destruct Hst as [-> | (H1 & H2 & H3 & H4 & H5)]; [lra |].
    pose proof (Hall fvi H2 H3) as Hb. rewrite <- H4 in Hb. lra.
  - apply fltb_false in Ec. split; [| reflexivity]. intros _ vi Hvi Hp.
    pose proof (Hle vi Hvi Hp). lra.
Qed.

End FurthestNone.

(** ** [npUpdateSelection] *)

Section UpdateSelection.
Context {E : muExternals}.
Local Open Scope Q_scope.

Lemma update_selection_count (model : npMeshData) (k : nat) :
  snd (fst (fst (fold_left (update_selection_step model) (seq 0 k)
                           (0, 0%Z, mu.zero3, mu.zero3))))
  = Z.of_nat (length (filter (fun vi => fgtb (selection model !!! vi) 0 = true)
                             (seq 0 k))).
Proof.
  induction k as [|k IH]; [reflexivity |].
  rewrite fold_left_seq_S, seq_S, filter_app, length_app. cbn [Nat.add].
  destruct (fold_left _ (seq 0 k) _) as [[[st num] spos] snormal].
  cbn [fst snd] in IH. unfold update_selection_step.
  rewrite filter_cons, filter_nil.
  destruct (decide (fgtb (selection model !!! k) 0 = true)) as [Hk | Hk].
  - rewrite Hk. cbn [fst snd length]. lia.
  - apply not_true_is_false in Hk. rewrite Hk. cbn [fst snd length]. lia.
Qed.

(** [npUpdateSelection] returns the number of vertices with a positive
    weight; when there is none, both outputs are the zero vector and
    nothing is divided by the total weight. *)
Theorem npUpdateSelection_count (model : npMeshData) :
  snd (npUpdateSelection model) = Z.of_nat (length (selected_targets model)) /\
  (selected_targets model = [] ->
   npUpdateSelection model = (mu.zero3, mu.zero3, 0%Z)).
Proof.
  assert (Hz : selected_targets model = [] ->
               fold_left (update_selection_step model)
                         (seq 0 (num_vertices model)) (0, 0%Z, mu.zero3, mu.zero3)
               = (0, 0%Z, mu.zero3, mu.zero3)).
  { unfold selected_targets. generalize (0, 0%Z, mu.zero3, mu.zero3).
    induction (num_vertices model) as [|k IH]; intros acc Hnil; [reflexivity |].
    rewrite seq_S, filter_app in Hnil. apply app_eq_nil in Hnil.
    destruct Hnil as [Hk Hlast]. rewrite fold_left_seq_S, (IH acc Hk).
    cbn [Nat.add] in Hlast. rewrite filter_cons in Hlast.
    destruct (decide (fgtb (selection model !!! k) 0 = true)) as [Hs | Hs];
      [discriminate |].
    apply not_true_is_false in Hs. unfold update_selection_step.
    destruct acc as [[[st num] spos] snormal]. now rewrite Hs. }
  pose proof (update_selection_count model (num_vertices model)) as Hc.
  fold (selected_targets model) in Hc.
  unfold npUpdateSelection.
  destruct (fold_left _ (seq 0 (num_vertices model)) _)
    as [[[st num] spos] snormal].
  cbn [fst snd] in Hc. split.
  - destruct (0 <? num)%Z; exact Hc.
  - intros Hnil. specialize (Hz Hnil). injection Hz as -> -> -> ->. reflexivity.
Qed.

End UpdateSelection.

(** ** Edits of the positions under the mask *)

Lemma mul_v_add (m : float4x4) (a b : float3) :
  float3_eq (mu.mul_v m (a + b)%v3) (mu.mul_v m a + mu.mul_v m b)%v3.
Proof.
  unfold float3_eq, mu.mul_v, mu.add3. cbn [x3 y3 z3]. repeat split; ring.
Qed.

(** An invertible affine matrix undoes its inverse on points. *)
Lemma affine_invert (m : float4x4) (p : float3) :
  affine m -> ~ (inv.det m == 0)%Q ->
  float3_eq (mu.mul_p m (mu.mul_p (inv.invert m) p)) p.
Proof.
  destruct m as [[a00 a01 a02 a03] [a10 a11 a12 a13] [a20 a21 a22 a23]
                   [a30 a31 a32 a33]].
  destruct p as [x y z].
  unfold affine. cbn [w4 m0 m1 m2 m3]. intros (H0 & H1 & H2 & H3) Hdet.
  unfold float3_eq, mu.mul_p, inv.invert, inv.inv_row, inv.inv_entry in *.
  cbn [x3 y3 z3 x4 y4 z4 w4 m0 m1 m2 m3] in *.
  unfold inv.det, inv.cofactor, inv.minor, inv.sub_entry, inv.det3, inv.entry,
    inv.row, inv.comp, inv.skip in *.
  cbn [x3 y3 z3 x4 y4 z4 w4 m0 m1 m2 m3 Nat.ltb Nat.leb Nat.even Nat.add] in *.
  rewrite H0, H1, H2, H3 in *.
  repeat split;
    (field; intro Hc; apply Hdet; (etransitivity; [|exact Hc]); ring).
Qed.

Section Edits.
Context {E : muExternals}.
Local Open Scope Q_scope.

(** The loop of the vertex edits, slot by slot. *)
Lemma edit_vertices_slot (model : npMeshData) (mask : bool)
    (f : Q -> float3 -> float3) (vj : nat) :
  (vj < length (vertices model))%nat ->
  length (vertices (edit_vertices model mask f)) = length (vertices model) /\
  vertices (edit_vertices model mask f) !!! vj
  = if decide (vj < num_vertices model)%nat then
      if feqb (mask_weight model mask vj) 0 then vertices model !!! vj
      else f (mask_weight model mask vj) (vertices model !!! vj)
    else vertices model !!! vj.
Proof.
  intros Hvj. unfold edit_vertices. cbn [vertices set_vertices].
  match goal with
  | |- context [fold_left ?st (seq 0 ?n) ?init] =>
      assert (HF := fun h1 h2 h3 =>
        fold_slots (St := list float3) (fun l => l) st
          (fun i old => if feqb (mask_weight model mask i) 0 then old
                        else f (mask_weight model mask i) old)
          h1 h2 h3 n init vj Hvj)
  end.
  destruct HF as [Hl Hv].
  - intros l i. cbv beta. destruct (feqb _ _); [reflexivity | apply length_insert].
  - intros l i Hi. cbv beta. destruct (feqb _ _); [reflexivity |].
    now apply list_lookup_total_insert_eq.
  - intros l i j Hij. cbv beta. destruct (feqb _ _); [reflexivity |].
    now apply list_lookup_total_insert_ne.
  - split; [exact Hl |]. rewrite Hv.
    destruct (decide (vj < num_vertices model)%nat); reflexivity.
Qed.

Lemma npRotatePivotVertices_edit (model : npMeshData) (value : quatf)
    (pivot_pos : float3) (pivot_rot : quatf) (mask : bool) :
  npRotatePivotVertices model value pivot_pos pivot_rot mask = model \/
  exists f, npRotatePivotVertices model value pivot_pos pivot_rot mask
            = edit_vertices model mask f.
Proof.
  unfold npRotatePivotVertices. destruct (to_axis_angle value) as [axis angle].
  destruct (angle_is_negligible angle); [now left | right].
  eexists (fun s v => mu.lerp v (mu.mul_p _ v) s). reflexivity.
Qed.

(** [npAssignVertices], [npMoveVertices], [npRotatePivotVertices] and
    [npScaleVertices] write the position buffer only and keep its length;
    under [mask] a vertex of weight zero stays where it is, as does every
    entry from [num_vertices] on. *)
Theorem edit_call_frame (c : edit_call) (model : npMeshData) (mask : bool)
    (vj : nat) :
  (vj < length (vertices model))%nat ->
  (num_vertices model <= vj)%nat \/
    (mask = true /\ selection model !!! vj == 0) ->
  let r := run_edit_call c model mask in
  vertices r !!! vj = vertices model !!! vj /\
  length (vertices r) = length (vertices model) /\
  selection r = selection model /\ normals r = normals model /\
  tangents r = tangents model /\ indices r = indices model.
Proof.
  intros Hvj Hskip r. subst r.
  assert (Hedit : forall f,
             let r := edit_vertices model mask f in
             vertices r !!! vj = vertices model !!! vj /\
             length (vertices r) = length (vertices model) /\
             selection r = selection model /\ normals r = normals model /\
             tangents r = tangents model /\ indices r = indices model).
  { intros f r. subst r.
    destruct (edit_vertices_slot model mask f vj Hvj) as [Hl Hv].
    split; [| split; [exact Hl | repeat split]].
    rewrite Hv. destruct (decide (vj < num_vertices model)%nat) as [Hn | Hn];
      [| reflexivity].
    destruct Hskip as [Hge | [-> Hz]]; [lia |].
    unfold mask_weight. apply feqb_true in Hz. now rewrite Hz. }
  destruct c; cbn [run_edit_call].
  - apply Hedit.
  - apply Hedit.
  - destruct (npRotatePivotVertices_edit model value pivot_pos pivot_rot mask)
      as [-> | [f ->]]; [repeat split | apply Hedit].
  - apply Hedit.
Qed.

(** [npMoveVertices] adds to every vertex the displacement, brought into
    the space of the mesh and scaled by the weight of the vertex: moving by
    [a] and then by [b] is moving by [a + b] (in exact arithmetic). *)
Theorem npMoveVertices_compose (model : npMeshData) (a b : float3) (mask : bool)
    (vj : nat) :
  (vj < length (vertices model))%nat ->
  float3_eq
    (vertices (npMoveVertices (npMoveVertices model a mask) b mask) !!! vj)
    (vertices (npMoveVertices model (a + b)%v3 mask) !!! vj).
Proof.
  intros Hvj. unfold npMoveVertices.
  set (fa := fun (s : Q) (v : float3) => (v + _ * s)%v3).
  destruct (edit_vertices_slot model mask fa vj Hvj) as [Hla Hva].
  set (m1 := edit_vertices model mask fa) in *.
  assert (Ht : transform m1 = transform model) by reflexivity.
  assert (Hw : forall i, mask_weight m1 mask i = mask_weight model mask i)
    by reflexivity.
  assert (Hn : num_vertices m1 = num_vertices model) by reflexivity.
  rewrite Ht.
  match goal with
  | |- float3_eq (vertices (edit_vertices m1 mask ?fb) !!! vj)
                 (vertices (edit_vertices model mask ?fc) !!! vj) =>
      destruct (edit_vertices_slot m1 mask fb vj ltac:(lia)) as [_ Hvb];
      destruct (edit_vertices_slot model mask fc vj Hvj) as [_ Hvc]
  end.
  rewrite Hvb, Hvc, Hva, Hn, Hw. clear Hvb Hvc Hva.
  destruct (decide (vj < num_vertices model)%nat); [| reflexivity].
  destruct (feqb (mask_weight model mask vj) 0); [reflexivity |].
  subst fa. cbv beta.
  pose proof (mul_v_add (inv.invert (transform model)) a b) as (Hx & Hy & Hz).
  unfold float3_eq, mu.add3, mu.scale3 in *. cbn [x3 y3 z3] in *.
  rewrite Hx, Hy, Hz. repeat split; ring.
Qed.

(** Seen in the space of [trans], an invertible affine map,
    [npAssignVertices] moves each vertex it edits towards the point that
    has the coordinates of [value] on the chosen axes and the coordinates
    of the vertex on the others, by the weight of the vertex (in exact
    arithmetic). *)
Theorem npAssignVertices_axes (model : npMeshData) (value : float3)
    (trans : float4x4) (xyz : Z) (mask : bool) (vj : nat) :
  affine trans -> ~ inv.det trans == 0 ->
  (vj < num_vertices model)%nat -> (vj < length (vertices model))%nat ->
  ~ mask_weight model mask vj == 0 ->
  let v1 := mu.mul_p trans (vertices model !!! vj) in
  float3_eq
    (mu.mul_p trans
       (vertices (npAssignVertices model value trans xyz mask) !!! vj))
    (mu.lerp v1 (assign_axes value v1 xyz) (mask_weight model mask vj)).
Proof.
  intros Haff Hdet Hn Hvj Hs v1. unfold npAssignVertices.
  match goal with
  | |- context [edit_vertices model mask ?f] =>
      destruct (edit_vertices_slot model mask f vj Hvj) as [_ Hv]
  end.
  rewrite Hv. destruct (decide (vj < num_vertices model)%nat); [| lia].
  destruct (feqb (mask_weight model mask vj) 0) eqn:Ez;
    [apply feqb_true in Ez; contradiction |].
  cbv beta zeta. now apply affine_invert.
Qed.

End Edits.

(** ** Which vertices a selection writes *)

Section SelectionTargets.
Context {E : muExternals}.
Local Open Scope Q_scope.

(** The loop shared by [npSelectRect] and [npSelectLasso], slot by slot,
    and its count. *)
Lemma select_screen_weights (model : npMeshData) (mvp : float4x4)
    (inside : float2 -> Q -> bool) (campos : float3) (strength : Q)
    (frontface_only : bool) (vj : nat) :
  (vj < length (selection model))%nat ->
  let picked := screen_selected model mvp inside campos frontface_only in
  let r := select_screen model mvp inside campos strength frontface_only in
  selection (fst r) !!! vj
  = (if decide (vj < num_vertices model)%nat then
       if picked vj then mu.clamp01 (selection model !!! vj + strength)
       else selection model !!! vj
     else selection model !!! vj) /\
  snd r = Z.of_nat (length (List.filter picked (seq 0 (num_vertices model)))) /\
  length (selection (fst r)) = length (selection model) /\
  vertices (fst r) = vertices model /\ normals (fst r) = normals model.
Proof.
  intros Hvj picked r. subst r. unfold select_screen.
  match goal with
  | |- context [fold_left ?st (seq 0 ?n) ?init] =>
      assert (HF := fun h1 h2 h3 =>
        fold_slots (St := list Q * Z) fst st
          (fun i old => if picked i then mu.clamp01 (old + strength) else old)
          h1 h2 h3 n init vj Hvj);
      assert (HC : forall k,
                snd (fold_left st (seq 0 k) init)
                = Z.of_nat (length (List.filter picked (seq 0 k))))
  end.
  { induction k as [|k IH]; [reflexivity |].
    rewrite fold_left_seq_S, seq_S, List.filter_app, length_app.
    cbn [List.filter Nat.add].
    destruct (fold_left _ (seq 0 k) _) as [sel ret]. cbn [snd] in IH.
    subst picked. unfold screen_selected in IH |- *. cbv beta.
    destruct (screen_pos mvp (vertices model !!! k)) as [[sp z]|];
      [| cbn [snd length]; lia].
    destruct (inside sp z); cbn [andb].
    - destruct (front_face _ _ _ _); cbn [snd length]; lia.
    - cbn [snd length]. lia. }
  destruct HF as [Hl Hv].
  - intros [sel ret] i. cbn [fst].
    destruct (screen_pos mvp (vertices model !!! i)) as [[sp z]|];
      [| reflexivity].
    destruct (inside sp z); [| reflexivity].
    destruct (front_face _ _ _ _); [apply length_insert | reflexivity].
  - intros [sel ret] i Hi. cbn [fst] in *. subst picked. unfold screen_selected.
    destruct (screen_pos mvp (vertices model !!! i)) as [[sp z]|];
      [| reflexivity].
    destruct (inside sp z); cbn [andb]; [| reflexivity].
    destruct (front_face _ _ _ _); [| reflexivity]. cbn [fst].
    now apply list_lookup_total_insert_eq.
  - intros [sel ret] i j Hij. cbn [fst].
    destruct (screen_pos mvp (vertices model !!! i)) as [[sp z]|];
      [| reflexivity].
    destruct (inside sp z); [| reflexivity].
    destruct (front_face _ _ _ _); [| reflexivity]. cbn [fst].
    now apply list_lookup_total_insert_ne.
  - specialize (HC (num_vertices model)).
    destruct (fold_left _ (seq 0 (num_vertices model)) _) as [sel ret].
    cbn [fst snd] in *. cbn [selection vertices normals set_selection].
    rewrite Hv. repeat split; assumption.
Qed.

(** [npSelectRect] adds [strength], clamped to [0, 1], to the weight of
    every vertex whose screen position lies in the rectangle with a
    positive depth and that passes the front-face filter; it leaves every
    other weight as it was and returns the number of vertices it wrote.
    A vertex at a zero clip [w] has no screen position inside a rectangle
    and is not selected. *)
Theorem npSelectRect_weights (model : npMeshData) (mvp : float4x4)
    (rmin rmax : float2) (campos : float3) (strength : Q)
    (frontface_only : bool) (vj : nat) :
  (vj < length (selection model))%nat ->
  let picked :=
    screen_selected model mvp (rect_test rmin rmax) campos frontface_only in
  let r := npSelectRect model mvp rmin rmax campos strength frontface_only in
  selection (fst r) !!! vj
  = (if decide (vj < num_vertices model)%nat then
       if picked vj then mu.clamp01 (selection model !!! vj + strength)
       else selection model !!! vj
     else selection model !!! vj) /\
  snd r = Z.of_nat (length (List.filter picked (seq 0 (num_vertices model)))) /\
  (w4 (mu.mul4 mvp (vertices model !!! vj)) == 0 -> picked vj = false).
Proof.
  intros Hvj picked r.
  destruct (select_screen_weights model mvp (rect_test rmin rmax) campos strength
              frontface_only vj Hvj) as (Hv & Hc & _).
  split; [exact Hv | split; [exact Hc |]].
  intros Hw. subst picked. unfold screen_selected, screen_pos. cbv zeta.
  now rewrite (proj2 (feqb_true _ _) Hw).
Qed.

(** With three lasso points or more, and no vertex of the mesh at a zero
    clip [w], [npSelectLasso] adds [strength], clamped to [0, 1], to the
    weight of every vertex whose screen position lies in the polygon and
    that passes the front-face filter, whatever its depth; it leaves every
    other weight as it was and returns the number of vertices it wrote. *)
Theorem npSelectLasso_weights (model : npMeshData) (mvp : float4x4)
    (lasso : list float2) (num_lasso_points : Z) (campos : float3)
    (strength : Q) (frontface_only : bool) (vj : nat) :
  (3 <= num_lasso_points)%Z ->
  (forall vi, (vi < num_vertices model)%nat ->
     ~ w4 (mu.mul4 mvp (vertices model !!! vi)) == 0) ->
  (vj < length (selection model))%nat ->
  let picked :=
    screen_selected model mvp (lasso_test lasso num_lasso_points) campos
                    frontface_only in
  let r := npSelectLasso model mvp lasso num_lasso_points campos strength
                         frontface_only in
  selection (fst r) !!! vj
  = (if decide (vj < num_vertices model)%nat then
       if picked vj then mu.clamp01 (selection model !!! vj + strength)
       else selection model !!! vj
     else selection model !!! vj) /\
  snd r = Z.of_nat (length (List.filter picked (seq 0 (num_vertices model)))).
Proof.
  intros Hn _ Hvj picked r.
  destruct (select_screen_weights model mvp (lasso_test lasso num_lasso_points)
              campos strength frontface_only vj Hvj) as (Hv & Hc & _).
  assert (Hr : r = select_screen model mvp (lasso_test lasso num_lasso_points)
                                 campos strength frontface_only).
  { subst r. unfold npSelectLasso.
    destruct (num_lasso_points <? 3)%Z eqn:El; [apply Z.ltb_lt in El; lia |].
    unfold lasso_test. cbv zeta.
    destruct (MinMax lasso (Z.to_nat num_lasso_points)) as [minp maxp].
    reflexivity. }
  rewrite Hr. split; [exact Hv | exact Hc].
Qed.


(** A ray that misses the mesh makes [npSelectTriangle] return 0 and
    change nothing.  After a hit it returns 1, the three corners of the
    triangle hit, when they are distinct, have each received [strength]
    once, and no other weight has changed. *)
Theorem npSelectTriangle_corners (model : npMeshData) (pos dir : float3)
    (strength : Q) :
  let hit := fst (fst (Raycast model pos dir)) in
  let corner i := indices model !!! (snd (fst (Raycast model pos dir)) * 3 + i)%nat in
  let r := npSelectTriangle model pos dir strength in
  (hit = 0%Z -> r = (model, 0%Z)) /\
  (hit <> 0%Z ->
   snd r = 1%Z /\
   (forall vj, vj <> corner 0%nat -> vj <> corner 1%nat -> vj <> corner 2%nat ->
               selection (fst r) !! vj = selection model !! vj) /\
   (corner 0%nat <> corner 1%nat -> corner 0%nat <> corner 2%nat ->
    corner 1%nat <> corner 2%nat ->
    forall i, (i < 3)%nat -> (corner i < length (selection model))%nat ->
      selection (fst r) !!! corner i
      = mu.clamp01 (selection model !!! corner i + strength))).
Proof.
  intros hit corner r. subst hit corner r. unfold npSelectTriangle.
  destruct (Raycast model pos dir) as [[hit ti] d]. cbn [fst snd].
  split.
  - intros ->. reflexivity.
  - intros Hhit. apply Z.eqb_neq in Hhit. rewrite Hhit.
    cbn [fst snd selection set_selection seq fold_left].
    unfold add_selection.
    set (a := indices model !!! (ti * 3 + 0)%nat).
    set (b := indices model !!! (ti * 3 + 1)%nat).
    set (c := indices model !!! (ti * 3 + 2)%nat).
    split; [reflexivity | split].
    + intros vj Ha Hb Hc.
      rewrite !list_lookup_insert_ne by congruence. reflexivity.
    + intros Hab Hac Hbc i Hi Hlt.
      destruct i as [|[|[|i]]]; [| | | lia].
      * fold a in Hlt |- *.
        rewrite list_lookup_total_insert_ne by congruence.
        rewrite list_lookup_total_insert_ne by congruence.
        now rewrite list_lookup_total_insert_eq.
      * fold b in Hlt |- *.
        rewrite list_lookup_total_insert_ne by congruence.
        rewrite list_lookup_total_insert_eq by (rewrite length_insert; exact Hlt).
        rewrite list_lookup_total_insert_ne by congruence. reflexivity.
      * fold c in Hlt |- *.
        rewrite list_lookup_total_insert_eq
          by (rewrite !length_insert; exact Hlt).
        rewrite list_lookup_total_insert_ne by congruence.
        rewrite list_lookup_total_insert_ne by congruence. reflexivity.
Qed.

(** The loop of [select_visited] over what the routine reports. *)
Lemma select_visited_weights (model : npMeshData) (strength : Q) (clear : bool)
    (visited : list nat) :
  let sel0 := if clear then clear_selection (selection model) (num_vertices model)
              else selection model in
  let r := select_visited model strength clear visited in
  snd r = Z.of_nat (length visited) /\
  length (selection (fst r)) = length sel0 /\
  forall vj, vj ∉ visited -> selection (fst r) !! vj = sel0 !! vj.
Proof.
  intros sel0 r. subst r. unfold select_visited. fold sel0.
  assert (H : forall sel ret,
             let r := fold_left
                        (fun '(sel, ret) vi =>
                           (add_selection sel vi strength, (ret + 1)%Z))
                        visited (sel, ret) in
             snd r = (ret + Z.of_nat (length visited))%Z /\
             length (fst r) = length sel /\
             forall vj, vj ∉ visited -> fst r !! vj = sel !! vj).
  { induction visited as [|v vs IH]; intros sel ret; cbn [fold_left length].
    - cbn. split; [lia | split; reflexivity].
    - destruct (IH (add_selection sel v strength) (ret + 1)%Z) as (Hc & Hl & Hout).
      unfold add_selection in Hl. rewrite length_insert in Hl.
      split; [rewrite Hc; lia | split; [exact Hl |]].
      intros vj Hvj. apply not_elem_of_cons in Hvj. destruct Hvj as [Hne Hvj].
      rewrite (Hout vj Hvj). unfold add_selection.
      apply list_lookup_insert_ne. congruence. }
  specialize (H sel0 0%Z). cbv zeta in H.
  destruct (fold_left _ visited (sel0, 0%Z)) as [sel ret]. cbn [fst snd] in *.
  cbn [selection set_selection]. destruct H as (Hc & Hl & Hout).
  repeat split; assumption.
Qed.

(** [npSelectEdge], [npSelectHole] and [npSelectConnected] return the
    number of vertices their topology routine reports and write to these
    alone: the weight of any other vertex is the one it had, or, when the
    call clears and the vertex lies below [num_vertices], zero, even if
    the vertex was one of the selected vertices the routine started
    from. *)
Theorem topology_selection_weights (c : selection_call) (model : npMeshData)
    (vj : nat) :
  topology_call c = true ->
  (vj < length (selection model))%nat ->
  vj ∉ reported_vertices c model ->
  let r := run_selection_call c model in
  snd r = Z.of_nat (length (reported_vertices c model)) /\
  selection (fst r) !!! vj
  = if clears_first c && bool_decide (vj < num_vertices model)%nat then 0
    else selection model !!! vj.
Proof.
  intros Htop Hvj Hout r.
  assert (Hgen : forall strength clear,
             let r := select_visited model strength clear
                                     (reported_vertices c model) in
             snd r = Z.of_nat (length (reported_vertices c model)) /\
             selection (fst r) !!! vj
             = if clear && bool_decide (vj < num_vertices model)%nat then 0
               else selection model !!! vj).
  { intros strength clear r0. subst r0.
    destruct (select_visited_weights model strength clear
                (reported_vertices c model)) as (Hc & _ & Hw).
    split; [exact Hc |].
    rewrite list_lookup_total_alt, (Hw vj Hout), <- list_lookup_total_alt.
    destruct clear; cbn [andb]; [| reflexivity].
    unfold clear_selection.
    destruct (bool_decide_reflect (vj < num_vertices model)%nat) as [Hn | Hn].
    - rewrite lookup_total_app_l by (rewrite length_replicate; lia).
      rewrite lookup_total_replicate_2 by lia. reflexivity.
    - rewrite lookup_total_app_r by (rewrite length_replicate; lia).
      rewrite length_replicate, lookup_total_drop. f_equal. lia. }
  destruct c; try discriminate Htop; subst r;
    cbn [run_selection_call clears_first]; apply Hgen.
Qed.

End SelectionTargets.

(** ** Mirroring applied in place *)

(** A loop in which step [vi] writes at most one slot, [tgt vi], with a
    value computed from the buffer as it is then. *)
Lemma scatter_untouched {A : Type} (tgt : nat -> option nat)
    (val : nat -> list A -> A) (steps : list nat) (l : list A) (j : nat) :
  let step l vi := match tgt vi with Some r => <[r := val vi l]> l | None => l end in
  length (fold_left step steps l) = length l /\
  ((forall vk, vk ∈ steps -> tgt vk <> Some j) ->
   fold_left step steps l !! j = l !! j).
Proof.
  intros step. revert l. induction steps as [|v vs IH]; intros l; cbn [fold_left].
  - split; reflexivity.
  - destruct (IH (step l v)) as [Hl Hout].
    assert (Hsl : length (step l v) = length l).
    { subst step. cbv beta. destruct (tgt v); [apply length_insert | reflexivity]. }
    split; [now rewrite Hl |].
    intros Hno. rewrite Hout by (intros vk Hvk; apply Hno; now right).
    subst step. cbv beta. destruct (tgt v) as [r|] eqn:Et; [| reflexivity].
    apply list_lookup_insert_ne. intros ->. apply (Hno v); [now left | exact Et].
Qed.

Lemma scatter_sole {A : Type} `{Inhabited A} (tgt : nat -> option nat)
    (val : nat -> list A -> A) (n : nat) (l : list A) (vi r : nat) :
  let step l vi := match tgt vi with Some r => <[r := val vi l]> l | None => l end in
  (vi < n)%nat -> tgt vi = Some r -> (r < length l)%nat ->
  (forall vk, (vi < vk < n)%nat -> tgt vk <> Some r) ->
  fold_left step (seq 0 n) l !!! r = val vi (fold_left step (seq 0 vi) l).
Proof.
  intros step Hvi Ht Hr Hafter.
  replace n with (vi + S (n - vi - 1))%nat by lia.
  rewrite seq_app, fold_left_app. cbn [seq fold_left Nat.add].
  set (l1 := fold_left step (seq 0 vi) l).
  destruct (scatter_untouched tgt val (seq 0 vi) l r) as [Hl1 _].
  fold step in Hl1. fold l1 in Hl1.
  destruct (scatter_untouched tgt val (seq (S vi) (n - vi - 1)) (step l1 vi) r)
    as [_ Hout].
  fold step in Hout.
  rewrite list_lookup_total_alt, Hout, <- list_lookup_total_alt.
  - subst step. cbv beta. rewrite Ht.
    apply list_lookup_total_insert_eq. lia.
  - intros vk Hvk. apply elem_of_seq in Hvk. apply Hafter. lia.
Qed.

Section ApplyMirroring.
Context {E : muExternals}.
Local Open Scope Q_scope.

Variables (model : npMeshData) (relation : list Z) (mirror_plane : float3).

Lemma mirror_vertices_scatter (vtx : list float3) (vi : nat) :
  mirror_vertices_step relation mirror_plane vtx vi
  = match (mirror_vertex_target relation) vi with
    | Some r => <[r := (mirror_vertex_value relation mirror_plane) vi vtx]> vtx
    | None => vtx
    end.
Proof.
  unfold mirror_vertices_step, mirror_vertex_target, mirror_vertex_value. cbv zeta.
  destruct (0 <=? relation !!! vi)%Z; [reflexivity |].
  destruct (relation !!! vi =? -2)%Z; reflexivity.
Qed.

Lemma mirror_normals_scatter (nrm : list float3) (vi : nat) :
  mirror_normals_step relation mirror_plane nrm vi
  = match (mirror_normal_target relation) vi with
    | Some r => <[r := mirror_normal_value mirror_plane vi nrm]> nrm
    | None => nrm
    end.
Proof.
  unfold mirror_normals_step, mirror_normal_target, mirror_normal_value. cbv zeta.
  destruct (0 <=? relation !!! vi)%Z; reflexivity.
Qed.

Lemma mirror_vertices_fold (steps : list nat) (vtx : list float3) :
  fold_left (mirror_vertices_step relation mirror_plane) steps vtx
  = fold_left (fun l vi => match mirror_vertex_target relation vi with
                           | Some r =>
                               <[r := mirror_vertex_value relation mirror_plane vi l]> l
                           | None => l
                           end) steps vtx.
Proof. apply fold_left_pointwise, mirror_vertices_scatter. Qed.

Lemma mirror_normals_fold (steps : list nat) (nrm : list float3) :
  fold_left (mirror_normals_step relation mirror_plane) steps nrm
  = fold_left (fun l vi => match mirror_normal_target relation vi with
                           | Some r => <[r := mirror_normal_value mirror_plane vi l]> l
                           | None => l
                           end) steps nrm.
Proof. apply fold_left_pointwise, mirror_normals_scatter. Qed.

Lemma mirror_vertex_target_other (vk r : nat) :
  mirror_vertex_target relation vk = Some r -> r <> vk ->
  relation !!! vk = Z.of_nat r.
Proof.
  unfold mirror_vertex_target. cbv zeta.
  destruct (0 <=? relation !!! vk)%Z eqn:E0.
  - apply Z.leb_le in E0. intros [= <-] _. lia.
  - destruct (relation !!! vk =? -2)%Z; [intros [= <-] Hne; congruence |
                                         discriminate].
Qed.

Lemma mirror_vertex_target_self (vk : nat) :
  mirror_vertex_target relation vk = Some vk ->
  relation !!! vk = (-2)%Z \/ relation !!! vk = Z.of_nat vk.
Proof.
  unfold mirror_vertex_target. cbv zeta.
  destruct (0 <=? relation !!! vk)%Z eqn:E0.
  - apply Z.leb_le in E0. intros [= Heq]. right. lia.
  - destruct (relation !!! vk =? -2)%Z eqn:E2; [| discriminate].
    apply Z.eqb_eq in E2. now left.
Qed.

Lemma mirror_normal_target_Some (vk r : nat) :
  mirror_normal_target relation vk = Some r -> relation !!! vk = Z.of_nat r.
Proof.
  unfold mirror_normal_target. cbv zeta.
  destruct (0 <=? relation !!! vk)%Z eqn:E0; [| discriminate].
  apply Z.leb_le in E0. intros [= <-]. lia.
Qed.

Lemma mirror_target_related (vi ri : nat) :
  relation !!! vi = Z.of_nat ri ->
  mirror_vertex_target relation vi = Some ri /\
  mirror_normal_target relation vi = Some ri.
Proof.
  intros Hrel. unfold mirror_vertex_target, mirror_normal_target. cbv zeta.
  rewrite Hrel. destruct (0 <=? Z.of_nat ri)%Z eqn:E0; [| apply Z.leb_gt in E0; lia].
  now rewrite Nat2Z.id.
Qed.

(** A slot that no step of a prefix of the position loop writes holds its
    first value after the prefix. *)
Lemma mirror_vertices_kept (steps : list nat) (vtx : list float3) (j : nat) :
  (forall vk, vk ∈ steps -> mirror_vertex_target relation vk <> Some j) ->
  fold_left (fun l vi => match mirror_vertex_target relation vi with
                         | Some r =>
                             <[r := mirror_vertex_value relation mirror_plane vi l]> l
                         | None => l
                         end) steps vtx !!! j = vtx !!! j.
Proof.
  intros Hno.
  destruct (scatter_untouched (mirror_vertex_target relation)
              (mirror_vertex_value relation mirror_plane) steps vtx j) as [_ Hout].
  rewrite !list_lookup_total_alt. now rewrite Hout.
Qed.

Lemma mirror_normals_kept (steps : list nat) (nrm : list float3) (j : nat) :
  (forall vk, vk ∈ steps -> mirror_normal_target relation vk <> Some j) ->
  fold_left (fun l vi => match mirror_normal_target relation vi with
                         | Some r => <[r := mirror_normal_value mirror_plane vi l]> l
                         | None => l
                         end) steps nrm !!! j = nrm !!! j.
Proof.
  intros Hno.
  destruct (scatter_untouched (mirror_normal_target relation)
              (mirror_normal_value mirror_plane) steps nrm j) as [_ Hout].
  rewrite !list_lookup_total_alt. now rewrite Hout.
Qed.

(** When vertex [vi] is related to [ri], no vertex is related to [vi],
    no other vertex is related to [ri], and [ri] is not tagged as lying on
    the plane, [npApplyMirroring] leaves in slot [ri] of the position and
    normal buffers the mirror image of what slot [vi] held before the
    call. *)
Theorem npApplyMirroring_pair (vtx nrm : list float3) (tng : option (list float4))
    (vi ri : nat) :
  (vi < num_vertices model)%nat ->
  relation !!! vi = Z.of_nat ri ->
  (ri < length vtx)%nat -> (ri < length nrm)%nat ->
  (forall vk, (vk < num_vertices model)%nat -> relation !!! vk <> Z.of_nat vi) ->
  (forall vk, (vk < num_vertices model)%nat -> vk <> vi ->
              relation !!! vk <> Z.of_nat ri) ->
  relation !!! ri <> (-2)%Z ->
  exists vtx' nrm',
    fst (npApplyMirroring model (Some relation) mirror_plane (Some vtx) (Some nrm)
                          tng) = (Some vtx', Some nrm') /\
    vtx' !!! ri = mu.plane_mirror (vtx !!! vi) mirror_plane /\
    nrm' !!! ri = mu.plane_mirror (nrm !!! vi) mirror_plane.
Proof.
  intros Hvi Hrel Hrv Hrn Hnovi Hsole Hplane.
  destruct (mirror_target_related vi ri Hrel) as [Htv Htn].
  unfold npApplyMirroring. cbn [fst option_map].
  eexists _, _. split; [reflexivity |].
  rewrite mirror_vertices_fold, mirror_normals_fold. split.
  - rewrite (scatter_sole (mirror_vertex_target relation)
               (mirror_vertex_value relation mirror_plane) (num_vertices model)
               vtx vi ri Hvi Htv Hrv).
    + unfold mirror_vertex_value at 1. rewrite Hrel.
      destruct (0 <=? Z.of_nat ri)%Z eqn:E0; [| apply Z.leb_gt in E0; lia].
      rewrite mirror_vertices_kept; [reflexivity |].
      intros vk Hvk Ht. apply elem_of_seq in Hvk.
      apply (Hnovi vk); [lia |]. apply mirror_vertex_target_other; [exact Ht | lia].
    + intros vk Hvk Ht. destruct (decide (ri = vk)) as [<- | Hne].
      * destruct (mirror_vertex_target_self ri Ht) as [H2 | Hr]; [contradiction |].
        apply (Hsole ri); [lia | lia | exact Hr].
      * apply (Hsole vk); [lia | lia |]. now apply mirror_vertex_target_other.
  - rewrite (scatter_sole (mirror_normal_target relation)
               (mirror_normal_value mirror_plane) (num_vertices model)
               nrm vi ri Hvi Htn Hrn).
    + unfold mirror_normal_value at 1.
      rewrite mirror_normals_kept; [reflexivity |].
      intros vk Hvk Ht. apply elem_of_seq in Hvk.
      apply (Hnovi vk); [lia |]. now apply mirror_normal_target_Some.
    + intros vk Hvk Ht. apply (Hsole vk); [lia | lia |].
      now apply mirror_normal_target_Some.
Qed.

(** A vertex to which no vertex is related is projected onto the mirror
    plane by [npApplyMirroring] when it is tagged -2, and keeps its
    position otherwise; its normal is kept in either case. *)
Theorem npApplyMirroring_plane (vtx nrm : list float3) (tng : option (list float4))
    (vj : nat) :
  (vj < length vtx)%nat ->
  (forall vk, (vk < num_vertices model)%nat -> relation !!! vk <> Z.of_nat vj) ->
  exists vtx' nrm',
    fst (npApplyMirroring model (Some relation) mirror_plane (Some vtx) (Some nrm)
                          tng) = (Some vtx', Some nrm') /\
    length vtx' = length vtx /\ length nrm' = length nrm /\
    nrm' !!! vj = nrm !!! vj /\
    vtx' !!! vj
    = if bool_decide (vj < num_vertices model)%nat && (relation !!! vj =? -2)%Z
      then (vtx !!! vj
            - mirror_plane * mu.plane_distance (vtx !!! vj) mirror_plane)%v3
      else vtx !!! vj.
Proof.
  intros Hvj Hnone.
  unfold npApplyMirroring. cbn [fst option_map].
  eexists _, _. split; [reflexivity |].
  rewrite mirror_vertices_fold, mirror_normals_fold.
  destruct (scatter_untouched (mirror_vertex_target relation)
              (mirror_vertex_value relation mirror_plane)
              (seq 0 (num_vertices model)) vtx vj) as [Hlv _].
  destruct (scatter_untouched (mirror_normal_target relation)
              (mirror_normal_value mirror_plane)
              (seq 0 (num_vertices model)) nrm vj) as [Hln _].
  split; [exact Hlv | split; [exact Hln | split]].
  - apply mirror_normals_kept. intros vk Hvk Ht. apply elem_of_seq in Hvk.
    apply (Hnone vk); [lia |]. now apply mirror_normal_target_Some.
  - assert (Hother : forall vk, (vk < num_vertices model)%nat -> vk <> vj ->
                                mirror_vertex_target relation vk <> Some vj).
    { intros vk Hvk Hne Ht. apply (Hnone vk Hvk).
      apply mirror_vertex_target_other; [exact Ht | congruence]. }
    destruct (bool_decide_reflect (vj < num_vertices model)%nat) as [Hn | Hn];
      cbn [andb].
    + destruct (relation !!! vj =? -2)%Z eqn:E2.
      * apply Z.eqb_eq in E2.
        rewrite (scatter_sole (mirror_vertex_target relation)
                   (mirror_vertex_value relation mirror_plane) (num_vertices model)
                   vtx vj vj Hn).
        -- unfold mirror_vertex_value at 1. rewrite E2. cbn [Z.leb Z.compare].
           rewrite mirror_vertices_kept; [reflexivity |].
           intros vk Hvk. apply elem_of_seq in Hvk. apply Hother; lia.
        -- unfold mirror_vertex_target. cbv zeta. rewrite E2. reflexivity.
        -- exact Hvj.
        -- intros vk Hvk. apply Hother; lia.
      * apply mirror_vertices_kept. intros vk Hvk. apply elem_of_seq in Hvk.
        destruct (decide (vk = vj)) as [-> | Hne]; [| apply Hother; lia].
        intros Ht. destruct (mirror_vertex_target_self vj Ht) as [H2 | Hr].
        -- apply Z.eqb_neq in E2. contradiction.
        -- apply (Hnone vj); [lia | exact Hr].
    + apply mirror_vertices_kept. intros vk Hvk. apply elem_of_seq in Hvk.
      apply Hother; lia.
Qed.

(** [npApplyMirroring] writes the first three components of a tangent
    only: the fourth component of every tangent is after the call what it
    was before, and the buffer keeps its length. *)
Theorem npApplyMirroring_tangent_w (vtx nrm : option (list float3))
    (tng : list float4) (vj : nat) :
  exists tng',
    snd (npApplyMirroring model (Some relation) mirror_plane vtx nrm (Some tng))
      = Some tng' /\
    length tng' = length tng /\
    w4 (tng' !!! vj) = w4 (tng !!! vj).
Proof.
  unfold npApplyMirroring. cbn [snd option_map]. eexists. split; [reflexivity |].
  generalize (seq 0 (num_vertices model)). intros steps. revert tng.
  induction steps as [|v vs IH]; intros tng; cbn [fold_left].
  - split; reflexivity.
  - destruct (IH (mirror_tangents_step relation mirror_plane tng v)) as [Hl Hw].
    rewrite Hl, Hw. unfold mirror_tangents_step. cbv zeta.
    destruct (0 <=? relation !!! v)%Z; [| split; reflexivity].
    split; [apply length_insert |].
    set (r := Z.to_nat (relation !!! v)).
    destruct (decide (r = vj)) as [<- | Hne].
    + destruct (decide (r < length tng)%nat) as [Hlt | Hge].
      * rewrite list_lookup_total_insert_eq by exact Hlt. reflexivity.
      * rewrite list_insert_ge by lia. reflexivity.
    + rewrite list_lookup_total_insert_ne by exact Hne. reflexivity.
Qed.

End ApplyMirroring.

(** ** The shape of a mirroring relation *)

Section RelationShape.
Context {E : muExternals}.
Local Open Scope Q_scope.

Variables (model : npMeshData) (mirror_plane : float3) (epsilon : Q).

Lemma mirror_relation_of_cases (distances : list Q) (vi : nat) :
  let r := mirror_relation_of model mirror_plane epsilon distances vi in
  (snd r = true /\ distances !!! vi < 0 /\
   exists i, fst r = Z.of_nat i /\ (i < num_vertices model)%nat /\
             0 < distances !!! i) \/
  (snd r = false /\ (fst r = (-1)%Z \/ (fst r = (-2)%Z /\ 0 <= distances !!! vi))).
Proof.
  intros r. subst r. unfold mirror_relation_of.
  destruct (fltb (distances !!! vi) 0) eqn:E1.
  - apply fltb_true in E1.
    pose proof (find_seq_first
                  (mirror_partner model mirror_plane epsilon distances vi)
                  (num_vertices model)) as Hfind.
    destruct (find _ _) as [i|]; cbn [fst snd].
    + left. destruct Hfind as (Hi & Hp & _). split; [reflexivity | split; [exact E1 |]].
      exists i. split; [reflexivity | split; [exact Hi |]].
      unfold mirror_partner in Hp. unfold fgtb in Hp.
      destruct (fltb 0 (distances !!! i)) eqn:E0; [now apply fltb_true in E0 |].
      cbn [andb] in Hp. discriminate.
    + right. split; [reflexivity | now left].
  - apply fltb_false in E1. right.
    destruct (near_equal _ 0); cbn [fst snd]; split; try reflexivity.
    + right. split; [reflexivity | exact E1].
    + now left.
Qed.

(** [npBuildMirroringRelation] returns the number of vertices it related
    to a partner.  Every entry it writes is -2, -1 or the index of a
    vertex of the mesh; and the partner of a vertex is itself related to
    no vertex, so that no vertex is both read and written when the
    relation is applied. *)
Theorem npBuildMirroringRelation_count (relation : list Z) :
  (num_vertices model <= length relation)%nat ->
  exists relation',
    npBuildMirroringRelation model mirror_plane epsilon (Some relation)
    = (Some relation',
       Z.of_nat (length (List.filter (fun vi => (0 <=? relation' !!! vi)%Z)
                                     (seq 0 (num_vertices model))))) /\
    forall vi, (vi < num_vertices model)%nat ->
      (relation' !!! vi = (-2)%Z \/ relation' !!! vi = (-1)%Z \/
       (0 <= relation' !!! vi < Z.of_nat (num_vertices model))%Z) /\
      ((0 <= relation' !!! vi)%Z ->
       (relation' !!! Z.to_nat (relation' !!! vi) < 0)%Z).
Proof.
  intros Hlen. unfold npBuildMirroringRelation.
  set (distances := map _ (seq 0 (num_vertices model))).
  set (step := fun '(relation, ret) vi => _).
  set (rel_of := fun vi => mirror_relation_of model mirror_plane epsilon distances vi).
  assert (Hslot : forall vj, (vj < num_vertices model)%nat ->
            fst (fold_left step (seq 0 (num_vertices model)) (relation, 0%Z)) !!! vj
            = fst (rel_of vj)).
  { intros vj Hvj.
    destruct (fold_slots (St := list Z * Z) fst step (fun i _ => fst (rel_of i)))
      with (k := num_vertices model) (s0 := (relation, 0%Z)) (j := vj)
      as [_ Hv].
    - intros [r c] i. subst step rel_of. cbn beta iota.
      destruct (mirror_relation_of _ _ _ _ i). cbn. apply length_insert.
    - intros [r c] i Hi. subst step rel_of. cbn beta iota.
      destruct (mirror_relation_of _ _ _ _ i). cbn in *.
      now apply list_lookup_total_insert_eq.
    - intros [r c] i j Hij. subst step rel_of. cbn beta iota.
      destruct (mirror_relation_of _ _ _ _ i). cbn.
      now apply list_lookup_total_insert_ne.
    - cbn. lia.
    - rewrite Hv. destruct (decide (vj < num_vertices model)%nat); [reflexivity | lia]. }
  assert (Hcount : forall k,
            snd (fold_left step (seq 0 k) (relation, 0%Z))
            = Z.of_nat (length (List.filter (fun vi => snd (rel_of vi)) (seq 0 k)))).
  { induction k as [|k IH]; [reflexivity |].
    rewrite fold_left_seq_S, seq_S, List.filter_app, length_app.
    cbn [List.filter Nat.add].
    destruct (fold_left step (seq 0 k) (relation, 0%Z)) as [r c].
    cbn [snd] in IH. subst step rel_of. cbn beta iota.
    destruct (mirror_relation_of _ _ _ _ k) as [rel found].
    destruct found; cbn [snd length]; lia. }
  specialize (Hcount (num_vertices model)).
  destruct (fold_left step _ _) as [relation' ret]. cbn [fst snd] in *.
  exists relation'.
  assert (Hd : forall vj, (vj < num_vertices model)%nat ->
                 (0 <=? relation' !!! vj)%Z = snd (rel_of vj)).
  { intros vj Hvj. rewrite (Hslot vj Hvj). subst rel_of. cbv beta.
    destruct (mirror_relation_of_cases distances vj)
      as [(Hs & _ & i & Hf & _) | (Hs & [Hf | [Hf _]])];
      rewrite Hs, Hf; [apply Z.leb_le; lia | reflexivity | reflexivity]. }
  split.
  - f_equal. rewrite Hcount. f_equal. f_equal.
    assert (Hext : forall l, (forall vj, In vj l -> (vj < num_vertices model)%nat) ->
               List.filter (fun vi => snd (rel_of vi)) l
               = List.filter (fun vi => (0 <=? relation' !!! vi)%Z) l).
    { induction l as [|a l IHl]; intros Hin; [reflexivity |]. cbn [List.filter].
      rewrite Hd by (apply Hin; now left).
      rewrite IHl by (intros; apply Hin; now right). reflexivity. }
    apply Hext. intros vj Hin. apply in_seq in Hin. lia.
  - intros vi Hvi. rewrite (Hslot vi Hvi). subst rel_of. cbv beta.
    destruct (mirror_relation_of_cases distances vi)
      as [(Hs & Hneg & i & Hi & Hlt & Hpos) | (Hs & [Hf | [Hf _]])].
    + rewrite Hi. split; [right; right; lia |]. intros _.
      rewrite Nat2Z.id, (Hslot i Hlt). cbv beta.
      destruct (mirror_relation_of_cases distances i)
        as [(_ & Hneg' & _) | (_ & [Hf | [Hf _]])]; [lra | lia | lia].
    + rewrite Hf. split; [right; now left | lia].
    + rewrite Hf. split; [now left | lia].
Qed.

End RelationShape.

(** ** What a weld leaves alone *)

Section WeldFrame.
Context {E : muExternals}.
Local Open Scope Q_scope.

Variables (model : npMeshData) (smoothing : bool) (weld_angle : Q) (mask : bool).

(** A vertex that lies [npEpsilon] or more from every other vertex of the
    mesh joins no group and, taken as a seed, gathers none: [npWeld]
    leaves its normal as it was. *)
Theorem npWeld_isolated (vj : nat) :
  (forall i, (i < num_vertices model)%nat -> i <> vj ->
     npEpsilon <= length3 (vertices model !!! i - vertices model !!! vj)%v3 /\
     npEpsilon <= length3 (vertices model !!! vj - vertices model !!! i)%v3) ->
  normals_of (fst (npWeld model smoothing weld_angle mask)) !!! vj
  = normals_of model !!! vj.
Proof.
  intros Hfar.
  assert (Hstep : forall st vk, (vk < num_vertices model)%nat ->
            w_normals (weld_step model smoothing weld_angle mask st vk) !!! vj
            = w_normals st !!! vj).
  { intros st vk Hk. rewrite weld_step_unfold.
    destruct (weld_is_seed model mask st vk); [| reflexivity].
    cbn zeta.
    destruct (weld_gather_spec model smoothing weld_angle st vk) as (_ & _ & Hsh).
    destruct (snd (fst (weld_gather _ _ _ _ _ _))) as [|s0 sh] eqn:Es;
      cbn [w_normals]; [reflexivity |].
    destruct (decide (vk = vj)) as [-> | Hkj].
    - exfalso. destruct (Hsh s0 ltac:(left)) as (Hlt0 & Hne0 & _ & Hd0 & _).
      destruct (Hfar s0 Hlt0 Hne0) as [Hge _]. lra.
    - assert (Hnin : vj ∉ s0 :: sh).
      { intros Hin. destruct (Hsh vj Hin) as (Hlt & Hne & _ & Hd & _).
        destruct (Hfar vk Hk Hkj) as [_ Hge]. lra. }
      match goal with
      | |- fold_left _ ?l ?l0 !!! vj = _ =>
          destruct (fold_insert_same
                      (normalize (fst (fst (weld_gather model (w_normals st)
                         smoothing weld_angle vk (w_checked st))))) l l0 vj)
            as (_ & H & _)
      end.
      rewrite H by exact Hnin. now apply list_lookup_total_insert_ne. }
  assert (Hloop : forall k, (k <= num_vertices model)%nat ->
            w_normals (weld_loop model smoothing weld_angle mask k) !!! vj
            = normals_of model !!! vj).
  { unfold weld_loop. induction k as [|k IH]; intros Hk; [reflexivity |].
    rewrite fold_left_seq_S, Hstep by lia. apply IH. lia. }
  unfold npWeld. cbn [fst]. unfold normals_of at 1. cbn [normals set_normals].
  destruct (normals model) as [nrm0|] eqn:En; cbn [option_map default].
  - apply Hloop. lia.
  - unfold normals_of. now rewrite En.
Qed.

(** Under [mask], when every vertex of the mesh has weight zero, no vertex
    is taken as a seed: [npWeld] returns 0 and the mesh is as it was. *)
Theorem npWeld_nothing_selected :
  mask = true ->
  (forall vi, (vi < num_vertices model)%nat -> selection model !!! vi == 0) ->
  npWeld model smoothing weld_angle mask = (model, 0%Z).
Proof.
  intros Hmask Hzero.
  assert (Hloop : forall k, (k <= num_vertices model)%nat ->
            weld_loop model smoothing weld_angle mask k
            = mkweld_state (normals_of model)
                           (replicate (num_vertices model) false) 0).
  { unfold weld_loop. induction k as [|k IH]; intros Hk; [reflexivity |].
    rewrite fold_left_seq_S, IH by lia.
    unfold weld_step, weld_is_seed, mask_weight. rewrite Hmask.
    assert (Hz : feqb (selection model !!! k) 0 = true)
      by (apply feqb_true, Hzero; lia).
    rewrite Hz, andb_false_r. reflexivity. }
  unfold npWeld. rewrite Hloop by lia. cbn [w_normals w_ret].
  f_equal. destruct model as [idx vtx nrm tng uvs sel nv nt tr].
  unfold set_normals, normals_of. cbn. destruct nrm; reflexivity.
Qed.

End WeldFrame.

(** ** Projection of normals, vertex by vertex *)

Section ProjectNormals.
Context {E : muExternals}.
Local Open Scope Q_scope.

(** [ProjectNormalsImpl], and with it [npProjectNormals] and
    [npProjectNormals2], leaves the normal of a vertex as it was when the
    weight of the vertex is zero under [mask] or its ray misses the
    target; when the ray hits, the normal becomes the normalised blend of
    the old normal and the normal of the target at the hit point, by the
    weight of the vertex.  Positions and weights are not written. *)
Theorem ProjectNormalsImpl_vertex (model target : npMeshData)
    (ray_dirs : nat -> float3) (mask : bool) (nrm0 : list float3) (vj : nat) :
  normals model = Some nrm0 ->
  (vj < num_vertices model)%nat -> (vj < length nrm0)%nat ->
  let to_local := mu.mul44 (transform target) (inv.invert (transform model)) in
  let s := mask_weight model mask vj in
  let r := ProjectNormalsImpl model target ray_dirs mask in
  normals_of r !!! vj
  = (if feqb s 0 then nrm0 !!! vj
     else match project_normal_hit target to_local (soa_build target to_local)
                                   ray_dirs (vertices model) vj with
          | Some result => normalize (mu.lerp (nrm0 !!! vj) result s)
          | None => nrm0 !!! vj
          end) /\
  length (normals_of r) = length nrm0 /\
  vertices r = vertices model /\ selection r = selection model.
Proof.
  intros Hn Hvj Hlt to_local s r. subst r. unfold ProjectNormalsImpl.
  fold to_local. unfold with_normals, normals_of. rewrite Hn.
  cbn [normals set_normals vertices selection option_map default from_option id].
  match goal with
  | |- context [fold_left ?st (seq 0 ?n) ?init] =>
      assert (HF := fun h1 h2 h3 =>
        fold_slots (St := list float3) (fun l => l) st
          (fun i old =>
             if feqb (mask_weight model mask i) 0 then old
             else match project_normal_hit target to_local
                          (soa_build target to_local) ray_dirs (vertices model) i with
                  | Some result =>
                      normalize (mu.lerp old result (mask_weight model mask i))
                  | None => old
                  end)
          h1 h2 h3 n init vj Hlt)
  end.
  destruct HF as [Hl Hv].
  - intros l i. unfold project_normal_vertex.
    destruct (feqb _ _); [reflexivity |].
    destruct (project_normal_hit _ _ _ _ _ _); [apply length_insert | reflexivity].
  - intros l i Hi. unfold project_normal_vertex.
    destruct (feqb _ _); [reflexivity |].
    destruct (project_normal_hit _ _ _ _ _ _); [| reflexivity].
    now apply list_lookup_total_insert_eq.
  - intros l i j Hij. unfold project_normal_vertex.
    destruct (feqb _ _); [reflexivity |].
    destruct (project_normal_hit _ _ _ _ _ _); [| reflexivity].
    now apply list_lookup_total_insert_ne.
  - cbv beta in Hv, Hl. rewrite Hv, Hl.
    destruct (decide (vj < num_vertices model)%nat); [| lia].
    repeat split.
Qed.

End ProjectNormals.

(** ** The layout of the terrain mesh *)

Lemma grid_index_lt (w n ix iy : nat) :
  (ix < w)%nat -> (iy < n)%nat -> (iy * w + ix < n * w)%nat.
Proof. intros Hx Hy. nia. Qed.

Section TerrainLayout.
Local Open Scope nat_scope.

Variable width : nat.

(** One row of cells: after the cells [0 .. m) of row [iy], every slot of
    these cells holds its index, and the slots before and after the row
    hold what they held. *)
Lemma terrain_row (iy m : nat) (dst : list nat) :
  let row := fold_left
               (fun dst ix =>
                  list_inserts ((iy * width + ix) * 6) (terrain_cell width ix iy) dst)
               (seq 0 m) dst in
  length row = length dst /\
  (forall ix k, ix < m -> k < 6 -> (iy * width + ix) * 6 + k < length dst ->
     row !!! ((iy * width + ix) * 6 + k) = terrain_cell width ix iy !!! k) /\
  (forall j, j < iy * width * 6 \/ (iy * width + m) * 6 <= j ->
     row !!! j = dst !!! j).
Proof.
  induction m as [|m IH]; intros row; subst row.
  - cbn [seq fold_left]. split; [reflexivity | split; [intros; lia | reflexivity]].
  - rewrite fold_left_seq_S. cbv zeta in IH. destruct IH as (Hl & Hin & Hout).
    set (prev := fold_left _ (seq 0 m) dst) in *.
    split; [now rewrite length_inserts | split].
    + intros ix k Hix Hk Hlen. destruct (decide (ix = m)) as [-> | Hne].
      * rewrite list_lookup_total_inserts by (cbn [length terrain_cell]; lia).
        f_equal. lia.
      * rewrite list_lookup_total_inserts_lt by lia. apply Hin; lia.
    + intros j Hj. destruct Hj as [Hj | Hj].
      * rewrite list_lookup_total_inserts_lt by lia. apply Hout. lia.
      * rewrite list_lookup_total_inserts_ge by (cbn [length terrain_cell]; lia).
        apply Hout. lia.
Qed.

(** The rows [0 .. n) of cells, each of [m] cells with [m < width]: the
    six slots after the last cell of a row are not written. *)
Lemma terrain_rows (m n : nat) (dst : list nat) :
  m < width ->
  let idx := fold_left
               (fun dst iy =>
                  fold_left
                    (fun dst ix =>
                       list_inserts ((iy * width + ix) * 6)
                                    (terrain_cell width ix iy) dst)
                    (seq 0 m) dst)
               (seq 0 n) dst in
  length idx = length dst /\
  (forall ix iy k, ix < m -> iy < n -> k < 6 ->
     (iy * width + ix) * 6 + k < length dst ->
     idx !!! ((iy * width + ix) * 6 + k) = terrain_cell width ix iy !!! k) /\
  (forall iy j, iy < n -> (iy * width + m) * 6 <= j < (iy + 1) * width * 6 ->
     idx !!! j = dst !!! j) /\
  (forall j, n * width * 6 <= j -> idx !!! j = dst !!! j).
Proof.
  intros Hm. induction n as [|n IH]; intros idx; subst idx.
  - cbn [seq fold_left].
    split; [reflexivity | split; [intros; lia | split; [intros; lia | reflexivity]]].
  - rewrite fold_left_seq_S. cbv zeta in IH.
    destruct IH as (Hl & Hin & Hgap & Hout).
    set (prev := fold_left _ (seq 0 n) dst) in *.
    destruct (terrain_row n m prev) as (Rl & Rin & Rout).
    split; [now rewrite Rl | split; [| split]].
    + intros ix iy k Hix Hiy Hk Hlen. destruct (decide (iy = n)) as [-> | Hne].
      * rewrite Rin by lia. reflexivity.
      * pose proof (grid_index_lt width n ix iy ltac:(lia) ltac:(lia)).
        rewrite Rout by (left; lia). apply Hin; lia.
    + intros iy j Hiy Hj. destruct (decide (iy = n)) as [-> | Hne].
      * rewrite Rout by (right; lia). apply Hout. lia.
      * assert ((iy + 1) * width <= n * width) by nia.
        rewrite Rout by (left; lia). apply (Hgap iy); lia.
    + intros j Hj. assert (n * width + m <= (n + 1) * width) by lia.
      rewrite Rout by (right; nia). apply Hout. nia.
Qed.

End TerrainLayout.

Section TerrainGrid.
Local Open Scope nat_scope.

(** A double loop over a grid of [w] columns whose step [(ix, iy)] writes
    slot [iy * w + ix] of a buffer, and no other slot: afterwards every
    slot of the grid holds the value of its own step. *)
Lemma grid_fold {St A : Type} `{Inhabited A} (proj : St -> list A)
    (step : nat -> St -> nat -> St) (g : nat -> nat -> A) (w : nat) :
  (forall iy s ix, length (proj (step iy s ix)) = length (proj s)) ->
  (forall iy s ix, iy * w + ix < length (proj s) ->
                   proj (step iy s ix) !!! (iy * w + ix) = g ix iy) ->
  (forall iy s ix j, j <> iy * w + ix -> proj (step iy s ix) !!! j = proj s !!! j) ->
  forall h s0,
    let r := fold_left (fun s iy => fold_left (step iy) (seq 0 w) s) (seq 0 h) s0 in
    length (proj r) = length (proj s0) /\
    (forall ix iy, ix < w -> iy < h -> iy * w + ix < length (proj s0) ->
       proj r !!! (iy * w + ix) = g ix iy) /\
    (forall j, h * w <= j -> proj r !!! j = proj s0 !!! j).
Proof.
  intros Hlen Hat Hne.
  assert (Hrow : forall iy m s,
            let r := fold_left (step iy) (seq 0 m) s in
            length (proj r) = length (proj s) /\
            (forall ix, ix < m -> iy * w + ix < length (proj s) ->
               proj r !!! (iy * w + ix) = g ix iy) /\
            (forall j, j < iy * w \/ iy * w + m <= j -> proj r !!! j = proj s !!! j)).
  { intros iy. induction m as [|m IH]; intros s r; subst r.
    - cbn. split; [reflexivity | split; [intros; lia | reflexivity]].
    - rewrite fold_left_seq_S. destruct (IH s) as (Hl & Hin & Hout).
      split; [now rewrite Hlen | split].
      + intros ix Hix Hlt. destruct (decide (ix = m)) as [-> | Hnm].
        * apply Hat. now rewrite Hl.
        * rewrite Hne by lia. apply Hin; lia.
      + intros j Hj. rewrite Hne by lia. apply Hout. lia. }
  induction h as [|h IH]; intros s0 r; subst r.
  - cbn. split; [reflexivity | split; [intros; lia | reflexivity]].
  - rewrite fold_left_seq_S. destruct (IH s0) as (Hl & Hin & Hout).
    set (prev := fold_left _ (seq 0 h) s0) in *.
    destruct (Hrow h w prev) as (Rl & Rin & Rout).
    split; [now rewrite Rl | split].
    + intros ix iy Hix Hiy Hlt. destruct (decide (iy = h)) as [-> | Hnh].
      * apply Rin; [exact Hix | now rewrite Hl].
      * pose proof (grid_index_lt w h ix iy Hix ltac:(lia)).
        rewrite Rout by (left; lia). apply Hin; [exact Hix | lia | exact Hlt].
    + intros j Hj. rewrite Rout by (right; lia). apply Hout. lia.
Qed.

End TerrainGrid.

Section TerrainMesh.
Local Open Scope Q_scope.

Variable GenerateNormalsTriangleIndexed :
  list float3 -> list float3 -> list nat -> Z -> Z -> list float3.

Variables (heightmap : list Q) (width height : Z) (size : float3)
  (dst_vertices dst_normals : list float3) (dst_uv : list float2)
  (dst_indices : list nat).

Lemma npGenerateTerrainMesh_indices :
  snd (npGenerateTerrainMesh GenerateNormalsTriangleIndexed heightmap width height
                             size dst_vertices dst_normals dst_uv dst_indices)
  = terrain_indices width height dst_indices.
Proof. reflexivity. Qed.

(** The two triangles of the grid cell [(ix, iy)] are written in the six
    slots from [(iy * width + ix) * 6] on, and each index written is an
    index of the grid. *)
Theorem npGenerateTerrainMesh_cell (ix iy k : nat) :
  let w := Z.to_nat width in
  let h := Z.to_nat height in
  let idx := snd (npGenerateTerrainMesh GenerateNormalsTriangleIndexed heightmap
                    width height size dst_vertices dst_normals dst_uv
                    dst_indices) in
  (ix < w - 1)%nat -> (iy < h - 1)%nat -> (k < 6)%nat ->
  ((iy * w + ix) * 6 + k < length dst_indices)%nat ->
  idx !!! ((iy * w + ix) * 6 + k)%nat = terrain_cell w ix iy !!! k /\
  (idx !!! ((iy * w + ix) * 6 + k)%nat < w * h)%nat.
Proof.
  intros w h idx Hix Hiy Hk Hlen. subst idx.
  rewrite npGenerateTerrainMesh_indices. unfold terrain_indices.
  replace (Z.to_nat (width - 1)) with (w - 1)%nat by (subst w; lia).
  replace (Z.to_nat (height - 1)) with (h - 1)%nat by (subst h; lia).
  fold w.
  destruct (terrain_rows w (w - 1) (h - 1) dst_indices ltac:(lia))
    as (_ & Hin & _).
  rewrite (Hin ix iy k Hix Hiy Hk Hlen). split; [reflexivity |].
  assert (Hb : ((iy + 1) * w + (ix + 1) < h * w)%nat)
    by (apply grid_index_lt; lia).
  unfold terrain_cell.
  destruct k as [|[|[|[|[|[|k]]]]]]; cbn [lookup_total list_lookup_total]; nia.
Qed.

(** The cells of a row are one fewer than its vertices while the offset
    of a cell counts a full row of vertices for every row before it: the
    six slots after the last cell of each row are never written, they
    keep what the buffer held.  With three rows of vertices or more, those
    after the first row of cells lie among the first [num_triangles * 3]
    entries, the ones the normals are then computed from, and the last
    cell of the grid is written past these entries. *)
Theorem npGenerateTerrainMesh_gap (iy k : nat) :
  let w := Z.to_nat width in
  let h := Z.to_nat height in
  let idx := snd (npGenerateTerrainMesh GenerateNormalsTriangleIndexed heightmap
                    width height size dst_vertices dst_normals dst_uv
                    dst_indices) in
  let num_triangles := ((width - 1) * (height - 1) * 2)%Z in
  (2 <= width)%Z -> (iy < h - 1)%nat -> (k < 6)%nat ->
  length idx = length dst_indices /\
  idx !!! ((iy * w + (w - 1)) * 6 + k)%nat
  = dst_indices !!! ((iy * w + (w - 1)) * 6 + k)%nat /\
  ((3 <= height)%Z ->
   (Z.of_nat ((w - 1) * 6 + k) < num_triangles * 3)%Z /\
   (num_triangles * 3 <= Z.of_nat (((h - 2) * w + (w - 2)) * 6))%Z).
Proof.
  intros w h idx num_triangles Hw Hiy Hk. subst idx.
  rewrite npGenerateTerrainMesh_indices. unfold terrain_indices.
  replace (Z.to_nat (width - 1)) with (w - 1)%nat by (subst w; lia).
  replace (Z.to_nat (height - 1)) with (h - 1)%nat by (subst h; lia).
  fold w.
  destruct (terrain_rows w (w - 1) (h - 1) dst_indices ltac:(subst w; lia))
    as (Hl & _ & Hgap & _).
  split; [exact Hl | split].
  - apply (Hgap iy); [exact Hiy |]. subst w. nia.
  - intros Hh. subst num_triangles w h. split; nia.
Qed.

(** On a grid of two columns and two rows or more, the vertex at column
    [ix] and row [iy] is written in slot [iy * width + ix]: its position is
    the fraction [ix / (width - 1)] of [size.x], the height of the map at
    that slot times [size.y], and the fraction [iy / (height - 1)] of
    [size.z]; its texture coordinates are the two fractions. *)
Theorem npGenerateTerrainMesh_vertex (ix iy : nat) :
  let w := Z.to_nat width in
  let h := Z.to_nat height in
  let r := npGenerateTerrainMesh GenerateNormalsTriangleIndexed heightmap
             width height size dst_vertices dst_normals dst_uv dst_indices in
  let i := (iy * w + ix)%nat in
  let fx := inject_Z (Z.of_nat ix) / inject_Z (width - 1) in
  let fy := inject_Z (Z.of_nat iy) / inject_Z (height - 1) in
  (2 <= width)%Z -> (2 <= height)%Z ->
  (ix < w)%nat -> (iy < h)%nat ->
  (i < length dst_vertices)%nat -> (i < length dst_uv)%nat ->
  exists vtx nrm uvs,
    fst r = Some (vtx, nrm, uvs) /\
    float3_eq (vtx !!! i)
              (mkfloat3 (fx * x3 size) (heightmap !!! i * y3 size) (fy * z3 size)) /\
    x2 (uvs !!! i) == fx /\ y2 (uvs !!! i) == fy.
Proof.
  intros w h r i fx fy Hw Hh Hix Hiy Hlv Hlu. subst r.
  unfold npGenerateTerrainMesh, terrain_vertices. cbn [fst].
  assert (Hc : (0 <? width)%Z && (0 <? height)%Z
               && ((width =? 1)%Z || (height =? 1)%Z) = false).
  { rewrite (proj2 (Z.eqb_neq width 1)), (proj2 (Z.eqb_neq height 1)) by lia.
    apply andb_false_r. }
  rewrite Hc. fold w h.
  match goal with
  | |- context [fold_left ?f (seq 0 h) ?init] =>
      set (F := fold_left f (seq 0 h) init)
  end.
  assert (HF : float3_eq (fst F !!! i)
                 (mkfloat3 (fx * x3 size) (heightmap !!! i * y3 size)
                           (fy * z3 size)) /\
               x2 (snd F !!! i) == fx /\ y2 (snd F !!! i) == fy);
    [| destruct F as [vtx uvs]; cbn [fst snd] in HF;
       eexists vtx, _, uvs; split; [reflexivity | exact HF]].
  subst F.
  match goal with
  | |- context [fold_left (fun acc iy => fold_left (@?st iy) _ acc) _ ?init] =>
      destruct (grid_fold (St := list float3 * list float2) fst
                  (fun iy acc ix => st iy acc ix)
                  (fun ix iy =>
                     mkfloat3
                       (inject_Z (Z.of_nat ix) * (1 / inject_Z (width - 1) * x3 size))
                       (heightmap !!! (iy * w + ix)%nat * (1 * y3 size))
                       (inject_Z (Z.of_nat iy) * (1 / inject_Z (height - 1) * z3 size)))
                  w) with (h := h) (s0 := init) as (_ & Hv & _);
      [| | | destruct (grid_fold (St := list float3 * list float2) snd
                  (fun iy acc ix => st iy acc ix)
                  (fun ix iy =>
                     mkfloat2
                       (inject_Z (Z.of_nat ix) * (1 / inject_Z (width - 1)))
                       (inject_Z (Z.of_nat iy) * (1 / inject_Z (height - 1))))
                  w) with (h := h) (s0 := init) as (_ & Hu & _)]
  end.
  - intros iy' [vtx uvs] ix'. cbn [fst]. apply length_insert.
  - intros iy' [vtx uvs] ix' Hlt. cbn [fst x3 y3 z3] in *.
    now apply list_lookup_total_insert_eq.
  - intros iy' [vtx uvs] ix' j Hj. cbn [fst].
    apply list_lookup_total_insert_ne. congruence.
  - intros iy' [vtx uvs] ix'. cbn [snd]. apply length_insert.
  - intros iy' [vtx uvs] ix' Hlt. cbn [snd x2 y2] in *.
    now apply list_lookup_total_insert_eq.
  - intros iy' [vtx uvs] ix' j Hj. cbn [snd].
    apply list_lookup_total_insert_ne. congruence.
  - match goal with
    | |- float3_eq ?V _ /\ x2 ?U == _ /\ _ =>
        assert (Ev : V = mkfloat3
                  (inject_Z (Z.of_nat ix) * (1 / inject_Z (width - 1) * x3 size))
                  (heightmap !!! (iy * w + ix)%nat * (1 * y3 size))
                  (inject_Z (Z.of_nat iy) * (1 / inject_Z (height - 1) * z3 size)))
          by exact (Hv ix iy Hix Hiy Hlv);
        assert (Eu : U = mkfloat2
                  (inject_Z (Z.of_nat ix) * (1 / inject_Z (width - 1)))
                  (inject_Z (Z.of_nat iy) * (1 / inject_Z (height - 1))))
          by exact (Hu ix iy Hix Hiy Hlu);
        rewrite Ev, Eu
    end.
    unfold float3_eq. cbn [x3 y3 z3 x2 y2]. subst fx fy i.
    repeat split; unfold Qdiv; ring.
Qed.

End TerrainMesh.

(** * The other entry points on the sample meshes *)

Section MoreExamples.
Local Open Scope Q_scope.
Local Existing Instance Ref.externals.

Lemma npSelectBrush_weights_witness :
  let p := mkfloat3 (-(1#2)) (-(1#2)) 1 in
  let r := npSelectBrush Sample.quad p 1 (1#2) 3 [0; 1#2; 1] in
  snd r = Z.of_nat (length (brush_vertices Sample.quad p 1)).
Proof.
  intros p r.
  assert (H : (0 < length (selection Sample.quad))%nat) by (vm_compute; lia).
  exact (proj1 (proj2 (npSelectBrush_weights Sample.quad p 1 (1#2) 3 [0; 1#2; 1]
                         0 H))).
Defined.

Lemma brush_call_frame_witness :
  let p := mkfloat3 (-(1#2)) (-(1#2)) 1 in
  let r := run_brush_call (CallBrushReplace (mkfloat3 0 1 0)) Sample.quad p 1 (1#2)
                          3 [0; 1#2; 1] false in
  snd r = Z.of_nat (length (brush_vertices Sample.quad p 1)) /\
  vertices (fst r) = vertices Sample.quad.
Proof.
  intros p r.
  assert (H : normals Sample.quad
              = Some [mkfloat3 0 0 (-1); mkfloat3 0 0 (-1); mkfloat3 0 0 (-1);
                      mkfloat3 0 0 (-1)]) by reflexivity.
  destruct (brush_call_frame Sample.quad p 1 (1#2) 3 [0; 1#2; 1] false _ H
              (CallBrushReplace (mkfloat3 0 1 0))) as (H1 & H2 & _).
  split; [exact H1 | exact H2].
Defined.

Lemma npBrushLerp_overwrites_witness :
  let p := mkfloat3 (-(1#2)) (-(1#2)) 1 in
  let n0 := replicate 4 (mkfloat3 1 0 0) in
  let n1 := replicate 4 (mkfloat3 0 1 0) in
  normals_of (fst (npBrushLerp Sample.quad p 1 (1#2) 3 [0; 1#2; 1] n0 n1 false))
    !!! 0%nat
  = normalize
      (mu.lerp (n1 !!! 0%nat) (n0 !!! 0%nat * strength_sign (1#2))%v3
               (brush_strength Sample.quad 1 (1#2) 3 [0; 1#2; 1] false 0
                               (brush_distance Sample.quad p 0))).
Proof.
  intros p n0 n1.
  assert (H : normals Sample.quad
              = Some [mkfloat3 0 0 (-1); mkfloat3 0 0 (-1); mkfloat3 0 0 (-1);
                      mkfloat3 0 0 (-1)]) by reflexivity.
  apply (npBrushLerp_overwrites Sample.quad p 1 (1#2) 3 [0; 1#2; 1] false _ H n0 n1 0).
  - vm_compute. lia.
  - vm_compute. repeat constructor.
Defined.

Lemma npBrushSmooth_average_witness :
  let p := mkfloat3 (-(1#2)) (-(1#2)) 1 in
  normals_of (fst (npBrushSmooth Sample.quad p 1 (1#2) 3 [0; 1#2; 1] false))
    !!! 1%nat
  = normalize
      (mkfloat3 0 0 (-1)
       + brush_average Sample.quad p 1
         * brush_strength Sample.quad 1 (1#2) 3 [0; 1#2; 1] false 1
                          (brush_distance Sample.quad p 1))%v3.
Proof.
  intros p.
  assert (H : normals Sample.quad
              = Some [mkfloat3 0 0 (-1); mkfloat3 0 0 (-1); mkfloat3 0 0 (-1);
                      mkfloat3 0 0 (-1)]) by reflexivity.
  apply (npBrushSmooth_average Sample.quad p 1 (1#2) 3 [0; 1#2; 1] false _ H 1).
  - vm_compute. lia.
  - vm_compute. repeat constructor.
Defined.

Lemma BrushProjectionImpl_vertex_witness :
  let p := mkfloat3 (-(1#2)) (-(1#2)) 1 in
  let dirs := fun _ : nat => mkfloat3 0 0 1 in
  normals_of (fst (BrushProjectionImpl Sample.quad p 1 (1#2) 3 [0; 1#2; 1] false
                                       Sample.wall dirs)) !!! 0%nat
  = match brush_projection_hit Sample.quad Sample.wall dirs 0 with
    | Some result =>
        normalize
          (mu.lerp (mkfloat3 0 0 (-1)) (result * strength_sign (1#2))%v3
                   (brush_strength Sample.quad 1 (1#2) 3 [0; 1#2; 1] false 0
                                   (brush_distance Sample.quad p 0)))
    | None => mkfloat3 0 0 (-1)
    end.
Proof.
  intros p dirs.
  assert (H : normals Sample.quad
              = Some [mkfloat3 0 0 (-1); mkfloat3 0 0 (-1); mkfloat3 0 0 (-1);
                      mkfloat3 0 0 (-1)]) by reflexivity.
  apply (BrushProjectionImpl_vertex Sample.quad p 1 (1#2) 3 [0; 1#2; 1] false _ H
           Sample.wall dirs 0).
  - vm_compute. lia.
  - vm_compute. repeat constructor.
Defined.

Lemma GetBrushSample_in_samples_witness :
  (0 <= GetBrushSampleIndex 5 2 3 <= 3 - 1)%Z /\
  GetBrushSample (1#2) 2 [10; 20; 30; 40] 3 ∈ take (Z.to_nat 3) [10; 20; 30; 40].
Proof.
  assert (Hr : 0 < 2) by reflexivity.
  assert (Hn : (1 <= 3 <= 2 ^ 24 + 1)%Z) by lia.
  split.
  - exact (proj1 (GetBrushSample_in_samples exact_rounding 5 2 [10; 20; 30; 40] 3
                    Hr Hn)).
  - apply (proj2 (GetBrushSample_in_samples exact_rounding (1#2) 2
                    [10; 20; 30; 40] 3 Hr Hn)).
    vm_compute. lia.
Defined.

Lemma brush_call_samples_witness :
  let p := mkfloat3 (-(1#2)) (-(1#2)) 1 in
  let c := CallBrushPaint mu.clamp01 (mkfloat3 0 0 1) 0 in
  run_brush_call c Sample.quad p 1 (1#2) 3 [0; 1#2; 1] false
  = run_brush_call c Sample.quad p 1 (1#2) 3 [0; 1#2; 1; 7; 7] false.
Proof.
  intros p c.
  apply (brush_call_samples exact_rounding c Sample.quad p 1 (1#2) 3 [0; 1#2; 1]
           [0; 1#2; 1; 7; 7] false).
  - reflexivity.
  - simpl. lia.
  - reflexivity.
Defined.

Lemma edit_call_frame_witness :
  vertices (run_edit_call (CallMoveVertices (mkfloat3 1 0 0)) Sample.quad true)
    !!! 0%nat
  = vertices Sample.quad !!! 0%nat.
Proof.
  apply (edit_call_frame (CallMoveVertices (mkfloat3 1 0 0)) Sample.quad true 0).
  - vm_compute. lia.
  - right. split; reflexivity.
Defined.

Lemma npMoveVertices_compose_witness :
  let a := mkfloat3 1 0 0 in
  let b := mkfloat3 0 2 0 in
  float3_eq
    (vertices (npMoveVertices (npMoveVertices Sample.quad a true) b true) !!! 1%nat)
    (vertices (npMoveVertices Sample.quad (a + b)%v3 true) !!! 1%nat).
Proof.
  intros a b. apply (npMoveVertices_compose Sample.quad a b true 1).
  vm_compute. lia.
Defined.

Lemma npAssignVertices_axes_witness :
  let value := mkfloat3 3 4 5 in
  let v1 := mu.mul_p mu.identity44 (vertices Sample.quad !!! 1%nat) in
  float3_eq
    (mu.mul_p mu.identity44
       (vertices (npAssignVertices Sample.quad value mu.identity44 1 true)
          !!! 1%nat))
    (mu.lerp v1 (assign_axes value v1 1) (mask_weight Sample.quad true 1)).
Proof.
  intros value v1.
  apply (npAssignVertices_axes Sample.quad value mu.identity44 1 true 1).
  - vm_compute. repeat split.
  - vm_compute. discriminate.
  - vm_compute. lia.
  - vm_compute. lia.
  - vm_compute. discriminate.
Defined.

Lemma npSelectRect_weights_witness :
  let r := npSelectRect Sample.quad mu.identity44 (mkfloat2 (-1) (-1))
                        (mkfloat2 0 1) mu.zero3 (1#2) false in
  snd r
  = Z.of_nat
      (length
         (List.filter
            (screen_selected Sample.quad mu.identity44
                             (rect_test (mkfloat2 (-1) (-1)) (mkfloat2 0 1))
                             mu.zero3 false)
            (seq 0 (num_vertices Sample.quad)))).
Proof.
  intros r.
  assert (H : (0 < length (selection Sample.quad))%nat) by (vm_compute; lia).
  exact (proj1 (proj2 (npSelectRect_weights Sample.quad mu.identity44
                         (mkfloat2 (-1) (-1)) (mkfloat2 0 1) mu.zero3 (1#2)
                         false 0 H))).
Defined.

Lemma npSelectLasso_weights_witness :
  let lasso := [mkfloat2 (-1) (-1); mkfloat2 1 (-1); mkfloat2 0 2] in
  let r := npSelectLasso Sample.quad mu.identity44 lasso 3 mu.zero3 (1#2) false in
  snd r
  = Z.of_nat
      (length
         (List.filter
            (screen_selected Sample.quad mu.identity44 (lasso_test lasso 3)
                             mu.zero3 false)
            (seq 0 (num_vertices Sample.quad)))).
Proof.
  intros lasso r.
  assert (H3 : (3 <= 3)%Z) by lia.
  assert (Hw : forall vi, (vi < num_vertices Sample.quad)%nat ->
                 ~ w4 (mu.mul4 mu.identity44 (vertices Sample.quad !!! vi)) == 0).
  { intros vi Hvi.
    assert (Hvi' : (vi < 4)%nat) by exact Hvi.
    destruct vi as [|[|[|[|vi]]]]; [vm_compute; discriminate .. | lia]. }
  assert (H : (0 < length (selection Sample.quad))%nat) by (vm_compute; lia).
  exact (proj2 (npSelectLasso_weights Sample.quad mu.identity44 lasso 3 mu.zero3
                  (1#2) false 0 H3 Hw H)).
Defined.

Lemma topology_selection_weights_witness :
  let c := CallSelectEdge (3#4) true false in
  selection Sample.stretched !!! 0%nat = 1 /\
  selection (fst (run_selection_call c Sample.stretched)) !!! 0%nat = 0.
Proof.
  intros c. split; [reflexivity |].
  assert (Ht : topology_call c = true) by reflexivity.
  assert (Hl : (0 < length (selection Sample.stretched))%nat) by (vm_compute; lia).
  assert (Hn : 0%nat ∉ reported_vertices c Sample.stretched).
  { vm_compute. intros H. inversion H. }
  exact (proj2 (topology_selection_weights c Sample.stretched 0 Ht Hl Hn)).
Defined.

Lemma npApplyMirroring_pair_witness :
  let plane := mkfloat3 1 0 0 in
  let vtx := vertices Sample.near_plane in
  let nrm := normals_of Sample.near_plane in
  exists vtx' nrm',
    fst (npApplyMirroring Sample.near_plane (Some [1; -1]%Z) plane (Some vtx)
                          (Some nrm) None) = (Some vtx', Some nrm') /\
    vtx' !!! 1%nat = mu.plane_mirror (vtx !!! 0%nat) plane.
Proof.
  intros plane vtx nrm.
  destruct (npApplyMirroring_pair Sample.near_plane [1; -1]%Z plane vtx nrm None
              0 1) as (vtx' & nrm' & Hr & Hv & _).
  - vm_compute. lia.
  - reflexivity.
  - vm_compute. lia.
  - vm_compute. lia.
  - intros [|[|vk]] Hvk; [vm_compute; discriminate | vm_compute; discriminate |].
    vm_compute in Hvk. lia.
  - intros [|[|vk]] Hvk Hne; [congruence | vm_compute; discriminate |].
    vm_compute in Hvk. lia.
  - vm_compute. discriminate.
  - exists vtx', nrm'. split; [exact Hr | exact Hv].
Defined.

Lemma npApplyMirroring_plane_witness :
  let plane := mkfloat3 1 0 0 in
  let vtx := vertices Sample.near_plane in
  let nrm := normals_of Sample.near_plane in
  exists vtx' nrm',
    fst (npApplyMirroring Sample.near_plane (Some [(-2); (-1)]%Z) plane (Some vtx)
                          (Some nrm) None) = (Some vtx', Some nrm') /\
    length vtx' = length vtx.
Proof.
  intros plane vtx nrm.
  destruct (npApplyMirroring_plane Sample.near_plane [(-2); (-1)]%Z plane vtx nrm
              None 0) as (vtx' & nrm' & Hr & Hl & _).
  - vm_compute. lia.
  - intros [|[|vk]] Hvk; [vm_compute; discriminate | vm_compute; discriminate |].
    vm_compute in Hvk. lia.
  - exists vtx', nrm'. split; [exact Hr | exact Hl].
Defined.

Lemma npBuildMirroringRelation_count_witness :
  exists relation',
    fst (npBuildMirroringRelation Sample.near_plane (mkfloat3 1 0 0) (1 # 1000)
                                  (Some [0; 0]%Z)) = Some relation'.
Proof.
  destruct (npBuildMirroringRelation_count Sample.near_plane (mkfloat3 1 0 0)
              (1 # 1000) [0; 0]%Z) as (relation' & Hr & _).
  - vm_compute. lia.
  - exists relation'. rewrite Hr. reflexivity.
Defined.

Lemma npWeld_isolated_witness :
  normals_of (fst (npWeld Sample.stretched false 90 false)) !!! 0%nat
  = normals_of Sample.stretched !!! 0%nat.
Proof.
  apply (npWeld_isolated Sample.stretched false 90 false 0).
  intros [|[|i]] Hi Hne; [congruence | |].
  - vm_compute. split; discriminate.
  - vm_compute in Hi. lia.
Defined.

Lemma npWeld_nothing_selected_witness :
  npWeld Sample.wall false 90 true = (Sample.wall, 0%Z).
Proof.
  apply (npWeld_nothing_selected Sample.wall false 90 true).
  - reflexivity.
  - intros [|[|[|vi]]] Hvi; [reflexivity | reflexivity | reflexivity |].
    vm_compute in Hvi. lia.
Defined.

Lemma ProjectNormalsImpl_vertex_witness :
  let r := ProjectNormalsImpl Sample.quad Sample.wall (fun _ => mkfloat3 0 0 1)
                              false in
  vertices r = vertices Sample.quad /\ selection r = selection Sample.quad.
Proof.
  intros r.
  assert (H : normals Sample.quad
              = Some [mkfloat3 0 0 (-1); mkfloat3 0 0 (-1); mkfloat3 0 0 (-1);
                      mkfloat3 0 0 (-1)]) by reflexivity.
  assert (H0 : (0 < num_vertices Sample.quad)%nat) by (vm_compute; lia).
  assert (H1 : (0 < length [mkfloat3 0 0 (-1); mkfloat3 0 0 (-1); mkfloat3 0 0 (-1);
                            mkfloat3 0 0 (-1)])%nat) by (vm_compute; lia).
  exact (proj2 (proj2 (ProjectNormalsImpl_vertex Sample.quad Sample.wall
                         (fun _ => mkfloat3 0 0 1) false _ 0 H H0 H1))).
Defined.

Lemma npGenerateTerrainMesh_cell_witness :
  let idx := snd (npGenerateTerrainMesh (fun dn _ _ _ _ => dn)
                    [0; 1; 2; 3; 4; 5; 6; 7; 8] 3 3 (mkfloat3 2 1 2)
                    (replicate 9 mu.zero3) (replicate 9 mu.zero3)
                    (replicate 9 mu.zero2) (replicate 30 99%nat)) in
  idx !!! 24%nat = 4%nat.
Proof.
  intros idx.
  assert (Hx : (1 < Z.to_nat 3 - 1)%nat) by (vm_compute; lia).
  assert (Hy : (1 < Z.to_nat 3 - 1)%nat) by (vm_compute; lia).
  assert (Hk : (0 < 6)%nat) by lia.
  assert (Hl : ((1 * Z.to_nat 3 + 1) * 6 + 0 < length (replicate 30 99%nat))%nat)
    by (vm_compute; lia).
  exact (proj1 (npGenerateTerrainMesh_cell (fun dn _ _ _ _ => dn)
                  [0; 1; 2; 3; 4; 5; 6; 7; 8] 3 3 (mkfloat3 2 1 2)
                  (replicate 9 mu.zero3) (replicate 9 mu.zero3)
                  (replicate 9 mu.zero2) (replicate 30 99%nat) 1 1 0 Hx Hy Hk Hl)).
Defined.

Lemma npGenerateTerrainMesh_gap_witness :
  let idx := snd (npGenerateTerrainMesh (fun dn _ _ _ _ => dn)
                    [0; 1; 2; 3; 4; 5; 6; 7; 8] 3 3 (mkfloat3 2 1 2)
                    (replicate 9 mu.zero3) (replicate 9 mu.zero3)
                    (replicate 9 mu.zero2) (replicate 30 99%nat)) in
  idx !!! 12%nat = 99%nat.
Proof.
  intros idx.
  assert (Hw : (2 <= 3)%Z) by lia.
  assert (Hy : (0 < Z.to_nat 3 - 1)%nat) by (vm_compute; lia).
  assert (Hk : (0 < 6)%nat) by lia.
  exact (proj1 (proj2 (npGenerateTerrainMesh_gap (fun dn _ _ _ _ => dn)
                  [0; 1; 2; 3; 4; 5; 6; 7; 8] 3 3 (mkfloat3 2 1 2)
                  (replicate 9 mu.zero3) (replicate 9 mu.zero3)
                  (replicate 9 mu.zero2) (replicate 30 99%nat) 0 0 Hw Hy Hk))).
Defined.

Lemma npGenerateTerrainMesh_vertex_witness :
  let r := npGenerateTerrainMesh (fun dn _ _ _ _ => dn)
             [0; 1; 2; 3; 4; 5; 6; 7; 8] 3 3 (mkfloat3 2 1 2)
             (replicate 9 mu.zero3) (replicate 9 mu.zero3)
             (replicate 9 mu.zero2) (replicate 30 99%nat) in
  exists vtx nrm uvs,
    fst r = Some (vtx, nrm, uvs) /\
    x2 (uvs !!! 8%nat) == 1 /\ y2 (uvs !!! 8%nat) == 1.
Proof.
  intros r.
  assert (H2 : (2 <= 3)%Z) by lia.
  assert (Hx : (2 < Z.to_nat 3)%nat) by (vm_compute; lia).
  assert (Hv : ((2 * Z.to_nat 3 + 2) < length (replicate 9 mu.zero3))%nat)
    by (vm_compute; lia).
  assert (Hu : ((2 * Z.to_nat 3 + 2) < length (replicate 9 mu.zero2))%nat)
    by (vm_compute; lia).
  destruct (npGenerateTerrainMesh_vertex (fun dn _ _ _ _ => dn)
              [0; 1; 2; 3; 4; 5; 6; 7; 8] 3 3 (mkfloat3 2 1 2)
              (replicate 9 mu.zero3) (replicate 9 mu.zero3)
              (replicate 9 mu.zero2) (replicate 30 99%nat) 2 2 H2 H2 Hx Hx Hv Hu)
    as (vtx & nrm & uvs & Er & _ & Ex & Ey).
  exists vtx, nrm, uvs. split; [exact Er |].
  split; (etransitivity; [eassumption | vm_compute; reflexivity]).
Defined.

End MoreExamples.
